(* ===== verification/_CoqProject ===== *)
-Q . S2P
Prelude.v
Hoare.v
Memo.v
Dom.v
Storage.v
JsonValue.v
Json.v
App.v
Sample.v
Invariant.v
Transitions.v
Machine.v
Always.v
Errors.v
Spec.v
Clock.v
Preview.v
Display.v
Async.v
Scenarios.v
User.v
Complete.v
Tabs.v
