(* ===== verification/Prelude.v ===== *)
(** * memo-app: a verification development

    ** The program

    src/src/index.ts (286 lines of TypeScript) is a single-page note-taking
    tool.  It keeps two module-level variables, the array [memos] and the
    number [memoIndex], and mirrors them into the page (a list of title
    labels, a title field, a body field, a rendered preview, two buttons, a
    download link) and into one key of [localStorage].  [init] runs when
    the module is loaded; [clickAddMemo], [selectedMemo], [clickEditMemo],
    [clickSaveMemo], [clickDeleteMemo] and [clickDownloadMemo] are
    registered as listeners; [newMemo], [newMemoElement],
    [clearMemoElements], [showMemoElements], [setActiveStyle],
    [setMemoElement], [setHiddenButton] and [setEditMode] are the functions
    they call.  The spec (spec.md) describes the program as four
    components: a storage adapter, a memo repository, a selection and edit
    state machine, and the synchronisation of the page.

    ** How the code is modelled

    - Numbers that hold integers (times, lengths, the index) are [Z].
      [memoIndex] is a [Z] because [findIndex] stores -1 in it.  The
      times of [Clock] are below 2^53, where doubles stop being exact
      ([Clock.thirteen_safe]).
    - A function of index.ts that writes state is a computation in the
      monad [Eff S E A := S -> S * outcome E A] of this file: it threads
      the state and may throw.  The state reached at a throw is kept, as in
      a browser, where an uncaught [TypeError] ends the listener and
      leaves every assignment made so far in place.
    - Reading a property of [undefined] or [null] is [throw (TypeError
      ...)] with the message of the engine; nothing else in the program
      throws synchronously.
    - [Date.now()] is an argument of the handler that calls it.
    - An element is a record [Element]: its attributes as a [gmap], its
      class list, and its [innerText], [value] and [innerHTML].  The mode
      of the spec (viewing or editing) has no variable in the code: it is
      the presence of the attributes [disabled] and [hidden] on five
      elements ([shows]).
    - [localStorage] is a [gmap string string].  storage.ts and types.ts
      are not among the sources: the record [Memo] has the fields
      [newMemo] writes, and [readLacalStorage] and [saveLocalStorage]
      follow the spec, over an interface [Codec] for the serialization
      whose one law is the round trip.  [Json] implements the interface.
    - [marked.parse] is a parameter ([Marked]): for each text it throws,
      resolves to HTML, or rejects.  The assignment after the [await] is a
      continuation ([Task]) the handler leaves in a queue.

    ** The files

    - [Prelude] (this file): the monad with its notation (scope
      [eff_scope]) and laws (rewrite database [eff], the equivalence [≃]
      with its [Proper] instance), array access by a [Z] index,
      [findIndex], lemmas on lists and strings.
    - [Hoare]: weakest preconditions for the monad and the judgement
      [upholds I X c] (from a state in [I] the computation [c] ends in
      [I], by a return or by a throw, and throws only exceptions of [X]),
      with one rule for each operation of the monad and a tactic that
      applies them along the text of a handler; and the judgement
      [respects R c] (two runs of [c] from states related by [R] end in
      related states with the same outcome), with its rules.
    - [Memo]: the record, [newMemo] (lines 44-53), the search by
      identifier of line 198, the filter of line 252, the update of lines
      222-225, and what they do with and without repeated identifiers.
    - [Dom]: the page (lines 9-18) and [newMemoElement], [clearMemoElements],
      [showMemoElements], [setActiveStyle], [setHiddenButton],
      [setEditMode] (lines 80-161); [labels] is the list the page is meant
      to show.
    - [Storage]: the interface [Codec], [readLacalStorage],
      [saveLocalStorage].
    - [JsonValue]: JSON texts.  The values ([Value]), the printer
      [stringify] as [JSON.stringify] writes, the reader [parse] for the
      grammar of [JSON.parse] (blanks, every escape, surrogate pairs), and
      the grammar itself as a relation ([spells]).  The reader accepts
      exactly the texts of the grammar ([parse_spec]), its fuel is enough
      for every text ([parse_value_enough]), and it reads back what the
      printer writes ([parse_stringify]).
    - [Json]: the persisted layout of the spec's section 6 as a [Codec]:
      [encode_json] prints the array of the memos, [decode_json] reads a
      text and checks that it is an array of objects with the five fields
      ([as_memos]); the round trip ([decode_encode_json]), and that the
      order of the fields and further fields make no difference.
    - [App]: the state [World] and the handlers, each the whole function of
      index.ts (lines 56-77, 122-135, 169-286).  For each handler a lemma
      [*_run] gives the state it returns in, field by field, and the
      conditions under which it returns; [*_throws] give the states in
      which it throws.
    - [Sample]: a renderer, a page and times, to run the model on.
    - [Invariant]: [Inv], the invariant between two events (the index
      addresses a memo, identifiers are distinct, the labels are those of
      the array and the index, a fresh read of the store returns the
      array), kept by every handler.
    - [Transitions]: one theorem for each handler saying what it does
      (the transition table of the spec's section 4.3 and the bootstrap),
      the error path of [selectedMemo], and what [init] leaves to the
      page.
    - [Machine]: the listeners (lines 29-33 and 89), one turn of the event
      loop ([dispatch]), the start (lines 27-35), the reachable states.
      Every reachable state satisfies [Inv] and no handler throws in it,
      provided every add builds an identifier that is not in use
      ([allowed]).  [collision_empties] shows what happens otherwise.
    - [Always]: what holds in every state and after every event, with or
      without the invariant, also when a handler has thrown: the store
      and the array agree ([always_persisted]); no blob is ever freed and
      only a click on the download link makes one ([run_blobs]).
    - [Errors]: the exceptions of the handlers.  [signature] lists the
      [TypeError]s of each listener, exactly ([signature_exact]); with
      [memoIndex] at -1 every handler that reads the selected memo throws
      and changes nothing ([unselected_throws]); a click on add leads
      back into the invariant ([add_recovers]).
    - [Spec]: the state machine of the spec and the simulation: the
      program refines it ([run_refines], [reachable_refines]); the size
      formula of the spec's section 8 ([run_size]).
    - [Clock]: the assumption on identifiers discharged from the clock:
      with times of thirteen digits, later than the creation of every memo
      in the array, the identifier is new ([timely_run_refines]), so from
      the start identifiers are distinct, in the array and in the store
      the program leaves ([timely_ids_unique]); and a memo is never saved
      before it was made ([saved_after_created]).
    - [Preview]: with promises settled at once, the preview holds the
      rendering of the body of the selected memo in every reachable state.
    - [Display]: in every reachable state in viewing mode the title
      field and the body field hold the title and the body of the selected
      memo ([reachable_faithful]).
    - [Async]: promises that settle any number of turns later, in any
      order: the invariant survives every schedule, and every schedule
      refines the machine of the spec, a settling promise being no action
      ([turns_refines]); the store and the array agree and no blob is
      freed under every schedule ([turns_persisted], [turns_blobs]);
      when promises settle in order the preview is right once they have
      settled ([fifo_previewed]); out-of-order settling can leave it
      stale ([stale_preview]).
    - [Scenarios]: the scenarios of the spec's section 8 that take several
      events.
    - [User]: the events the page lets the user make ([can]): no click
      on a hidden button, no text into a disabled field.  The attributes
      [setHiddenButton] and [setEditMode] leave are the guards of the
      machine: what a user does is a sequence of edit sessions
      ([can_run_offered]).
    - [Complete]: the converse of the refinement: every sequence of
      actions of the machine can be made by the user, with events the
      page lets the user make; a save with a title and a body through a
      click on edit where the button is shown, typing, and a click on
      save ([steps_complete]).
    - [Tabs]: the program in several tabs of one browser, each with its
      own variables and page, all on one [localStorage].  No listener
      reads the store, so a tab shows what it would show alone
      ([tab_alone]); the store always holds the array of one of the tabs
      ([browse_all_agreed]), and a tab overwrites what another tab has
      added ([lost_update]).

    Each theorem that is a property of the development carries a comment
    that begins with its claim number; the theorems with hypotheses are
    applied to concrete states, under the JSON codec, in the section
    [witnesses] at the end of their file.

    ** Bounds

    There is no bound on the number of memos, on the length of the texts or
    on the number of events.  Fuel appears once: [JsonValue.parse_value]
    takes twice the length of the text plus one, and
    [JsonValue.parse_value_enough] shows that no text needs more: with
    that much, more fuel changes no result ([parse_fuel]).  The loops of
    index.ts run over an array ([forEach], [findIndex], [filter]) and
    are structural recursions here.  [Clock] assumes times between 10^12
    and 10^13 milliseconds (the years 2001 to 2286).  Numbers are
    integers ([Z]); [Memo.toString] prints all their digits, as
    JavaScript does below 10^21, and a time of thirteen digits is a
    number a double holds exactly ([Clock.thirteen_safe]).

    ** What is not modelled

    - The renderer [marked] and the static page index.html: a library the
      sources only call and a file that is not among them.  Both are
      parameters, and the theorems hold for every renderer and every
      page that has the nine elements of lines 9-18.  A page without one
      of them is outside the model: there [getElementById] returns
      [null], which the casts of lines 9-18 hide, and the first use of
      the element throws.
    - A store that refuses a write.  storage.ts is not among the sources;
      [saveLocalStorage] writes and returns, as the spec's section 4.1
      describes it, so a full store is outside the model.  index.ts calls
      it with no [try] around it (lines 65, 179, 227, 254).
    - The browser beyond what the handlers touch: layout, focus, the
      download the link triggers, [console] beyond the list of what was
      logged.  The target of a click is the element the listener is
      attached to: the labels hold text only, and the download link is
      taken to have no element inside it.  [innerText] and [value] are
      plain texts: a line feed in a title, which only a foreign store can
      hold, is kept as it is, where the browser would make a [br] of it
      in a label and drop it from an [input].  In [Machine] a click on a
      hidden button is an event like any other, so its theorems cover
      more sequences of events than a user can make; [User] says which
      events a user can make.
    - Numbers that are not integers: the two numbers of a memo are times
      in milliseconds, so [JsonValue.Number] holds a [Z], and the reader
      refuses a number with a fraction or an exponent, which [JSON.parse]
      accepts.  Strings are lists of bytes, the UTF-8 encoding of the
      text: an escape [\u] is read into its UTF-8 bytes, and an escape
      of half a surrogate pair, which JavaScript keeps as a code unit of
      its own, is refused. *)

From stdpp Require Export base tactics numbers strings pretty option list gmap.

(** ** Outcomes and the handler monad *)

Inductive outcome (E A : Type) : Type :=
| Done (a : A)
| Thrown (e : E).
Arguments Done {E A} a.
Arguments Thrown {E A} e.

Definition Eff (S E A : Type) : Type := S → S * outcome E A.

Section eff_ops.
Context {S E : Type}.

Definition ret {A} (a : A) : Eff S E A := λ s, (s, Done a).

Definition bind {A B} (c : Eff S E A) (k : A → Eff S E B) : Eff S E B :=
  λ s, match c s with
       | (s', Done a) => k a s'
       | (s', Thrown e) => (s', Thrown e)
       end.

Definition throw {A} (e : E) : Eff S E A := λ s, (s, Thrown e).

Definition gets {A} (f : S → A) : Eff S E A := λ s, (s, Done (f s)).

Definition modify (f : S → S) : Eff S E unit := λ s, (f s, Done tt).

(** [from_option e o]: the value of [o], or the exception [e]. *)
Definition unwrap {A} (e : E) (o : option A) : Eff S E A :=
  match o with
  | Some a => ret a
  | None => throw e
  end.

(** [a.forEach(f)]: run [f] on the elements in order; a throw ends it. *)
Fixpoint forEach {A} (l : list A) (f : A → Eff S E unit) : Eff S E unit :=
  match l with
  | [] => ret tt
  | x :: l' => bind (f x) (λ _, forEach l' f)
  end.

(** The state a computation ends in, and whether it returned. *)
Definition exec {A} (c : Eff S E A) (s : S) : S := (c s).1.

Definition returns {A} (c : Eff S E A) (s : S) (a : A) (s' : S) : Prop :=
  c s = (s', Done a).

Definition throws {A} (c : Eff S E A) (s : S) (e : E) (s' : S) : Prop :=
  c s = (s', Thrown e).

End eff_ops.

(** A computation on a part [T] of the state [S], run on the whole state
    through a getter and a setter. *)
Definition zoom {S T E A} (get : S → T) (set : T → S → S)
    (c : Eff T E A) : Eff S E A :=
  λ s, match c (get s) with
       | (t, r) => (set t s, r)
       end.

(** The exceptions of the program: reading a property of [undefined] or
    [null] raises a [TypeError]. *)
Inductive Exn : Type :=
| TypeError (msg : string).

#[export] Instance Exn_eq_dec : EqDecision Exn.
Proof. solve_decision. Defined.

Declare Scope eff_scope.
Delimit Scope eff_scope with eff.
Bind Scope eff_scope with Eff.
Notation "x <- c ;; k" := (bind c (λ x, k))
  (at level 100, c at next level, k at level 200, right associativity) : eff_scope.
Notation "c ;; k" := (bind c (λ _, k))
  (at level 100, k at level 200, right associativity) : eff_scope.
Open Scope eff_scope.

(** Two computations are equivalent when they agree on every state. *)
Definition eff_equiv {S E A} (c d : Eff S E A) : Prop := ∀ s, c s = d s.
Infix "≃" := eff_equiv (at level 70) : eff_scope.

(** ** JavaScript arrays *)

(** [a[i]] for a number [i]: [undefined] ([None]) outside [0 .. length-1]. *)
Definition js_nth {A} (l : list A) (i : Z) : option A :=
  if decide (0 ≤ i)%Z then l !! Z.to_nat i else None.

(** [a.findIndex(p)]: the first index whose element satisfies [p], or -1. *)
Definition js_findIndex {A} (p : A → bool) (l : list A) : Z :=
  match list_find (λ x, p x = true) l with
  | Some (i, _) => Z.of_nat i
  | None => (-1)%Z
  end.

(** [a.length] as a number. *)
Definition js_length {A} (l : list A) : Z := Z.of_nat (length l).

(** ** Equations of the monad *)

Create Rewrite HintDb eff.

Section eff_laws.
Context {S E : Type}.
Implicit Types s : S.

#[export] Instance eff_equiv_equivalence {A} : Equivalence (@eff_equiv S E A).
Proof.
  split; [by intros c s | by intros c d H s | intros c d e H1 H2 s].
  by rewrite H1.
Qed.

#[export] Instance bind_proper {A B} :
  Proper (eff_equiv ==> pointwise_relation A eff_equiv ==> eff_equiv)
    (@bind S E A B).
Proof.
  intros c d Hcd k l Hkl s. unfold bind. rewrite Hcd.
  destruct (d s) as [s' [a|e]]; [apply Hkl | done].
Qed.

Lemma bind_ret_l {A B} (a : A) (k : A → Eff S E B) s :
  (x <- ret a ;; k x) s = k a s.
Proof. done. Qed.

Lemma bind_ret_r {A} (c : Eff S E A) : (x <- c ;; ret x) ≃ c.
Proof. intros s. unfold bind. by destruct (c s) as [s' [a|e]]. Qed.

Lemma bind_assoc {A B C} (c : Eff S E A) (k : A → Eff S E B) (l : B → Eff S E C) :
  (y <- (x <- c ;; k x) ;; l y) ≃ (x <- c ;; y <- k x ;; l y).
Proof. intros s. unfold bind. by destruct (c s) as [s' [a|e]]. Qed.

Lemma bind_throw {A B} (e : E) (k : A → Eff S E B) s :
  (x <- throw e ;; k x) s = (s, Thrown e).
Proof. done. Qed.

Lemma bind_gets {A B} (f : S → A) (k : A → Eff S E B) s :
  (x <- gets f ;; k x) s = k (f s) s.
Proof. done. Qed.

Lemma bind_modify {B} (f : S → S) (k : unit → Eff S E B) s :
  (x <- modify f ;; k x) s = k tt (f s).
Proof. done. Qed.

Lemma bind_returns {A B} (c : Eff S E A) (k : A → Eff S E B) s a s' :
  returns c s a s' → (x <- c ;; k x) s = k a s'.
Proof. unfold returns, bind. by intros ->. Qed.

Lemma bind_throws {A B} (c : Eff S E A) (k : A → Eff S E B) s e s' :
  throws c s e s' → (x <- c ;; k x) s = (s', Thrown e).
Proof. unfold throws, bind. by intros ->. Qed.

Lemma unwrap_Some {A} (e : E) (a : A) s : unwrap e (Some a) s = (s, Done a).
Proof. done. Qed.

Lemma unwrap_None {A} (e : E) s : unwrap (A:=A) e None s = (s, Thrown e).
Proof. done. Qed.

Lemma forEach_modify {A} (l : list A) (g : A → S → S) s :
  forEach (E:=E) l (λ x, modify (g x)) s = (foldl (λ s x, g x s) s l, Done tt).
Proof.
  revert s. induction l as [|x l IH]; intros s; [done|].
  simpl. by rewrite bind_modify, IH.
Qed.

Lemma returns_det {A} (c : Eff S E A) s a1 s1 a2 s2 :
  returns c s a1 s1 → returns c s a2 s2 → a1 = a2 ∧ s1 = s2.
Proof. unfold returns. intros -> [= -> ->]. done. Qed.

Lemma returns_not_throws {A} (c : Eff S E A) s a s1 e s2 :
  returns c s a s1 → ¬ throws c s e s2.
Proof. unfold returns, throws. by intros ->. Qed.

End eff_laws.

Lemma zoom_returns {S T E A} (get : S → T) (set : T → S → S)
    (c : Eff T E A) s a t :
  returns c (get s) a t → zoom get set c s = (set t s, Done a).
Proof. unfold returns, zoom. by intros ->. Qed.

Lemma zoom_throws {S T E A} (get : S → T) (set : T → S → S)
    (c : Eff T E A) s e t :
  throws c (get s) e t → zoom get set c s = (set t s, Thrown e).
Proof. unfold throws, zoom. by intros ->. Qed.

#[export] Hint Rewrite @bind_ret_l @bind_throw @bind_gets @bind_modify
  @unwrap_Some @unwrap_None : eff.

(** ** Lists *)

Section lists.
Context {A : Type}.
Implicit Types (l : list A) (x : A).

Lemma filter_all (P : A → Prop) `{!∀ x, Decision (P x)} l :
  (∀ x, x ∈ l → P x) → filter P l = l.
Proof.
  induction l as [|x l IH]; intros Hall; [done|].
  rewrite filter_cons_True by (apply Hall; left).
  rewrite IH; [done|]. intros y Hy. apply Hall. by right.
Qed.

(** Removing a value that is not in the list, among others. *)
Lemma filter_ne_absent `{!EqDecision A} l x : x ∉ l → filter (λ y, y ≠ x) l = l.
Proof. intros Hx. apply filter_all. by intros y Hy ->. Qed.

End lists.

(** ** Strings *)

Lemma option_bind_Some {A B} (f : A → option B) (x : A) : Some x ≫= f = f x.
Proof. done. Qed.

Section strings.
Implicit Types s t : string.

Lemma string_app_cons a s t : String a s +:+ t = String a (s +:+ t).
Proof. done. Qed.

Lemma string_app_nil s : "" +:+ s = s.
Proof. done. Qed.

Lemma string_app_assoc s t u : (s +:+ t) +:+ u = s +:+ (t +:+ u).
Proof.
  induction s as [|a s IH]; [done|].
  by rewrite !string_app_cons, IH.
Qed.

Lemma string_length_app s t :
  String.length (s +:+ t) = String.length s + String.length t.
Proof.
  induction s as [|a s IH]; [done|].
  rewrite string_app_cons. simpl. by rewrite IH.
Qed.

(** Concatenations with prefixes of one length are equal only part by
    part. *)
Lemma string_app_inj_prefix s1 s2 t1 t2 :
  String.length s1 = String.length s2 →
  s1 +:+ t1 = s2 +:+ t2 → s1 = s2 ∧ t1 = t2.
Proof.
  revert s2. induction s1 as [|a s1 IH]; intros [|b s2] Hlen Heq;
    simpl in Hlen; try done.
  rewrite !string_app_cons in Heq. injection Heq as -> Heq.
  destruct (IH s2) as [-> ->]; [lia | done | done].
Qed.

(** The same with suffixes of one length. *)
Lemma string_app_inj_suffix s1 s2 t1 t2 :
  String.length t1 = String.length t2 →
  s1 +:+ t1 = s2 +:+ t2 → s1 = s2 ∧ t1 = t2.
Proof.
  intros Hlen Heq. apply string_app_inj_prefix; [|done].
  apply (f_equal String.length) in Heq. rewrite !string_length_app in Heq. lia.
Qed.

End strings.

(** ** JavaScript arrays: lemmas *)

Section js_arrays.
Context {A : Type}.
Implicit Types (l : list A) (i : Z) (n : nat).

Lemma js_nth_nat l n : js_nth l (Z.of_nat n) = l !! n.
Proof. unfold js_nth. rewrite decide_True by lia. by rewrite Nat2Z.id. Qed.

Lemma js_nth_neg l i : (i < 0)%Z → js_nth l i = None.
Proof. intros Hi. unfold js_nth. case_decide; [lia | done]. Qed.

Lemma js_nth_Some l i x :
  js_nth l i = Some x ↔ (0 ≤ i)%Z ∧ l !! Z.to_nat i = Some x.
Proof. unfold js_nth. case_decide; [tauto | split; [done | intros []; lia]]. Qed.

Lemma js_nth_is_Some l i :
  is_Some (js_nth l i) ↔ (0 ≤ i < js_length l)%Z.
Proof.
  unfold js_nth, js_length. case_decide.
  - rewrite lookup_lt_is_Some. lia.
  - split; [by intros [] | lia].
Qed.

Lemma js_nth_None l i :
  js_nth l i = None ↔ (i < 0 ∨ js_length l ≤ i)%Z.
Proof.
  rewrite eq_None_not_Some, js_nth_is_Some. lia.
Qed.

Lemma js_nth_app_last l x : js_nth (l ++ [x]) (js_length l) = Some x.
Proof. unfold js_length. rewrite js_nth_nat. apply list_lookup_middle. done. Qed.

Lemma js_length_app l1 l2 : js_length (l1 ++ l2) = (js_length l1 + js_length l2)%Z.
Proof. unfold js_length. rewrite length_app. lia. Qed.

Lemma js_length_snoc l x : (js_length (l ++ [x]) - 1)%Z = Z.of_nat (length l).
Proof. rewrite js_length_app. unfold js_length. simpl. lia. Qed.

Lemma js_length_nonneg l : (0 ≤ js_length l)%Z.
Proof. unfold js_length. lia. Qed.

Lemma js_findIndex_Some (p : A → bool) l n x :
  l !! n = Some x → p x = true →
  (∀ m y, l !! m = Some y → m < n → p y = false) →
  js_findIndex p l = Z.of_nat n.
Proof.
  intros Hn Hp Hfirst. unfold js_findIndex.
  assert (list_find (λ x, p x = true) l = Some (n, x)) as ->; [|done].
  apply list_find_Some. split_and!; [done..|].
  intros m y Hm Hlt. rewrite (Hfirst m y Hm Hlt). done.
Qed.

Lemma js_findIndex_None (p : A → bool) l :
  (∀ x, x ∈ l → p x = false) → js_findIndex p l = (-1)%Z.
Proof.
  intros Hall. unfold js_findIndex.
  assert (list_find (λ x, p x = true) l = None) as ->; [|done].
  apply list_find_None, Forall_forall. intros x Hx. by rewrite (Hall x Hx).
Qed.

Lemma js_findIndex_range (p : A → bool) l :
  (-1 ≤ js_findIndex p l < js_length l)%Z.
Proof.
  unfold js_findIndex, js_length.
  destruct (list_find _ l) as [[n x]|] eqn:Hf; [|lia].
  apply list_find_Some in Hf as (Hn%lookup_lt_Some & _). lia.
Qed.

End js_arrays.

(** ** Tactics *)

(** Rewrite with the equations of the monad until none applies. *)
Ltac eff_simpl := repeat (progress (autorewrite with eff; cbn beta iota)).
