(* ===== verification/Hoare.v ===== *)
(** * Hoare: what a computation guarantees in every state

    The lemmas [*_run] of [App] say what a handler does in the states in
    which it returns.  This file is for the statements that hold in every
    state, whether the handler returns or throws: that a property of the
    state survives it, and that it throws nothing but the exceptions of a
    given set.

    [wp c Q R s] is the weakest precondition of [c]: run from [s], the
    computation returns a value and a state that satisfy [Q], or throws an
    exception in a state that satisfy [R].  It is defined by running [c],
    so on a concrete state it is decided by computation.

    [upholds I X c] is the judgement the handlers are checked against: from
    a state in [I], the computation [c] ends in [I], by a return or by a
    throw, and what it throws is in [X].  The rules follow the syntax of the
    computation, one per operation of the monad; [upholds_go] applies
    them.

    [respects R c] compares two runs of [c]: from states related by [R]
    they end in states related by [R], with the same value or the same
    exception.  It says that [c] does not read what [R] ignores.  It has
    one rule per operation too, and [respects_go] applies them. *)

From S2P Require Import Prelude.

Section wp.
Context {S E : Type}.

Definition wp {A} (c : Eff S E A) (Q : A → S → Prop) (R : E → S → Prop) : S → Prop :=
  λ s, match c s with
       | (s', Done a) => Q a s'
       | (s', Thrown e) => R e s'
       end.

Definition upholds {A} (I : S → Prop) (X : E → Prop) (c : Eff S E A) : Prop :=
  ∀ s, I s → wp c (λ _, I) (λ e s', I s' ∧ X e) s.

Definition respects {A} (R : relation S) (c : Eff S E A) : Prop :=
  ∀ s1 s2, R s1 s2 → R (c s1).1 (c s2).1 ∧ (c s1).2 = (c s2).2.

#[export] Instance wp_dec {A} (c : Eff S E A) Q R s :
  (∀ a s', Decision (Q a s')) → (∀ e s', Decision (R e s')) →
  Decision (wp c Q R s).
Proof. intros ??. unfold wp. destruct (c s) as [s' [a|e]]; apply _. Defined.

Implicit Types (s : S) (I J : S → Prop) (X : E → Prop).

(** ** Weakest preconditions of the operations *)

Lemma wp_ret {A} (a : A) Q R s : wp (ret a) Q R s ↔ Q a s.
Proof. done. Qed.

Lemma wp_throw {A} e (Q : A → S → Prop) R s : wp (throw e) Q R s ↔ R e s.
Proof. done. Qed.

Lemma wp_gets {A} (f : S → A) Q R s : wp (gets f) Q R s ↔ Q (f s) s.
Proof. done. Qed.

Lemma wp_modify (f : S → S) Q R s : wp (modify f) Q R s ↔ Q tt (f s).
Proof. done. Qed.

Lemma wp_unwrap {A} e (o : option A) Q R s :
  wp (unwrap e o) Q R s ↔ match o with Some a => Q a s | None => R e s end.
Proof. by destruct o. Qed.

Lemma wp_bind {A B} (c : Eff S E A) (k : A → Eff S E B) Q R s :
  wp (x <- c ;; k x) Q R s ↔ wp c (λ a, wp (k a) Q R) R s.
Proof. unfold wp, bind. by destruct (c s) as [s' [a|e]]. Qed.

Lemma wp_mono {A} (c : Eff S E A) (Q Q' : A → S → Prop) (R R' : E → S → Prop) s :
  (∀ a s', Q a s' → Q' a s') → (∀ e s', R e s' → R' e s') →
  wp c Q R s → wp c Q' R' s.
Proof. unfold wp. destruct (c s) as [s' [a|e]]; auto. Qed.

Lemma wp_and {A} (c : Eff S E A) (Q1 Q2 : A → S → Prop) (R1 R2 : E → S → Prop) s :
  wp c Q1 R1 s → wp c Q2 R2 s →
  wp c (λ a s', Q1 a s' ∧ Q2 a s') (λ e s', R1 e s' ∧ R2 e s') s.
Proof. unfold wp. by destruct (c s) as [s' [a|e]]. Qed.

(** What a weakest precondition says of a run that is known. *)
Lemma wp_returns {A} (c : Eff S E A) Q R s a s' :
  returns c s a s' → wp c Q R s ↔ Q a s'.
Proof. unfold returns, wp. by intros ->. Qed.

Lemma wp_throws {A} (c : Eff S E A) Q R s e s' :
  throws c s e s' → wp c Q R s ↔ R e s'.
Proof. unfold throws, wp. by intros ->. Qed.

(** ... and of the state a run ends in. *)
Lemma wp_exec {A} (c : Eff S E A) (Q : S → Prop) s :
  wp c (λ _, Q) (λ _, Q) s ↔ Q (exec c s).
Proof. unfold wp, exec. by destruct (c s) as [s' [a|e]]. Qed.

#[export] Instance wp_proper {A} :
  Proper (eff_equiv ==> eq ==> eq ==> eq ==> iff) (@wp A).
Proof. intros c d Hcd Q ? <- R ? <- s ? <-. unfold wp. by rewrite Hcd. Qed.

(** ** The rules of [upholds] *)

Lemma upholds_ret {A} I X (a : A) : upholds I X (ret a).
Proof. by intros s HI. Qed.

Lemma upholds_gets {A} I X (f : S → A) : upholds I X (gets f).
Proof. by intros s HI. Qed.

Lemma upholds_throw {A} I X e : X e → upholds (A:=A) I X (throw e).
Proof. by intros HX s HI. Qed.

Lemma upholds_unwrap {A} I X e (o : option A) : X e → upholds I X (unwrap e o).
Proof. intros HX s HI. by destruct o. Qed.

Lemma upholds_modify I X (f : S → S) : (∀ s, I s → I (f s)) → upholds I X (modify f).
Proof. intros Hf s HI. by apply Hf. Qed.

Lemma upholds_bind {A B} I X (c : Eff S E A) (k : A → Eff S E B) :
  upholds I X c → (∀ a, upholds I X (k a)) → upholds I X (x <- c ;; k x).
Proof.
  intros Hc Hk s HI. apply wp_bind. eapply wp_mono; [| |by apply Hc]; [|done].
  intros a s' HI'. by apply Hk.
Qed.

Lemma upholds_forEach {A} I X (l : list A) (f : A → Eff S E unit) :
  (∀ x, x ∈ l → upholds I X (f x)) → upholds I X (forEach l f).
Proof.
  induction l as [|x l IH]; intros Hf; [apply upholds_ret|].
  apply upholds_bind; [apply Hf; left|intros _; apply IH].
  intros y Hy. apply Hf. by right.
Qed.

Lemma upholds_mono {A} I X X' (c : Eff S E A) :
  (∀ e, X e → X' e) → upholds I X c → upholds I X' c.
Proof.
  intros HX Hc s HI. eapply wp_mono; [| |by apply Hc]; [done|].
  intros e s' [??]. auto.
Qed.

Lemma upholds_and {A} I J X (c : Eff S E A) :
  upholds I X c → upholds J X c → upholds (λ s, I s ∧ J s) X c.
Proof.
  intros HcI HcJ s [HI HJ].
  eapply wp_mono; [| |exact (wp_and _ _ _ _ _ _ (HcI s HI) (HcJ s HJ))]; [done|].
  by intros e s' [[??] [??]].
Qed.

#[export] Instance upholds_proper {A} I X : Proper (eff_equiv ==> iff) (@upholds A I X).
Proof.
  intros c d Hcd. unfold upholds.
  split; intros Hc s HI; [rewrite <-Hcd | rewrite Hcd]; by apply Hc.
Qed.

(** Two writes in a row are one write: [I] may fail between them. *)
Lemma upholds_fuse {B} I X (f g : S → S) (k : unit → Eff S E B) :
  upholds I X (bind (modify (g ∘ f)) k) →
  upholds I X (bind (modify f) (λ _, bind (modify g) k)).
Proof. intros Hk s HI. exact (Hk s HI). Qed.

Lemma upholds_fuse_last I X (f g : S → S) :
  upholds I X (modify (g ∘ f)) → upholds I X (modify f ;; modify g).
Proof. intros Hk s HI. exact (Hk s HI). Qed.

(** The state and the exception a computation that upholds [I] ends
    with. *)
Lemma upholds_exec {A} I X (c : Eff S E A) s : upholds I X c → I s → I (exec c s).
Proof.
  intros Hc HI. apply wp_exec. eapply wp_mono; [| |by apply Hc]; [done|].
  by intros e s' [??].
Qed.

Lemma upholds_thrown {A} I X (c : Eff S E A) s s' e :
  upholds I X c → I s → c s = (s', Thrown e) → X e.
Proof.
  intros Hc HI Hrun. specialize (Hc s HI). unfold wp in Hc. rewrite Hrun in Hc.
  by destruct Hc.
Qed.

End wp.

(** ** Two runs of one computation *)

Section respects.
Context {S E : Type} (R : relation S).

(** [respects] is [Proper] for the relation on states and equality on
    outcomes. *)
Lemma respects_proper {A} (c : Eff S E A) :
  respects R c ↔ Proper (R ==> prod_relation R (=)) c.
Proof. done. Qed.

Lemma respects_ret {A} (a : A) : respects R (ret (E:=E) a).
Proof. by intros s1 s2 HR. Qed.

Lemma respects_throw {A} (e : E) : respects R (throw (A:=A) e).
Proof. by intros s1 s2 HR. Qed.

Lemma respects_unwrap {A} (e : E) (o : option A) : respects R (unwrap e o).
Proof. intros s1 s2 HR. by destruct o. Qed.

Lemma respects_gets {A} (f : S → A) :
  (∀ s1 s2, R s1 s2 → f s1 = f s2) → respects R (gets (E:=E) f).
Proof. intros Hf s1 s2 HR. simpl. by rewrite (Hf s1 s2). Qed.

Lemma respects_modify (f : S → S) :
  (∀ s1 s2, R s1 s2 → R (f s1) (f s2)) → respects R (modify (E:=E) f).
Proof. intros Hf s1 s2 HR. split; [by apply Hf | done]. Qed.

Lemma respects_bind {A B} (c : Eff S E A) (k : A → Eff S E B) :
  respects R c → (∀ a, respects R (k a)) → respects R (x <- c ;; k x).
Proof.
  intros Hc Hk s1 s2 HR. unfold bind. destruct (Hc s1 s2 HR) as [HR' Hout].
  destruct (c s1) as [s1' [a1|e1]], (c s2) as [s2' [a2|e2]]; simplify_eq/=;
    [by apply Hk | done].
Qed.

Lemma respects_forEach {A} (l : list A) (f : A → Eff S E unit) :
  (∀ x, respects R (f x)) → respects R (forEach l f).
Proof.
  intros Hf. induction l as [|x l IH]; [apply respects_ret|].
  by apply respects_bind.
Qed.

End respects.

(** ** A computation on a part of the state *)

Lemma wp_zoom {S T E A} (get : S → T) (set : T → S → S) (c : Eff T E A) Q R s :
  wp (zoom get set c) Q R s
  ↔ wp c (λ a t, Q a (set t s)) (λ e t, R e (set t s)) (get s).
Proof. unfold wp, zoom. by destruct (c (get s)) as [t [a|e]]. Qed.

(** [c] upholds [J] on the part, and [I] holds of the whole whenever [J]
    holds of the part it was given. *)
Lemma upholds_zoom {S T E A} (get : S → T) (set : T → S → S) (c : Eff T E A)
    (I : S → Prop) (J : T → Prop) (X : E → Prop) :
  upholds J X c → (∀ s, I s → J (get s)) → (∀ s t, I s → J t → I (set t s)) →
  upholds I X (zoom get set c).
Proof.
  intros Hc Hget Hset s HI. apply wp_zoom.
  eapply wp_mono; [| |by apply Hc, Hget]; [by auto|].
  intros e t [??]. auto.
Qed.

(** A computation on a part both states have in common respects a
    relation the setter keeps. *)
Lemma respects_zoom {S T E A} (R : relation S) (get : S → T) (set : T → S → S)
    (c : Eff T E A) :
  (∀ s1 s2, R s1 s2 → get s1 = get s2) →
  (∀ t s1 s2, R s1 s2 → R (set t s1) (set t s2)) →
  respects R (zoom get set c).
Proof.
  intros Hget Hset s1 s2 HR. unfold zoom. rewrite (Hget s1 s2 HR).
  destruct (c (get s2)) as [t r]. split; [by apply Hset | done].
Qed.

(** ** Automation *)

(** The rules, applied along the syntax of the computation.  [side] proves
    what a rule leaves: that a write keeps the property, that an exception
    is in the set. *)
Ltac upholds_step side :=
  lazymatch goal with
  | |- upholds _ _ (bind (modify _) (λ _, bind (modify _) _)) =>
      first [ apply upholds_bind; [apply upholds_modify; solve [side]|intros ?]
            | apply upholds_fuse ]
  | |- upholds _ _ (bind (modify _) (λ _, modify _)) =>
      first [ apply upholds_bind; [apply upholds_modify; solve [side]|intros ?]
            | apply upholds_fuse_last ]
  | |- upholds _ _ (bind _ _) => apply upholds_bind; [|intros ?]
  | |- upholds _ _ (ret _) => apply upholds_ret
  | |- upholds _ _ (gets _) => apply upholds_gets
  | |- upholds _ _ (throw _) => apply upholds_throw; solve [side]
  | |- upholds _ _ (unwrap _ _) => apply upholds_unwrap; solve [side]
  | |- upholds _ _ (modify _) => apply upholds_modify; solve [side]
  | |- upholds _ _ (forEach _ _) => apply upholds_forEach; intros ? _
  | |- upholds _ _ (if ?b then _ else _) => destruct b
  | |- upholds _ _ (match ?x with _ => _ end) => destruct x
  end.

Ltac upholds_go side := repeat upholds_step side.

(** The same for [respects]: [side] proves that a read ignores what the
    relation ignores and that a write keeps the relation. *)
Ltac respects_step side :=
  lazymatch goal with
  | |- respects _ (bind _ _) => apply respects_bind; [|intros ?]
  | |- respects _ (ret _) => apply respects_ret
  | |- respects _ (throw _) => apply respects_throw
  | |- respects _ (unwrap _ _) => apply respects_unwrap
  | |- respects _ (gets _) => apply respects_gets; solve [side]
  | |- respects _ (modify _) => apply respects_modify; solve [side]
  | |- respects _ (zoom _ _ _) => apply respects_zoom; solve [side]
  | |- respects _ (forEach _ _) => apply respects_forEach; intros ?
  | |- respects _ (if ?b then _ else _) => destruct b
  | |- respects _ (match ?x with _ => _ end) => destruct x
  end.

Ltac respects_go side := repeat respects_step side.
