(* ===== verification/Memo.v ===== *)
(** * Memo: the memo record and the repository operations

    The record [Memo] (types.ts, imported at index.ts:2) and the operations
    index.ts performs on the array [memos]: building a memo ([newMemo],
    lines 44-53), finding the index of an identifier (line 198), removing
    the memos of an identifier (line 252) and overwriting the title, body
    and save time of a memo (lines 222-225).

    The lemmas say what these operations do when identifiers are distinct
    (one memo found, one memo removed) and what they do when they are not
    (the first one found, all of them removed). *)

From S2P Require Import Prelude.

(** The field is spelled [updateAt] in the code. *)
Record Memo : Type := {
  id : string;
  title : string;
  body : string;
  createdAt : Z;
  updateAt : Z;
}.

#[export] Instance Memo_eq_dec : EqDecision Memo.
Proof. solve_decision. Defined.

(** [n.toString()] for a number that holds an integer: its decimal
    digits.  JavaScript prints these for an integer below 10^21 and an
    exponent from there on; the numbers the program prints are times and
    sizes of arrays. *)
Definition toString (n : Z) : string := pretty n.

(** [newMemo()], given the value [Date.now()] returns and the array. *)
Definition newMemo (timestamp : Z) (memos : list Memo) : Memo :=
  {| id := toString timestamp +:+ toString (js_length memos);
     title := "new memo " +:+ toString (js_length memos + 1);
     body := "";
     createdAt := timestamp;
     updateAt := timestamp |}.

(** The identifiers of an array of memos, in order. *)
Definition ids (memos : list Memo) : list string := id <$> memos.

(** [memos.findIndex((memo) => memo.id === id)], where [id] is what
    [getAttribute] returned: a string or [null].  No string is strictly
    equal to [null]. *)
Definition findIndexById (i : option string) (memos : list Memo) : Z :=
  js_findIndex (λ memo, bool_decide (Some (id memo) = i)) memos.

(** [memos.filter((memo) => memo.id !== memoId)]. *)
Definition removeById (memoId : string) (memos : list Memo) : list Memo :=
  filter (λ memo, id memo ≠ memoId) memos.

(** The three assignments [memo.title = ...; memo.body = ...;
    memo.updateAt = Date.now()]. *)
Definition updateMemo (t b : string) (now : Z) (memo : Memo) : Memo :=
  {| id := id memo;
     title := t;
     body := b;
     createdAt := createdAt memo;
     updateAt := now |}.

(** ** Finding by identifier *)

Section repository.
Implicit Types (memos : list Memo) (memo : Memo) (k : nat) (i : string).

Lemma ids_lookup memos k memo :
  memos !! k = Some memo → ids memos !! k = Some (id memo).
Proof. intros H. unfold ids. by rewrite list_lookup_fmap, H. Qed.

Lemma ids_length memos : length (ids memos) = length memos.
Proof. apply length_fmap. Qed.

Lemma ids_app memos1 memos2 : ids (memos1 ++ memos2) = ids memos1 ++ ids memos2.
Proof. apply fmap_app. Qed.

(** Two memos of an array without repeated identifiers that share an
    identifier sit at the same index. *)
Lemma NoDup_ids_lookup_eq memos k1 k2 memo1 memo2 :
  NoDup (ids memos) →
  memos !! k1 = Some memo1 → memos !! k2 = Some memo2 →
  id memo1 = id memo2 → k1 = k2.
Proof.
  intros Hnd H1 H2 Heq.
  eapply NoDup_lookup; [done | by apply ids_lookup |].
  rewrite Heq. by apply ids_lookup.
Qed.

(** [findIndex] returns the first index that holds the identifier. *)
Lemma findIndexById_first memos k memo :
  memos !! k = Some memo →
  (∀ j memo', memos !! j = Some memo' → j < k → id memo' ≠ id memo) →
  findIndexById (Some (id memo)) memos = Z.of_nat k.
Proof.
  intros Hk Hfirst. apply js_findIndex_Some with memo; [done | |].
  - by apply bool_decide_eq_true.
  - intros j memo' Hj Hlt. apply bool_decide_eq_false. intros [= Heq]. naive_solver.
Qed.

Lemma findIndexById_NoDup memos k memo :
  NoDup (ids memos) → memos !! k = Some memo →
  findIndexById (Some (id memo)) memos = Z.of_nat k.
Proof.
  intros Hnd Hk. apply findIndexById_first; [done|].
  intros j memo' Hj Hlt Heq.
  pose proof (NoDup_ids_lookup_eq _ _ _ _ _ Hnd Hj Hk Heq). lia.
Qed.

Lemma findIndexById_absent memos i :
  i ∉ ids memos → findIndexById (Some i) memos = (-1)%Z.
Proof.
  intros Hi. apply js_findIndex_None. intros memo Hm.
  apply bool_decide_eq_false. intros [= <-]. apply Hi.
  unfold ids. by apply list_elem_of_fmap_2.
Qed.

Lemma findIndexById_null memos : findIndexById None memos = (-1)%Z.
Proof. apply js_findIndex_None. intros memo _. by apply bool_decide_eq_false. Qed.

(** What [getAttribute] returned is no identifier of the array. *)
Lemma findIndexById_unknown (o : option string) memos :
  (∀ i, o = Some i → i ∉ ids memos) → findIndexById o memos = (-1)%Z.
Proof.
  destruct o as [i|]; [|intros _; apply findIndexById_null].
  intros Hi. apply findIndexById_absent. by apply Hi.
Qed.

Lemma findIndexById_range (i : option string) memos :
  (-1 ≤ findIndexById i memos < js_length memos)%Z.
Proof. apply js_findIndex_range. Qed.

(** ** Removing by identifier *)

Lemma removeById_absent memos i :
  i ∉ ids memos → removeById i memos = memos.
Proof.
  intros Hi. apply filter_all. intros memo Hm <-. apply Hi.
  unfold ids. by apply list_elem_of_fmap_2.
Qed.

(** With distinct identifiers, the filter deletes the one memo at the
    index of the identifier. *)
Lemma removeById_NoDup memos k memo :
  NoDup (ids memos) → memos !! k = Some memo →
  removeById (id memo) memos = delete k memos.
Proof.
  unfold removeById, ids. revert k.
  induction memos as [|m memos IH]; intros k Hnd Hk; [done|].
  rewrite fmap_cons in Hnd. apply NoDup_cons in Hnd as [Hm Hnd].
  destruct k as [|k]; simplify_eq/=.
  - rewrite filter_cons_False by naive_solver.
    by apply removeById_absent.
  - rewrite filter_cons_True; [by rewrite (IH k)|].
    intros Heq. apply Hm. rewrite Heq.
    apply list_elem_of_fmap_2, list_elem_of_lookup. eauto.
Qed.

Lemma removeById_length_NoDup memos k memo :
  NoDup (ids memos) → memos !! k = Some memo →
  length (removeById (id memo) memos) = length memos - 1.
Proof.
  intros Hnd Hk. rewrite (removeById_NoDup _ k) by done.
  rewrite length_delete; [lia | eauto].
Qed.

(** After deleting one of at least two memos there is a memo at the index
    the program steps back to. *)
Lemma delete_lookup_pred memos k :
  2 ≤ length memos → k < length memos → is_Some (delete k memos !! (k - 1)).
Proof.
  intros Hlen Hk. apply lookup_lt_is_Some. rewrite length_delete; [lia|].
  by apply lookup_lt_is_Some.
Qed.

Lemma removeById_ids memos i :
  ids (removeById i memos) = filter (λ j, j ≠ i) (ids memos).
Proof.
  unfold removeById, ids. induction memos as [|m memos IH]; [done|].
  rewrite fmap_cons. destruct (decide (id m = i)) as [Heq|Hne].
  - rewrite !filter_cons_False by naive_solver. done.
  - rewrite !filter_cons_True by done. by rewrite fmap_cons, IH.
Qed.

Lemma removeById_NoDup_ids memos i :
  NoDup (ids memos) → NoDup (ids (removeById i memos)).
Proof. rewrite removeById_ids. apply NoDup_filter. Qed.

Lemma removeById_not_elem memos i : i ∉ ids (removeById i memos).
Proof. rewrite removeById_ids, list_elem_of_filter. by intros [Hne _]. Qed.

(** ** Updating *)

Lemma updateMemo_id t b now memo : id (updateMemo t b now memo) = id memo.
Proof. done. Qed.

Lemma ids_insert_updateMemo memos k memo t b now :
  memos !! k = Some memo →
  ids (<[k := updateMemo t b now memo]> memos) = ids memos.
Proof.
  intros Hk. unfold ids. rewrite list_fmap_insert. simpl.
  apply list_insert_id. by rewrite list_lookup_fmap, Hk.
Qed.

(** ** New memos *)

Lemma newMemo_title_2 timestamp memos :
  length memos = 2 → title (newMemo timestamp memos) = "new memo 3".
Proof. unfold newMemo, js_length. intros ->. done. Qed.

Lemma ids_snoc_NoDup memos memo :
  NoDup (ids memos) → id memo ∉ ids memos → NoDup (ids (memos ++ [memo])).
Proof.
  intros Hnd Hfresh. rewrite ids_app. apply NoDup_app. split_and!; [done | | ].
  - intros i Hi. simpl. rewrite list_elem_of_singleton. by intros ->.
  - apply NoDup_singleton.
Qed.

(** The identifier determines the timestamp and the length when the two
    timestamps print with the same number of digits, and when the two
    lengths do. *)
Lemma newMemo_id_inj_prefix t1 t2 memos1 memos2 :
  String.length (toString t1) = String.length (toString t2) →
  id (newMemo t1 memos1) = id (newMemo t2 memos2) →
  t1 = t2 ∧ length memos1 = length memos2.
Proof.
  intros Hlen Heq. simpl in Heq.
  apply string_app_inj_prefix in Heq as [Ht Hn]; [|done].
  apply (inj pretty) in Ht, Hn. unfold js_length in Hn. split; [done | lia].
Qed.

Lemma newMemo_id_inj_suffix t1 t2 memos1 memos2 :
  String.length (toString (js_length memos1))
  = String.length (toString (js_length memos2)) →
  id (newMemo t1 memos1) = id (newMemo t2 memos2) →
  t1 = t2 ∧ length memos1 = length memos2.
Proof.
  intros Hlen Heq. simpl in Heq.
  apply string_app_inj_suffix in Heq as [Ht Hn]; [|done].
  apply (inj pretty) in Ht, Hn. unfold js_length in Hn. split; [done | lia].
Qed.

(** The two memos [init] creates have distinct identifiers, whatever the
    clock says. *)
Lemma bootstrap_ids_NoDup t1 t2 :
  NoDup (ids ([newMemo t1 []] ++ [newMemo t2 [newMemo t1 []]])).
Proof.
  apply (ids_snoc_NoDup [_]); [apply NoDup_singleton|].
  intros Hin%list_elem_of_singleton.
  by apply newMemo_id_inj_suffix in Hin as [_ ?].
Qed.

End repository.
