(* ===== verification/Dom.v ===== *)
(** * Dom: the page and the functions of index.ts that only touch it

    The elements index.ts looks up at lines 9-18 and the six functions
    that read and write nothing but the DOM: [newMemoElement] (80-91),
    [clearMemoElements] (94-96), [showMemoElements] (99-108),
    [setActiveStyle] (111-119), [setHiddenButton] (138-144) and
    [setEditMode] (147-161).

    An element is a record of the properties the program uses.  The
    element a function receives as an argument is a reference into the
    page, here a name of type [ElemRef]: writing through it changes the
    page.  The children of [#list] are a list of elements; the selector
    [#list > div:nth-child(n)] is a lookup at position [n - 1], [null]
    when there is no such child.

    [labels] is the list of title labels the program is meant to show for
    an array of memos and an index; the lemmas of the file relate the
    functions to it. *)

From S2P Require Import Prelude Memo.

(** ** Elements *)

Record Element : Type := {
  attributes : gmap string string;
  classList : list string;
  innerText : string;
  value : string;
  innerHTML : string;
}.

#[export] Instance Element_eq_dec : EqDecision Element.
Proof. solve_decision. Defined.

(** [document.createElement("div")]. *)
Definition createElement : Element :=
  {| attributes := ∅; classList := []; innerText := ""; value := "";
     innerHTML := "" |}.

Definition setAttribute (name v : string) (e : Element) : Element :=
  {| attributes := <[name := v]> (attributes e); classList := classList e;
     innerText := innerText e; value := value e; innerHTML := innerHTML e |}.

Definition removeAttribute (name : string) (e : Element) : Element :=
  {| attributes := delete name (attributes e); classList := classList e;
     innerText := innerText e; value := value e; innerHTML := innerHTML e |}.

Definition getAttribute (name : string) (e : Element) : option string :=
  attributes e !! name.

Definition hasAttribute (name : string) (e : Element) : bool :=
  bool_decide (is_Some (attributes e !! name)).

(** [e.classList.add(c)]: a class list holds a token once. *)
Definition classList_add (c : string) (e : Element) : Element :=
  {| attributes := attributes e;
     classList := if decide (c ∈ classList e) then classList e
                  else classList e ++ [c];
     innerText := innerText e; value := value e; innerHTML := innerHTML e |}.

Definition classList_remove (c : string) (e : Element) : Element :=
  {| attributes := attributes e;
     classList := filter (λ d, d ≠ c) (classList e);
     innerText := innerText e; value := value e; innerHTML := innerHTML e |}.

Definition set_innerText (t : string) (e : Element) : Element :=
  {| attributes := attributes e; classList := classList e;
     innerText := t; value := value e; innerHTML := innerHTML e |}.

Definition set_value (v : string) (e : Element) : Element :=
  {| attributes := attributes e; classList := classList e;
     innerText := innerText e; value := v; innerHTML := innerHTML e |}.

Definition set_innerHTML (h : string) (e : Element) : Element :=
  {| attributes := attributes e; classList := classList e;
     innerText := innerText e; value := value e; innerHTML := h |}.

(** ** The page *)

(** [memoList] holds the children of [#list].  [#add] and [#delete] are
    looked up by the program but never written: they have no field. *)
Record Page : Type := {
  memoList : list Element;
  editButton : Element;
  saveButton : Element;
  memoTitle : Element;
  memoBody : Element;
  previewBody : Element;
  downloadLink : Element;
}.

#[export] Instance Page_eq_dec : EqDecision Page.
Proof. solve_decision. Defined.

(** The elements a function can be handed. *)
Inductive ElemRef : Type :=
| EditButton | SaveButton | MemoTitle | MemoBody | PreviewBody | DownloadLink.

#[export] Instance ElemRef_eq_dec : EqDecision ElemRef.
Proof. solve_decision. Defined.

Definition get_elem (r : ElemRef) (p : Page) : Element :=
  match r with
  | EditButton => editButton p
  | SaveButton => saveButton p
  | MemoTitle => memoTitle p
  | MemoBody => memoBody p
  | PreviewBody => previewBody p
  | DownloadLink => downloadLink p
  end.

Definition set_elem (r : ElemRef) (e : Element) (p : Page) : Page :=
  match r with
  | EditButton =>
      {| memoList := memoList p; editButton := e; saveButton := saveButton p;
         memoTitle := memoTitle p; memoBody := memoBody p;
         previewBody := previewBody p; downloadLink := downloadLink p |}
  | SaveButton =>
      {| memoList := memoList p; editButton := editButton p; saveButton := e;
         memoTitle := memoTitle p; memoBody := memoBody p;
         previewBody := previewBody p; downloadLink := downloadLink p |}
  | MemoTitle =>
      {| memoList := memoList p; editButton := editButton p;
         saveButton := saveButton p; memoTitle := e; memoBody := memoBody p;
         previewBody := previewBody p; downloadLink := downloadLink p |}
  | MemoBody =>
      {| memoList := memoList p; editButton := editButton p;
         saveButton := saveButton p; memoTitle := memoTitle p; memoBody := e;
         previewBody := previewBody p; downloadLink := downloadLink p |}
  | PreviewBody =>
      {| memoList := memoList p; editButton := editButton p;
         saveButton := saveButton p; memoTitle := memoTitle p;
         memoBody := memoBody p; previewBody := e;
         downloadLink := downloadLink p |}
  | DownloadLink =>
      {| memoList := memoList p; editButton := editButton p;
         saveButton := saveButton p; memoTitle := memoTitle p;
         memoBody := memoBody p; previewBody := previewBody p;
         downloadLink := e |}
  end.

Definition set_memoList (f : list Element → list Element) (p : Page) : Page :=
  {| memoList := f (memoList p);
     editButton := editButton p; saveButton := saveButton p;
     memoTitle := memoTitle p; memoBody := memoBody p;
     previewBody := previewBody p; downloadLink := downloadLink p |}.

(** Write through a reference. *)
Definition update_elem (r : ElemRef) (f : Element → Element) : Eff Page Exn unit :=
  modify (λ p, set_elem r (f (get_elem r p)) p).

(** [document.querySelector(`#list > div:nth-child(${index})`)]. *)
Definition querySelector_nth_child (index : Z) (p : Page) : option Element :=
  if decide (1 ≤ index)%Z then memoList p !! Z.to_nat (index - 1) else None.

(** ** The functions of index.ts *)

(** The listener the code attaches to the label is accounted for in
    [Machine]: a click on a label runs [selectedMemo] with that label as
    the event's target. *)
Definition newMemoElement (memo : Memo) : Element :=
  let div := createElement in
  let div := set_innerText (title memo) div in
  let div := setAttribute "data-id" (id memo) div in
  classList_add "p-sm" (classList_add "w-full" div).

(** [div.innerText = ""] on the container removes its children. *)
Definition clearMemoElements : Eff Page Exn unit :=
  modify (set_memoList (λ _, [])).

Definition showMemoElements (memos : list Memo) : Eff Page Exn unit :=
  clearMemoElements ;;
  forEach memos (λ memo,
    let memoElement := newMemoElement memo in
    modify (set_memoList (λ children, children ++ [memoElement]))).

Definition setActiveStyle (index : Z) (isActive : bool) : Eff Page Exn unit :=
  element <- gets (querySelector_nth_child index) ;;
  match element with
  | None => throw (TypeError "Cannot read properties of null (reading 'classList')")
  | Some e =>
      if isActive
      then modify (set_memoList <[Z.to_nat (index - 1) := classList_add "active" e]>)
      else modify (set_memoList <[Z.to_nat (index - 1) := classList_remove "active" e]>)
  end.

(** As in the code, [isHidden = true] removes the attribute [hidden]: it
    shows the button. *)
Definition setHiddenButton (button : ElemRef) (isHidden : bool) : Eff Page Exn unit :=
  if isHidden
  then update_elem button (removeAttribute "hidden")
  else update_elem button (setAttribute "hidden" "hidden").

Definition setEditMode (editMode : bool) : Eff Page Exn unit :=
  if editMode then
    update_elem MemoTitle (removeAttribute "disabled") ;;
    update_elem MemoBody (removeAttribute "disabled") ;;
    update_elem MemoBody (removeAttribute "hidden") ;;
    update_elem PreviewBody (setAttribute "hidden" "hidden")
  else
    update_elem MemoTitle (setAttribute "disabled" "disabled") ;;
    update_elem MemoBody (setAttribute "disabled" "disabled") ;;
    update_elem MemoBody (setAttribute "hidden" "hidden") ;;
    update_elem PreviewBody (removeAttribute "hidden").

(** ** What the page is meant to show *)

(** The label of a memo, marked or not. *)
Definition label (active : bool) (memo : Memo) : Element :=
  if active then classList_add "active" (newMemoElement memo)
  else newMemoElement memo.

(** The labels of an array of memos when the memo at [index] is the
    selected one; an [index] outside the array marks none. *)
Definition labels (memos : list Memo) (index : Z) : list Element :=
  imap (λ k memo, label (bool_decide (Z.of_nat k = index)) memo) memos.

Definition is_active (e : Element) : bool := bool_decide ("active" ∈ classList e).

(** The mode as the page shows it. *)
Inductive Mode : Type := Viewing | Editing.

#[export] Instance Mode_eq_dec : EqDecision Mode.
Proof. solve_decision. Defined.

(** The six attributes [setEditMode] and the two calls of
    [setHiddenButton] that follow it in every handler leave behind. *)
Definition shows (m : Mode) (p : Page) : Prop :=
  let edit := bool_decide (m = Editing) in
  hasAttribute "disabled" (memoTitle p) = negb edit ∧
  hasAttribute "disabled" (memoBody p) = negb edit ∧
  hasAttribute "hidden" (memoBody p) = negb edit ∧
  hasAttribute "hidden" (previewBody p) = edit ∧
  hasAttribute "hidden" (saveButton p) = negb edit ∧
  hasAttribute "hidden" (editButton p) = edit.

#[export] Instance shows_dec m p : Decision (shows m p).
Proof. unfold shows. apply _. Defined.

(** The page after [setEditMode]. *)
Definition page_setEditMode (editMode : bool) (p : Page) : Page :=
  {| memoList := memoList p;
     editButton := editButton p;
     saveButton := saveButton p;
     memoTitle :=
       (if editMode then removeAttribute "disabled"
        else setAttribute "disabled" "disabled") (memoTitle p);
     memoBody :=
       if editMode
       then removeAttribute "hidden" (removeAttribute "disabled" (memoBody p))
       else setAttribute "hidden" "hidden" (setAttribute "disabled" "disabled" (memoBody p));
     previewBody :=
       (if editMode then setAttribute "hidden" "hidden"
        else removeAttribute "hidden") (previewBody p);
     downloadLink := downloadLink p |}.

(** The page after [setEditMode(b)], [setHiddenButton(saveButton, b)] and
    [setHiddenButton(editButton, !b)], the sequence every handler that
    changes the mode runs. *)
Definition page_setMode (editMode : bool) (p : Page) : Page :=
  {| memoList := memoList p;
     editButton :=
       (if editMode then setAttribute "hidden" "hidden"
        else removeAttribute "hidden") (editButton p);
     saveButton :=
       (if editMode then removeAttribute "hidden"
        else setAttribute "hidden" "hidden") (saveButton p);
     memoTitle := memoTitle (page_setEditMode editMode p);
     memoBody := memoBody (page_setEditMode editMode p);
     previewBody := previewBody (page_setEditMode editMode p);
     downloadLink := downloadLink p |}.

(** ** Attributes and classes *)

Section elements.
Implicit Types (e : Element) (c name : string).

Lemma hasAttribute_setAttribute name v e :
  hasAttribute name (setAttribute name v e) = true.
Proof.
  unfold hasAttribute, setAttribute. simpl.
  apply bool_decide_eq_true. rewrite lookup_insert_eq. eauto.
Qed.

Lemma hasAttribute_setAttribute_ne name name' v e :
  name ≠ name' → hasAttribute name' (setAttribute name v e) = hasAttribute name' e.
Proof.
  intros Hne. unfold hasAttribute, setAttribute. simpl.
  by rewrite lookup_insert_ne.
Qed.

Lemma hasAttribute_removeAttribute name e :
  hasAttribute name (removeAttribute name e) = false.
Proof.
  unfold hasAttribute, removeAttribute. simpl.
  apply bool_decide_eq_false. rewrite lookup_delete_eq. by intros [].
Qed.

Lemma hasAttribute_removeAttribute_ne name name' e :
  name ≠ name' → hasAttribute name' (removeAttribute name e) = hasAttribute name' e.
Proof.
  intros Hne. unfold hasAttribute, removeAttribute. simpl.
  by rewrite lookup_delete_ne.
Qed.

Lemma getAttribute_setAttribute name v e :
  getAttribute name (setAttribute name v e) = Some v.
Proof. unfold getAttribute, setAttribute. simpl. apply lookup_insert_eq. Qed.

Lemma is_active_add e : is_active (classList_add "active" e) = true.
Proof.
  unfold is_active, classList_add. simpl. apply bool_decide_eq_true.
  case_decide; [done|]. apply elem_of_app. right. by apply list_elem_of_singleton.
Qed.

Lemma is_active_remove e : is_active (classList_remove "active" e) = false.
Proof.
  unfold is_active, classList_remove. simpl. apply bool_decide_eq_false.
  rewrite list_elem_of_filter. by intros [? _].
Qed.

Lemma classList_add_idemp c e : classList_add c (classList_add c e) = classList_add c e.
Proof.
  unfold classList_add. simpl. f_equal.
  destruct (decide (c ∈ classList e)) as [Hin|Hnin].
  - by rewrite decide_True.
  - rewrite decide_True; [done|]. apply elem_of_app. right.
    by apply list_elem_of_singleton.
Qed.

Lemma classList_remove_add c e :
  c ∉ classList e → classList_remove c (classList_add c e) = e.
Proof.
  intros Hnin. destruct e as [a cl t v h]. unfold classList_remove, classList_add.
  simpl in *. f_equal. rewrite decide_False by done.
  rewrite filter_app, filter_cons_False, filter_nil, app_nil_r by naive_solver.
  by apply filter_ne_absent.
Qed.

Lemma classList_remove_absent c e :
  c ∉ classList e → classList_remove c e = e.
Proof.
  intros Hnin. destruct e as [a cl t v h]. unfold classList_remove. simpl in *.
  f_equal. by apply filter_ne_absent.
Qed.

End elements.

Create Rewrite HintDb dom.
#[export] Hint Rewrite hasAttribute_setAttribute hasAttribute_removeAttribute
  getAttribute_setAttribute : dom.
#[export] Hint Rewrite hasAttribute_setAttribute_ne hasAttribute_removeAttribute_ne
  using done : dom.

(** ** Labels *)

Section labels.
Implicit Types (memo : Memo) (memos : list Memo) (k : nat) (index : Z) (b : bool).

Lemma newMemoElement_classList memo :
  classList (newMemoElement memo) = ["w-full"; "p-sm"].
Proof. done. Qed.

Lemma newMemoElement_not_active memo : is_active (newMemoElement memo) = false.
Proof. done. Qed.

Lemma label_data_id b memo : getAttribute "data-id" (label b memo) = Some (id memo).
Proof. destruct b; apply lookup_insert_eq. Qed.

Lemma label_innerText b memo : innerText (label b memo) = title memo.
Proof. by destruct b. Qed.

Lemma label_is_active b memo : is_active (label b memo) = b.
Proof. by destruct b. Qed.

Lemma label_add_active b memo : classList_add "active" (label b memo) = label true memo.
Proof. destruct b; [apply classList_add_idemp | done]. Qed.

Lemma newMemoElement_no_active memo : "active" ∉ classList (newMemoElement memo).
Proof. by apply (bool_decide_eq_false _). Qed.

Lemma label_remove_active b memo : classList_remove "active" (label b memo) = label false memo.
Proof.
  destruct b; [apply classList_remove_add | apply classList_remove_absent];
    apply newMemoElement_no_active.
Qed.

Lemma label_set_active b (b' : bool) memo :
  (if b' then classList_add "active" (label b memo)
   else classList_remove "active" (label b memo)) = label b' memo.
Proof. destruct b'; [apply label_add_active | apply label_remove_active]. Qed.

Lemma labels_length memos index : length (labels memos index) = length memos.
Proof. apply length_imap. Qed.

Lemma labels_lookup memos index k :
  labels memos index !! k = label (bool_decide (Z.of_nat k = index)) <$> memos !! k.
Proof. unfold labels. by rewrite list_lookup_imap. Qed.

Lemma labels_lookup_Some memos index k memo :
  memos !! k = Some memo →
  labels memos index !! k = Some (label (bool_decide (Z.of_nat k = index)) memo).
Proof. intros Hk. by rewrite labels_lookup, Hk. Qed.

(** An index outside the array marks no label. *)
Lemma labels_outside memos index :
  (index < 0 ∨ js_length memos ≤ index)%Z →
  labels memos index = newMemoElement <$> memos.
Proof.
  intros Hout. apply list_eq. intros k.
  rewrite labels_lookup, list_lookup_fmap.
  destruct (memos !! k) as [memo|] eqn:Hk; [|done]. simpl.
  apply lookup_lt_Some in Hk. unfold js_length in Hout.
  rewrite bool_decide_eq_false_2 by lia. done.
Qed.

(** Exactly the label at [index] is marked. *)
Lemma labels_is_active memos index k e :
  labels memos index !! k = Some e →
  is_active e = bool_decide (Z.of_nat k = index).
Proof.
  rewrite labels_lookup. destruct (memos !! k) as [memo|]; [|done].
  intros [= <-]. apply label_is_active.
Qed.

(** Marking the label at [k] of an array in which no label, or that
    label, is marked. *)
Lemma labels_insert memos index k memo b :
  memos !! k = Some memo →
  (index = Z.of_nat k ∨ index < 0 ∨ js_length memos ≤ index)%Z →
  <[k := label b memo]> (labels memos index) =
  labels memos (if b then Z.of_nat k else (-1)%Z).
Proof.
  intros Hk Hindex. apply list_eq. intros j.
  destruct (decide (j = k)) as [->|Hne].
  - rewrite list_lookup_insert_eq by (rewrite labels_length; by eapply lookup_lt_Some).
    rewrite labels_lookup, Hk. simpl. destruct b.
    + by rewrite bool_decide_eq_true_2.
    + by rewrite bool_decide_eq_false_2 by lia.
  - rewrite list_lookup_insert_ne by done. rewrite !labels_lookup.
    destruct (memos !! j) as [memo'|] eqn:Hj; [|done]. simpl.
    apply lookup_lt_Some in Hj. unfold js_length in Hindex.
    rewrite !bool_decide_eq_false_2; [done | destruct b; lia | lia].
Qed.

End labels.

(** ** Running the functions *)

Section run.
Implicit Types (p : Page) (memos : list Memo) (k : nat) (index : Z) (editMode b : bool).

Lemma foldl_appendChild memos p :
  foldl (λ q memo, set_memoList (λ children, children ++ [newMemoElement memo]) q) p memos
  = set_memoList (λ children, children ++ (newMemoElement <$> memos)) p.
Proof.
  revert p. induction memos as [|memo memos IH]; intros p; simpl.
  - destruct p. unfold set_memoList. simpl. by rewrite app_nil_r.
  - rewrite IH. unfold set_memoList. simpl. by rewrite <-app_assoc.
Qed.

Lemma showMemoElements_run memos p :
  showMemoElements memos p =
  (set_memoList (λ _, newMemoElement <$> memos) p, Done tt).
Proof.
  unfold showMemoElements, clearMemoElements. rewrite bind_modify.
  by rewrite forEach_modify, foldl_appendChild.
Qed.

Lemma querySelector_nth_child_nat k p :
  querySelector_nth_child (Z.of_nat k + 1) p = memoList p !! k.
Proof.
  unfold querySelector_nth_child. rewrite decide_True by lia.
  f_equal. lia.
Qed.

Lemma querySelector_nth_child_null index p :
  (index < 1 ∨ js_length (memoList p) < index)%Z →
  querySelector_nth_child index p = None.
Proof.
  unfold querySelector_nth_child, js_length. intros Hout.
  case_decide; [|done]. apply lookup_ge_None. lia.
Qed.

Lemma setActiveStyle_run k b e p :
  memoList p !! k = Some e →
  setActiveStyle (Z.of_nat k + 1) b p =
  (set_memoList <[k := if b then classList_add "active" e
                       else classList_remove "active" e]> p, Done tt).
Proof.
  intros Hk. unfold setActiveStyle. rewrite bind_gets.
  rewrite querySelector_nth_child_nat, Hk.
  replace (Z.to_nat (Z.of_nat k + 1 - 1)) with k by lia.
  by destruct b.
Qed.

(** No such child: the selector returns [null] and [element.classList]
    throws; the page is as it was. *)
Lemma setActiveStyle_null index b p :
  (index < 1 ∨ js_length (memoList p) < index)%Z →
  setActiveStyle index b p
  = (p, Thrown (TypeError "Cannot read properties of null (reading 'classList')")).
Proof.
  intros Hout. unfold setActiveStyle. rewrite bind_gets.
  by rewrite querySelector_nth_child_null.
Qed.

(** On a page that shows [labels memos index], marking or unmarking the
    label of a memo gives the labels for the new index. *)
Lemma setActiveStyle_labels memos index k memo b p :
  memoList p = labels memos index →
  memos !! k = Some memo →
  (index = Z.of_nat k ∨ index < 0 ∨ js_length memos ≤ index)%Z →
  setActiveStyle (Z.of_nat k + 1) b p =
  (set_memoList (λ _, labels memos (if b then Z.of_nat k else (-1)%Z)) p, Done tt).
Proof.
  intros Hp Hk Hindex.
  rewrite (setActiveStyle_run k b (label (bool_decide (Z.of_nat k = index)) memo))
    by (rewrite Hp; by apply labels_lookup_Some).
  rewrite label_set_active. unfold set_memoList. rewrite Hp.
  by rewrite (labels_insert _ _ _ _ _ Hk Hindex).
Qed.

(** Marking a label of a list that was just rebuilt. *)
Lemma setActiveStyle_fresh memos k memo p :
  memoList p = newMemoElement <$> memos →
  memos !! k = Some memo →
  setActiveStyle (Z.of_nat k + 1) true p =
  (set_memoList (λ _, labels memos (Z.of_nat k)) p, Done tt).
Proof.
  intros Hp Hk. apply (setActiveStyle_labels memos (-1) k memo true); [|done|lia].
  rewrite Hp. symmetry. apply labels_outside. lia.
Qed.

Lemma setHiddenButton_run button isHidden p :
  setHiddenButton button isHidden p =
  (set_elem button
     ((if isHidden then removeAttribute "hidden" else setAttribute "hidden" "hidden")
        (get_elem button p)) p, Done tt).
Proof. by destruct isHidden. Qed.

Lemma setEditMode_run editMode p :
  setEditMode editMode p = (page_setEditMode editMode p, Done tt).
Proof. by destruct editMode. Qed.

Lemma setMode_run editMode p :
  (setEditMode editMode ;;
   setHiddenButton SaveButton editMode ;;
   setHiddenButton EditButton (negb editMode)) p
  = (page_setMode editMode p, Done tt).
Proof. by destruct editMode. Qed.

Lemma page_setMode_shows editMode p :
  shows (if editMode then Editing else Viewing) (page_setMode editMode p).
Proof.
  destruct editMode; unfold shows, page_setMode, page_setEditMode; simpl;
    autorewrite with dom; done.
Qed.

Lemma page_setMode_memoList editMode p :
  memoList (page_setMode editMode p) = memoList p.
Proof. done. Qed.

End run.
