(* ===== verification/Storage.v ===== *)
(** * Storage: the storage adapter

    index.ts imports [readLacalStorage], [saveLocalStorage] and
    [STORAGE_KEY] from storage.ts (line 1), which is not among the
    sources.  They are modelled from the spec's section 4.1: [load]
    "deserializes the value stored at key; returns an empty sequence if the
    key is absent, the value is not parseable, or the value does not match
    the expected shape", and [save] "serializes the full ordered sequence
    and overwrites the stored value at key".

    The serialization is an interface, [Codec]; what its clients need of it
    is the law [decode_encode] of [CodecLaws].  The theorems of the
    handlers are proved against the interface. *)

From S2P Require Import Prelude Memo.

(** The key and the serialization of storage.ts. [decode] is [None] for a
    value that does not parse or does not have the shape of an array of
    memos. *)
Class Codec : Type := {
  STORAGE_KEY : string;
  encode : list Memo → string;
  decode : string → option (list Memo);
}.

Class CodecLaws `{Codec} : Prop := {
  decode_encode memos : decode (encode memos) = Some memos;
}.

Section storage.
Context `{Codec}.

Definition readLacalStorage (key : string) (store : gmap string string) : list Memo :=
  match store !! key with
  | Some v =>
      match decode v with
      | Some memos => memos
      | None => []
      end
  | None => []
  end.

Definition saveLocalStorage (key : string) (memos : list Memo)
    (store : gmap string string) : gmap string string :=
  <[key := encode memos]> store.

(** What a fresh read of the store would return is [memos]. *)
Definition persisted (memos : list Memo) (store : gmap string string) : Prop :=
  readLacalStorage STORAGE_KEY store = memos.

Implicit Types (key : string) (store : gmap string string) (memos : list Memo).

Lemma readLacalStorage_absent key store :
  store !! key = None → readLacalStorage key store = [].
Proof. unfold readLacalStorage. by intros ->. Qed.

Lemma readLacalStorage_corrupt key store v :
  store !! key = Some v → decode v = None → readLacalStorage key store = [].
Proof. unfold readLacalStorage. by intros -> ->. Qed.

Lemma readLacalStorage_Some key store v memos :
  store !! key = Some v → decode v = Some memos →
  readLacalStorage key store = memos.
Proof. unfold readLacalStorage. by intros -> ->. Qed.

Lemma saveLocalStorage_other key key' memos store :
  key ≠ key' → saveLocalStorage key memos store !! key' = store !! key'.
Proof. intros Hne. unfold saveLocalStorage. by rewrite lookup_insert_ne. Qed.

Lemma saveLocalStorage_twice key memos memos' store :
  saveLocalStorage key memos' (saveLocalStorage key memos store)
  = saveLocalStorage key memos' store.
Proof. unfold saveLocalStorage. apply insert_insert_eq. Qed.

Context `{!CodecLaws}.

Lemma read_save key memos store :
  readLacalStorage key (saveLocalStorage key memos store) = memos.
Proof.
  unfold readLacalStorage, saveLocalStorage.
  by rewrite lookup_insert_eq, decode_encode.
Qed.

Lemma persisted_save memos store :
  persisted memos (saveLocalStorage STORAGE_KEY memos store).
Proof. apply read_save. Qed.

End storage.
