(* ===== verification/JsonValue.v ===== *)
(** * JsonValue: JSON texts and the values they denote

    [saveLocalStorage] stores what [JSON.stringify] makes of the array and
    [readLacalStorage] takes what [JSON.parse] makes of the stored text
    (spec, sections 4.1 and 6).  This file is the part of the two that
    does not depend on memos: the values of JSON ([Value]), the printer
    [stringify], which writes a value the way [JSON.stringify] does (no
    blanks, strings quoted with the escapes of the standard), and the
    reader [parse], which accepts the texts of the JSON grammar: blanks
    between the tokens, every escape in a string, members and elements in
    any number.

    Strings are sequences of bytes, the UTF-8 encoding of the text: a
    byte above 127 is printed as it is, and an escape [\uXXXX] is read as
    the UTF-8 bytes of its code point (two escapes for a surrogate pair).
    Numbers are integers in plain decimal notation, which is how
    [JSON.stringify] prints the times [Date.now()] returns; [parse]
    refuses a fraction or an exponent, and a surrogate that is not paired.

    The reader descends into arrays and objects with fuel.  Twice the
    length of the text is enough for every text ([parse_value_enough]), so
    [parse] never refuses a text for lack of fuel.  The round trip is
    [parse_stringify]. *)

From S2P Require Import Prelude.
From Stdlib Require Import Ascii.

(** ** Values *)

#[local] Unset Elimination Schemes.

Inductive Value : Type :=
| Null
| Bool (b : bool)
| Number (n : Z)
| Str (s : string)
| Array (elements : list Value)
| Object (members : list (string * Value)).

#[local] Set Elimination Schemes.

(** Induction on values: the elements of an array and the values of the
    members of an object are smaller. *)
Section induction.
Context (P : Value → Prop).
Context (HNull : P Null) (HBool : ∀ b, P (Bool b)) (HNumber : ∀ n, P (Number n)).
Context (HStr : ∀ s, P (Str s)).
Context (HArray : ∀ vs, Forall P vs → P (Array vs)).
Context (HObject : ∀ ms, Forall (λ m, P m.2) ms → P (Object ms)).

Fixpoint Value_ind (v : Value) : P v :=
  match v with
  | Null => HNull
  | Bool b => HBool b
  | Number n => HNumber n
  | Str s => HStr s
  | Array vs =>
      HArray vs
        ((fix elements (vs : list Value) : Forall P vs :=
            match vs with
            | [] => Forall_nil_2 P
            | v :: vs' => Forall_cons_2 P v vs' (Value_ind v) (elements vs')
            end) vs)
  | Object ms =>
      HObject ms
        ((fix members (ms : list (string * Value)) : Forall (λ m, P m.2) ms :=
            match ms with
            | [] => Forall_nil_2 _
            | m :: ms' => Forall_cons_2 _ m ms' (Value_ind m.2) (members ms')
            end) ms)
  end.

End induction.

(** ** Characters *)

Definition quote : ascii := "034"%char.
Definition backslash : ascii := "\"%char.

Definition is_digit (c : ascii) : bool :=
  bool_decide (48 ≤ N_of_ascii c ≤ 57)%N.

Definition digit_value (c : ascii) : N := (N_of_ascii c - 48)%N.

(** Space, tab, line feed and carriage return. *)
Definition is_ws (c : ascii) : bool :=
  let n := N_of_ascii c in
  bool_decide (n = 32 ∨ n = 9 ∨ n = 10 ∨ n = 13)%N.

Definition hex_char (n : N) : ascii :=
  if decide (n < 10)%N then ascii_of_N (48 + n) else ascii_of_N (87 + n).

Definition hex_value (c : ascii) : option N :=
  let n := N_of_ascii c in
  if decide (48 ≤ n ≤ 57)%N then Some (n - 48)%N
  else if decide (97 ≤ n ≤ 102)%N then Some (n - 87)%N
  else if decide (65 ≤ n ≤ 70)%N then Some (n - 55)%N
  else None.

(** The UTF-8 bytes of a code point. *)
Definition utf8 (n : N) : string :=
  let byte k := ascii_of_N k in
  let low k := byte (128 + k `mod` 64)%N in
  if decide (n < 128)%N then String (byte n) ""
  else if decide (n < 2048)%N then String (byte (192 + n `div` 64)%N) (String (low n) "")
  else if decide (n < 65536)%N then
    String (byte (224 + n `div` 4096)%N)
      (String (low (n `div` 64)%N) (String (low n) ""))
  else
    String (byte (240 + n `div` 262144)%N)
      (String (low (n `div` 4096)%N)
         (String (low (n `div` 64)%N) (String (low n) ""))).

(** ** Printing *)

(** One character of a string, as [JSON.stringify] quotes it. *)
Definition escape_char (c : ascii) : string :=
  let n := N_of_ascii c in
  if decide (n = 34)%N then String backslash (String quote "")
  else if decide (n = 92)%N then String backslash (String backslash "")
  else if decide (n = 8)%N then String backslash "b"
  else if decide (n = 12)%N then String backslash "f"
  else if decide (n = 10)%N then String backslash "n"
  else if decide (n = 13)%N then String backslash "r"
  else if decide (n = 9)%N then String backslash "t"
  else if decide (n < 32)%N
       then String backslash
              (String "u" (String "0" (String "0"
                 (String (hex_char (n `div` 16)) (String (hex_char (n `mod` 16)) "")))))
  else String c "".

Fixpoint escape (s : string) : string :=
  match s with
  | "" => ""
  | String c s' => escape_char c +:+ escape s'
  end.

Definition print_string (s : string) : string :=
  String quote (escape s +:+ String quote "").

Definition print_number (n : Z) : string := pretty n.

(** The items of a list, each printed by [f], with commas between them,
    and [close] after the last. *)
Fixpoint separate {A} (f : A → string) (close : string) (l : list A) : string :=
  match l with
  | [] => close
  | [x] => f x +:+ close
  | x :: l' => f x +:+ "," +:+ separate f close l'
  end.

(** [JSON.stringify(v)]: a member is its quoted name, a colon and its
    value. *)
Fixpoint stringify (v : Value) : string :=
  match v with
  | Null => "null"
  | Bool true => "true"
  | Bool false => "false"
  | Number n => print_number n
  | Str s => print_string s
  | Array vs => "[" +:+ separate stringify "]" vs
  | Object ms =>
      "{" +:+ separate (λ '(k, v), print_string k +:+ ":" +:+ stringify v) "}" ms
  end.

(** The elements of an array after its opening bracket, and the members
    of an object after its opening brace, as [stringify] writes them. *)
Abbreviation stringify_elements := (separate stringify "]").
Abbreviation stringify_member :=
  (λ '(k, v), print_string k +:+ ":" +:+ stringify v).
Abbreviation stringify_members := (separate stringify_member "}").

(** ** Reading *)

(** [expect lit s]: [s] without its prefix [lit]. *)
Fixpoint expect (lit s : string) : option string :=
  match lit with
  | "" => Some s
  | String c lit' =>
      match s with
      | String d s' => if decide (c = d) then expect lit' s' else None
      | "" => None
      end
  end.

Fixpoint skip_ws (s : string) : string :=
  match s with
  | String c s' => if is_ws c then skip_ws s' else s
  | "" => ""
  end.

(** The character an escape of one letter stands for. *)
Definition unescape (e : ascii) : option ascii :=
  let n := N_of_ascii e in
  if decide (n = 34)%N then Some quote
  else if decide (n = 92)%N then Some backslash
  else if decide (n = 47)%N then Some "/"%char
  else if decide (n = 98)%N then Some (ascii_of_N 8)
  else if decide (n = 102)%N then Some (ascii_of_N 12)
  else if decide (n = 110)%N then Some (ascii_of_N 10)
  else if decide (n = 114)%N then Some (ascii_of_N 13)
  else if decide (n = 116)%N then Some (ascii_of_N 9)
  else None.

(** The code unit the four hexadecimal digits of a [\u] escape give. *)
Definition code_unit (h1 h2 h3 h4 : ascii) : option N :=
  v1 ← hex_value h1; v2 ← hex_value h2; v3 ← hex_value h3; v4 ← hex_value h4;
  Some (((v1 * 16 + v2) * 16 + v3) * 16 + v4)%N.

Definition is_high (u : N) : bool := bool_decide (55296 ≤ u < 56320)%N.
Definition is_low (u : N) : bool := bool_decide (56320 ≤ u < 57344)%N.

(** The code point of a surrogate pair. *)
Definition pair_code (high low : N) : N :=
  (65536 + (high - 55296) * 1024 + (low - 56320))%N.

(** A string after its opening quote: the characters up to the closing
    quote, and what follows it. *)
Fixpoint read_string_body (s : string) : option (string * string) :=
  match s with
  | "" => None
  | String c s' =>
      if decide (c = quote) then Some ("", s')
      else if decide (c = backslash) then
        match s' with
        | String e s'' =>
            if decide (e = "u"%char) then
              match s'' with
              | String h1 (String h2 (String h3 (String h4 t))) =>
                  u ← code_unit h1 h2 h3 h4;
                  if is_low u then None
                  else if is_high u then
                    match t with
                    | String b (String e' (String k1 (String k2 (String k3 (String k4 t'))))) =>
                        if decide (b = backslash ∧ e' = "u"%char) then
                          l ← code_unit k1 k2 k3 k4;
                          if is_low l then
                            '(r, rest) ← read_string_body t';
                            Some (utf8 (pair_code u l) +:+ r, rest)
                          else None
                        else None
                    | _ => None
                    end
                  else
                    '(r, rest) ← read_string_body t;
                    Some (utf8 u +:+ r, rest)
              | _ => None
              end
            else
              a ← unescape e;
              '(r, rest) ← read_string_body s'';
              Some (String a r, rest)
        | "" => None
        end
      else if decide (N_of_ascii c < 32)%N then None
      else '(r, rest) ← read_string_body s'; Some (String c r, rest)
  end.

Definition read_string (s : string) : option (string * string) :=
  match s with
  | String c s' => if decide (c = quote) then read_string_body s' else None
  | "" => None
  end.

(** The digits at the head of [s], read onto [acc]. *)
Fixpoint read_digits (acc : N) (s : string) : N * string :=
  match s with
  | String c s' =>
      if is_digit c then read_digits (10 * acc + digit_value c) s' else (acc, s)
  | "" => (acc, "")
  end.

(** A natural number: one digit at least, and no zero in front of
    another digit. *)
Definition read_N (s : string) : option (N * string) :=
  match s with
  | String c s' =>
      if is_digit c then
        match s' with
        | String d _ =>
            if decide (c = "0"%char ∧ is_digit d = true) then None
            else Some (read_digits 0 s)
        | "" => Some (read_digits 0 s)
        end
      else None
  | "" => None
  end.

(** What may follow an integer: no digit, and no fraction or exponent. *)
Definition ends_number (rest : string) : Prop :=
  match rest with
  | String c _ =>
      is_digit c = false ∧ c ≠ "."%char ∧ c ≠ "e"%char ∧ c ≠ "E"%char
  | "" => True
  end.

#[export] Instance ends_number_dec rest : Decision (ends_number rest).
Proof. destruct rest; apply _. Defined.

(** An integer: a minus sign at most, and a natural number. *)
Definition read_integer (s : string) : option (Z * string) :=
  match s with
  | String c s' =>
      if decide (c = "-"%char)
      then '(n, rest) ← read_N s'; Some (- Z.of_N n, rest)%Z
      else '(n, rest) ← read_N s; Some (Z.of_N n, rest)
  | "" => None
  end.

Definition read_number (s : string) : option (Z * string) :=
  '(n, rest) ← read_integer s;
  if decide (ends_number rest) then Some (n, rest) else None.

(** A value, after blanks; the elements of an array after its first
    bracket; the members of an object after its first brace.  Each returns
    what follows.  [fuel] bounds the calls in a row. *)
Fixpoint parse_value (fuel : nat) (s : string) : option (Value * string) :=
  match fuel with
  | 0 => None
  | S fuel' =>
      match skip_ws s with
      | "" => None
      | String c s' =>
          if decide (c = "["%char) then
            match skip_ws s' with
            | String d rest =>
                if decide (d = "]"%char) then Some (Array [], rest)
                else '(vs, rest) ← parse_elements fuel' s'; Some (Array vs, rest)
            | "" => None
            end
          else if decide (c = "{"%char) then
            match skip_ws s' with
            | String d rest =>
                if decide (d = "}"%char) then Some (Object [], rest)
                else '(ms, rest) ← parse_members fuel' s'; Some (Object ms, rest)
            | "" => None
            end
          else if decide (c = quote) then
            '(str, rest) ← read_string_body s'; Some (Str str, rest)
          else if decide (c = "t"%char) then
            rest ← expect "rue" s'; Some (Bool true, rest)
          else if decide (c = "f"%char) then
            rest ← expect "alse" s'; Some (Bool false, rest)
          else if decide (c = "n"%char) then
            rest ← expect "ull" s'; Some (Null, rest)
          else
            '(n, rest) ← read_number (String c s'); Some (Number n, rest)
      end
  end
with parse_elements (fuel : nat) (s : string) : option (list Value * string) :=
  match fuel with
  | 0 => None
  | S fuel' =>
      '(v, rest) ← parse_value fuel' s;
      match skip_ws rest with
      | String c rest' =>
          if decide (c = ","%char) then
            '(vs, rest'') ← parse_elements fuel' rest'; Some (v :: vs, rest'')
          else if decide (c = "]"%char) then Some ([v], rest')
          else None
      | "" => None
      end
  end
with parse_members (fuel : nat) (s : string) : option (list (string * Value) * string) :=
  match fuel with
  | 0 => None
  | S fuel' =>
      '(k, rest) ← read_string (skip_ws s);
      rest ← expect ":" (skip_ws rest);
      '(v, rest) ← parse_value fuel' rest;
      match skip_ws rest with
      | String c rest' =>
          if decide (c = ","%char) then
            '(ms, rest'') ← parse_members fuel' rest'; Some ((k, v) :: ms, rest'')
          else if decide (c = "}"%char) then Some ([(k, v)], rest')
          else None
      | "" => None
      end
  end.

(** The characters that begin a value: none is a blank or closes an
    array or an object. *)
Definition begins_value (c : ascii) : Prop :=
  is_ws c = false ∧ c ≠ "]"%char ∧ c ≠ "}"%char.

(** ** The grammar

    [spells v s rest]: the text [s] begins with a spelling of the value
    [v], and [rest] is what follows it.  A value may have blanks before
    it; an array is a bracket and then nothing but blanks and the closing
    bracket, or values with blanks and a comma between them; an object is
    the same of members, a member being a string, a colon and a value,
    with blanks around each.  Numbers and strings are the tokens
    [read_number] and [read_string_body] accept. *)
Inductive spells : Value → string → string → Prop :=
| spells_blank c v s rest :
    is_ws c = true → spells v s rest → spells v (String c s) rest
| spells_null rest : spells Null ("null" +:+ rest) rest
| spells_true rest : spells (Bool true) ("true" +:+ rest) rest
| spells_false rest : spells (Bool false) ("false" +:+ rest) rest
| spells_number n s rest : read_number s = Some (n, rest) → spells (Number n) s rest
| spells_string str s rest :
    read_string_body s = Some (str, rest) → spells (Str str) (String quote s) rest
| spells_array_empty s rest :
    skip_ws s = String "]" rest → spells (Array []) (String "[" s) rest
| spells_array vs s rest :
    spells_elements vs s rest → spells (Array vs) (String "[" s) rest
| spells_object_empty s rest :
    skip_ws s = String "}" rest → spells (Object []) (String "{" s) rest
| spells_object ms s rest :
    spells_members ms s rest → spells (Object ms) (String "{" s) rest
with spells_elements : list Value → string → string → Prop :=
| spells_last v s rest1 rest :
    spells v s rest1 → skip_ws rest1 = String "]" rest → spells_elements [v] s rest
| spells_more v vs s rest1 rest2 rest :
    spells v s rest1 → skip_ws rest1 = String "," rest2 →
    spells_elements vs rest2 rest → spells_elements (v :: vs) s rest
with spells_members : list (string * Value) → string → string → Prop :=
| spells_member k v s rest1 rest2 rest3 rest :
    read_string (skip_ws s) = Some (k, rest1) →
    skip_ws rest1 = String ":" rest2 →
    spells v rest2 rest3 → skip_ws rest3 = String "}" rest →
    spells_members [(k, v)] s rest
| spells_members_more k v ms s rest1 rest2 rest3 rest4 rest :
    read_string (skip_ws s) = Some (k, rest1) →
    skip_ws rest1 = String ":" rest2 →
    spells v rest2 rest3 → skip_ws rest3 = String "," rest4 →
    spells_members ms rest4 rest → spells_members ((k, v) :: ms) s rest.

Scheme spells_mut := Minimality for spells Sort Prop
  with spells_elements_mut := Minimality for spells_elements Sort Prop
  with spells_members_mut := Minimality for spells_members Sort Prop.

Combined Scheme spells_mutind from spells_mut, spells_elements_mut, spells_members_mut.

(** The reader [p] returns [r] on [s] with enough fuel. *)
Definition reads {A} (p : nat → string → option A) (s : string) (r : A) : Prop :=
  ∃ fuel, ∀ fuel', fuel ≤ fuel' → p fuel' s = Some r.

(** [JSON.parse(s)]: one value, and blanks at most after it. *)
Definition parse (s : string) : option Value :=
  '(v, rest) ← parse_value (2 * String.length s + 1) s;
  if decide (skip_ws rest = "") then Some v else None.

(** ** Strings *)

Section strings.
Implicit Types (s rest lit : string) (c : ascii).

(** Reading the escape of a character gives the character. *)
Lemma read_string_body_escape_char c rest :
  read_string_body (escape_char c +:+ rest)
  = '(r, rest') ← read_string_body rest; Some (String c r, rest').
Proof.
  destruct c as [[] [] [] [] [] [] [] []]; reflexivity.
Qed.

Lemma read_string_body_escape s rest :
  read_string_body (escape s +:+ String quote rest) = Some (s, rest).
Proof.
  induction s as [|c s IH]; [done|].
  simpl. rewrite string_app_assoc, read_string_body_escape_char, IH. done.
Qed.

Lemma read_string_print s rest :
  read_string (print_string s +:+ rest) = Some (s, rest).
Proof.
  unfold print_string. rewrite string_app_cons, string_app_assoc. simpl.
  apply read_string_body_escape.
Qed.

End strings.

(** ** Numbers *)

Section numbers.
Implicit Types (s rest : string) (c : ascii).

Lemma pretty_N_char_digit (d : N) :
  (d < 10)%N →
  is_digit (pretty_N_char d) = true ∧ digit_value (pretty_N_char d) = d ∧
  (pretty_N_char d = "0"%char → d = 0%N).
Proof.
  intros Hd.
  assert (d = 0 ∨ d = 1 ∨ d = 2 ∨ d = 3 ∨ d = 4 ∨ d = 5 ∨ d = 6 ∨ d = 7
          ∨ d = 8 ∨ d = 9)%N as Hcases by lia.
  repeat (destruct Hcases as [->|Hcases]; [done|]). by subst.
Qed.

Lemma pretty_N_go_app (x : N) s rest :
  pretty_N_go x s +:+ rest = pretty_N_go x (s +:+ rest).
Proof.
  revert s. induction (N.lt_wf_0 x) as [x _ IH]; intros s.
  destruct (decide (x = 0)%N) as [->|Hx]; [by rewrite !pretty_N_go_0|].
  rewrite (pretty_N_go_step x s), (pretty_N_go_step x (s +:+ rest)) by lia.
  by rewrite IH by (apply N.div_lt; lia).
Qed.

(** The digits of [x] in front of [s] read as [x], shifted onto what was
    read before. *)
Lemma read_digits_pretty_N_go (x : N) :
  ∃ k : N, ∀ acc s,
    read_digits acc (pretty_N_go x s) = read_digits (acc * 10 ^ k + x) s.
Proof.
  induction (N.lt_wf_0 x) as [x _ IH].
  destruct (decide (x = 0)%N) as [->|Hx].
  { exists 0%N. intros acc s. rewrite pretty_N_go_0. f_equal. lia. }
  destruct (IH (x `div` 10)%N) as [k Hk]; [apply N.div_lt; lia|].
  exists (k + 1)%N. intros acc s.
  rewrite pretty_N_go_step, Hk by lia. simpl.
  destruct (pretty_N_char_digit (x `mod` 10)) as (-> & -> & _);
    [by apply N.mod_lt|].
  f_equal. rewrite N.pow_add_r, N.pow_1_r.
  pose proof (N.div_mod x 10). lia.
Qed.

(** A positive number prints with a digit first, and not with a zero. *)
Lemma pretty_N_go_head (x : N) s :
  (0 < x)%N →
  ∃ c s', pretty_N_go x s = String c s' ∧ is_digit c = true ∧ c ≠ "0"%char.
Proof.
  revert s. induction (N.lt_wf_0 x) as [x _ IH]; intros s Hx.
  rewrite pretty_N_go_step by done.
  destruct (decide (x `div` 10 = 0)%N) as [Hdiv|Hdiv].
  - rewrite Hdiv, pretty_N_go_0. eexists _, _. split; [done|].
    destruct (pretty_N_char_digit (x `mod` 10)) as (Hd & _ & Hz);
      [by apply N.mod_lt|].
    split; [done|]. intros Hc%Hz. pose proof (N.div_mod x 10). lia.
  - apply IH; [apply N.div_lt; lia | by apply N.neq_0_lt_0].
Qed.

Lemma ends_number_digit c rest : ends_number (String c rest) → is_digit c = false.
Proof. by intros [? _]. Qed.

Lemma read_digits_end acc rest : ends_number rest → read_digits acc rest = (acc, rest).
Proof. destruct rest as [|c rest]; [done|]. simpl. by intros [-> _]. Qed.

Lemma read_N_pretty (x : N) rest :
  ends_number rest → read_N (pretty x +:+ rest) = Some (x, rest).
Proof.
  intros Hend. unfold pretty, pretty_N. case_decide as Hx.
  - subst. rewrite string_app_cons, string_app_nil. unfold read_N.
    change (is_digit "0") with true. cbn match.
    destruct rest as [|d rest]; [done|].
    rewrite decide_False by (rewrite (ends_number_digit d rest Hend); by intros [_ ?]).
    simpl. by rewrite (ends_number_digit d rest Hend).
  - rewrite pretty_N_go_app, string_app_nil.
    destruct (pretty_N_go_head x rest) as (c & s' & Heq & Hc & Hz); [lia|].
    unfold read_N. rewrite Heq, Hc, <-Heq.
    destruct (read_digits_pretty_N_go x) as [k Hk]. rewrite Hk.
    rewrite read_digits_end by done.
    destruct s'; [done|]. by rewrite decide_False by by intros [? _].
Qed.

Lemma is_digit_not_minus c : is_digit c = true → c ≠ "-"%char.
Proof. by intros Hc ->. Qed.

Lemma read_integer_print (z : Z) rest :
  ends_number rest → read_integer (print_number z +:+ rest) = Some (z, rest).
Proof.
  intros Hend. unfold read_integer, print_number, pretty, pretty_Z. destruct z as [|x|x].
  - pose proof (read_N_pretty 0 rest Hend) as Hread.
    rewrite string_app_cons, string_app_nil, decide_False by done.
    change (pretty 0%N +:+ rest) with (String "0" rest) in Hread. by rewrite Hread.
  - pose proof (read_N_pretty (N.pos x) rest Hend) as Hread.
    change (pretty x) with (pretty (N.pos x)).
    destruct (pretty (N.pos x) +:+ rest) as [|c s'] eqn:Heq; [done|].
    rewrite decide_False; [by rewrite Hread|].
    apply is_digit_not_minus. unfold read_N in Hread. by destruct (is_digit c).
  - rewrite string_app_assoc, string_app_cons, string_app_nil. simpl.
    unfold pretty at 1, pretty_positive. by rewrite read_N_pretty.
Qed.

Lemma read_number_print (z : Z) rest :
  ends_number rest → read_number (print_number z +:+ rest) = Some (z, rest).
Proof.
  intros Hend. unfold read_number. rewrite read_integer_print by done.
  simpl. by rewrite decide_True.
Qed.

End numbers.

(** ** Blanks and first characters *)

Section heads.
Implicit Types (s rest : string) (c : ascii) (v : Value).

Lemma skip_ws_head c s : is_ws c = false → skip_ws (String c s) = String c s.
Proof. simpl. by intros ->. Qed.

Lemma skip_ws_length s : String.length (skip_ws s) ≤ String.length s.
Proof. induction s as [|c s IH]; [done|]. simpl. destruct (is_ws c); simpl; lia. Qed.

(** A minus sign or a digit begins a number and nothing else. *)
Lemma parse_value_number fuel c s :
  c = "-"%char ∨ is_digit c = true →
  begins_value c ∧
  parse_value (S fuel) (String c s)
  = '(n, rest) ← read_number (String c s); Some (Number n, rest).
Proof.
  destruct c as [[] [] [] [] [] [] [] []]; intros [Hc|Hc]; try done;
    (split; [done | reflexivity]).
Qed.

End heads.

(** ** One step of the readers *)

Section steps.
Implicit Types (s rest : string) (c : ascii) (v : Value) (fuel : nat).

Lemma parse_value_S fuel s :
  parse_value (S fuel) s
  = match skip_ws s with
    | "" => None
    | String c s' =>
        if decide (c = "["%char) then
          match skip_ws s' with
          | String d rest =>
              if decide (d = "]"%char) then Some (Array [], rest)
              else '(vs, rest) ← parse_elements fuel s'; Some (Array vs, rest)
          | "" => None
          end
        else if decide (c = "{"%char) then
          match skip_ws s' with
          | String d rest =>
              if decide (d = "}"%char) then Some (Object [], rest)
              else '(ms, rest) ← parse_members fuel s'; Some (Object ms, rest)
          | "" => None
          end
        else if decide (c = quote) then
          '(str, rest) ← read_string_body s'; Some (Str str, rest)
        else if decide (c = "t"%char) then
          rest ← expect "rue" s'; Some (Bool true, rest)
        else if decide (c = "f"%char) then
          rest ← expect "alse" s'; Some (Bool false, rest)
        else if decide (c = "n"%char) then
          rest ← expect "ull" s'; Some (Null, rest)
        else
          '(n, rest) ← read_number (String c s'); Some (Number n, rest)
    end.
Proof. done. Qed.

Lemma parse_elements_S fuel s :
  parse_elements (S fuel) s
  = '(v, rest) ← parse_value fuel s;
    match skip_ws rest with
    | String c rest' =>
        if decide (c = ","%char) then
          '(vs, rest'') ← parse_elements fuel rest'; Some (v :: vs, rest'')
        else if decide (c = "]"%char) then Some ([v], rest')
        else None
    | "" => None
    end.
Proof. done. Qed.

Lemma parse_members_S fuel s :
  parse_members (S fuel) s
  = '(k, rest) ← read_string (skip_ws s);
    rest ← expect ":" (skip_ws rest);
    '(v, rest) ← parse_value fuel rest;
    match skip_ws rest with
    | String c rest' =>
        if decide (c = ","%char) then
          '(ms, rest'') ← parse_members fuel rest'; Some ((k, v) :: ms, rest'')
        else if decide (c = "}"%char) then Some ([(k, v)], rest')
        else None
    | "" => None
    end.
Proof. done. Qed.

(** What [parse_value] does after the first character of a string, an
    array and an object. *)
Lemma parse_value_first fuel s :
  parse_value (S fuel) (String quote s)
  = ('(str, rest) ← read_string_body s; Some (Str str, rest)) ∧
  parse_value (S fuel) (String "[" s)
  = match skip_ws s with
    | String d rest =>
        if decide (d = "]"%char) then Some (Array [], rest)
        else '(vs, rest) ← parse_elements fuel s; Some (Array vs, rest)
    | "" => None
    end ∧
  parse_value (S fuel) (String "{" s)
  = match skip_ws s with
    | String d rest =>
        if decide (d = "}"%char) then Some (Object [], rest)
        else '(ms, rest) ← parse_members fuel s; Some (Object ms, rest)
    | "" => None
    end.
Proof. done. Qed.

End steps.

(** ** The fuel is enough

    Every reader returns a suffix of the text it was given.  So a call of
    [parse_value] is made on a text shorter than the call it is made for
    by at least the character that opened the array or the object, and a
    call of [parse_elements] or [parse_members] in a row on a text shorter
    by the value and the comma before it: with a fuel of twice the length
    of the text and one more, more fuel changes nothing. *)

Section fuel.
Implicit Types (s rest lit : string) (c : ascii) (v : Value) (fuel : nat).

Lemma expect_length lit s rest :
  expect lit s = Some rest → String.length s = String.length lit + String.length rest.
Proof.
  revert s. induction lit as [|c lit IH]; intros s Hs; simpl in *; [congruence|].
  destruct s as [|d s]; [done|]. case_decide; [|done]. simpl. by rewrite (IH s).
Qed.

Lemma skip_ws_cons s c s' :
  skip_ws s = String c s' → String.length s' < String.length s.
Proof. intros Hs. pose proof (skip_ws_length s) as Hlen. rewrite Hs in Hlen. simpl in *. lia. Qed.

Lemma read_string_body_length s r rest :
  read_string_body s = Some (r, rest) → String.length rest < String.length s.
Proof.
  remember (String.length s) as n eqn:Hn. revert s r rest Hn.
  induction (lt_wf n) as [n _ IH]; intros s r rest -> Hs.
  assert (∀ t r' rest', String.length t < String.length s →
            read_string_body t = Some (r', rest') →
            String.length rest' < String.length s) as Hrec.
  { intros t r' rest' Ht Hr. eapply IH in Hr; [|exact Ht|done]. lia. }
  destruct s as [|c s]; [done|]. simpl in Hs, Hrec.
  repeat (case_match; simplify_option_eq; try done);
    try (simpl; lia);
    match goal with
    | H : read_string_body _ = Some _ |- _ => eapply Hrec in H; simpl in *; lia
    end.
Qed.

Lemma read_string_length s r rest :
  read_string s = Some (r, rest) → String.length rest < String.length s.
Proof.
  destruct s as [|c s]; [done|]. simpl. case_decide; [|done].
  intros Hs%read_string_body_length. lia.
Qed.

Lemma read_digits_length acc s :
  String.length (read_digits acc s).2 ≤ String.length s.
Proof.
  revert acc. induction s as [|c s IH]; intros acc; [done|]. simpl.
  destruct (is_digit c); [|done]. specialize (IH (10 * acc + digit_value c)%N). lia.
Qed.

Lemma read_N_length s n rest :
  read_N s = Some (n, rest) → String.length rest < String.length s.
Proof.
  destruct s as [|c t]; [done|]. unfold read_N. simpl.
  pose proof (read_digits_length (10 * 0 + digit_value c) t) as Hlen.
  destruct (read_digits (10 * 0 + digit_value c) t) as [n' r'].
  destruct (is_digit c); [|done]. simpl in *.
  repeat case_match; try done; intros [= <- <-]; lia.
Qed.

Lemma read_number_length s z rest :
  read_number s = Some (z, rest) → String.length rest < String.length s.
Proof.
  unfold read_number, read_integer. destruct s as [|c s]; [done|]. case_decide.
  - destruct (read_N s) as [[n r]|] eqn:Hs; [|done]. simpl. case_decide; [|done].
    intros [= <- <-]. apply read_N_length in Hs. simpl. lia.
  - destruct (read_N (String c s)) as [[n r]|] eqn:Hs; [|done]. simpl.
    case_decide; [|done]. intros [= <- <-]. by apply read_N_length in Hs.
Qed.

(** What the readers say of the lengths, as facts [lia] can use. *)
Ltac lengths :=
  repeat match goal with
  | H : skip_ws _ = String _ _ |- _ => apply skip_ws_cons in H
  | H : expect _ _ = Some _ |- _ => apply expect_length in H
  | H : read_string_body _ = Some _ |- _ => apply read_string_body_length in H
  | H : read_string _ = Some _ |- _ => apply read_string_length in H
  | H : read_number _ = Some _ |- _ => apply read_number_length in H
  end;
  repeat match goal with
  | |- context [String.length (skip_ws ?s)] =>
      lazymatch goal with
      | _ : String.length (skip_ws s) ≤ String.length s |- _ => fail
      | _ => pose proof (skip_ws_length s)
      end
  | _ : context [String.length (skip_ws ?s)] |- _ =>
      lazymatch goal with
      | _ : String.length (skip_ws s) ≤ String.length s |- _ => fail
      | _ => pose proof (skip_ws_length s)
      end
  end;
  simpl in *; try lia.

Lemma parse_length fuel :
  (∀ s v rest, parse_value fuel s = Some (v, rest) →
     String.length rest < String.length s) ∧
  (∀ s vs rest, parse_elements fuel s = Some (vs, rest) →
     String.length rest < String.length s) ∧
  (∀ s ms rest, parse_members fuel s = Some (ms, rest) →
     String.length rest < String.length s).
Proof.
  induction fuel as [|fuel (IHv & IHe & IHm)]; [done|]. split_and!.
  - intros s v rest. rewrite parse_value_S.
    destruct (skip_ws s) as [|c s'] eqn:Hs; [done|]. intros Hrun.
    repeat (case_match; simplify_option_eq; try done);
      repeat match goal with
      | H : parse_elements fuel _ = Some _ |- _ => apply IHe in H
      | H : parse_members fuel _ = Some _ |- _ => apply IHm in H
      end; lengths.
  - intros s vs rest. rewrite parse_elements_S.
    destruct (parse_value fuel s) as [[v rest1]|] eqn:Hv; [|done]. apply IHv in Hv.
    rewrite option_bind_Some. intros Hrun.
    repeat (case_match; simplify_option_eq; try done);
      repeat match goal with
      | H : parse_elements fuel _ = Some _ |- _ => apply IHe in H
      end; lengths.
  - intros s ms rest. rewrite parse_members_S.
    destruct (read_string (skip_ws s)) as [[k rest1]|] eqn:Hk; [|done].
    rewrite option_bind_Some.
    destruct (expect ":" (skip_ws rest1)) as [rest2|] eqn:Hc; [|done].
    rewrite option_bind_Some.
    destruct (parse_value fuel rest2) as [[v rest3]|] eqn:Hv; [|done]. apply IHv in Hv.
    rewrite option_bind_Some. intros Hrun.
    repeat (case_match; simplify_option_eq; try done);
      repeat match goal with
      | H : parse_members fuel _ = Some _ |- _ => apply IHm in H
      end; lengths.
Qed.

Lemma parse_fuel fuel :
  (∀ s fuel', 2 * String.length s + 1 ≤ fuel → fuel ≤ fuel' →
     parse_value fuel s = parse_value fuel' s) ∧
  (∀ s fuel', 2 * String.length s + 2 ≤ fuel → fuel ≤ fuel' →
     parse_elements fuel s = parse_elements fuel' s) ∧
  (∀ s fuel', 2 * String.length s + 2 ≤ fuel → fuel ≤ fuel' →
     parse_members fuel s = parse_members fuel' s).
Proof.
  induction fuel as [|fuel (IHv & IHe & IHm)]; [split_and!; intros; lia|].
  split_and!; intros s [|fuel'] Hs Hle; try lia.
  - rewrite !parse_value_S. destruct (skip_ws s) as [|c s'] eqn:Hc; [done|].
    apply skip_ws_cons in Hc.
    by rewrite (IHe s' fuel'), (IHm s' fuel') by lia.
  - rewrite !parse_elements_S, (IHv s fuel') by lia.
    destruct (parse_value fuel' s) as [[v rest1]|] eqn:Hv; [|done].
    destruct (parse_length fuel') as (Hlen & _). apply Hlen in Hv.
    rewrite !option_bind_Some. destruct (skip_ws rest1) as [|c rest'] eqn:Hc; [done|].
    apply skip_ws_cons in Hc. by rewrite (IHe rest' fuel') by lia.
  - rewrite !parse_members_S.
    destruct (read_string (skip_ws s)) as [[k rest1]|] eqn:Hk; [|done].
    rewrite !option_bind_Some.
    destruct (expect ":" (skip_ws rest1)) as [rest2|] eqn:Hcolon; [|done].
    rewrite !option_bind_Some. lengths.
    rewrite (IHv rest2 fuel') by lia.
    destruct (parse_value fuel' rest2) as [[v rest3]|] eqn:Hv; [|done].
    destruct (parse_length fuel') as (Hlen & _). apply Hlen in Hv.
    rewrite !option_bind_Some. destruct (skip_ws rest3) as [|c rest'] eqn:Hc; [done|].
    apply skip_ws_cons in Hc. by rewrite (IHm rest' fuel') by lia.
Qed.

(** More fuel than twice the length of the text and one changes
    nothing. *)
Lemma parse_value_enough fuel s :
  2 * String.length s + 1 ≤ fuel →
  parse_value fuel s = parse_value (2 * String.length s + 1) s.
Proof.
  intros Hs. destruct (parse_fuel (2 * String.length s + 1)) as (Hv & _).
  symmetry. by apply Hv.
Qed.

End fuel.

(** ** The reader accepts the grammar, and nothing else *)

Section grammar.
Implicit Types (s rest lit : string) (c : ascii) (v : Value) (fuel : nat).

Lemma expect_Some lit s rest : expect lit s = Some rest → s = lit +:+ rest.
Proof.
  revert s. induction lit as [|c lit IH]; intros s Hs; simpl in *.
  { by injection Hs as ->. }
  destruct s as [|d s]; [done|]. case_decide; [|done]. subst.
  by rewrite (IH s Hs).
Qed.

Lemma spells_skip_ws v s rest : spells v (skip_ws s) rest → spells v s rest.
Proof.
  induction s as [|c s IH]; [done|]. simpl. destruct (is_ws c) eqn:Hc; [|done].
  intros Hs. by apply spells_blank, IH.
Qed.

(** What the reader returns is spelled by the text. *)
Lemma parse_spells fuel :
  (∀ s v rest, parse_value fuel s = Some (v, rest) → spells v s rest) ∧
  (∀ s vs rest, parse_elements fuel s = Some (vs, rest) → spells_elements vs s rest) ∧
  (∀ s ms rest, parse_members fuel s = Some (ms, rest) → spells_members ms s rest).
Proof.
  induction fuel as [|fuel (IHv & IHe & IHm)]; [done|]. split_and!.
  - intros s v rest. rewrite parse_value_S. intros Hrun. apply spells_skip_ws.
    destruct (skip_ws s) as [|c s'] eqn:Hs; [done|].
    repeat (case_match; simplify_option_eq; try done);
      repeat match goal with
      | H : expect _ _ = Some _ |- _ => apply expect_Some in H; subst
      end;
      first [ exact (spells_true _) | exact (spells_false _) | exact (spells_null _)
            | eauto using spells ].
  - intros s vs rest. rewrite parse_elements_S.
    destruct (parse_value fuel s) as [[v rest1]|] eqn:Hv; [|done]. apply IHv in Hv.
    rewrite option_bind_Some. intros Hrun.
    repeat (case_match; simplify_option_eq; try done); eauto using spells_elements.
  - intros s ms rest. rewrite parse_members_S.
    destruct (read_string (skip_ws s)) as [[k rest1]|] eqn:Hk; [|done].
    rewrite option_bind_Some.
    destruct (expect ":" (skip_ws rest1)) as [rest2|] eqn:Hc; [|done].
    apply expect_Some in Hc. rewrite option_bind_Some.
    destruct (parse_value fuel rest2) as [[v rest3]|] eqn:Hv; [|done]. apply IHv in Hv.
    rewrite option_bind_Some. intros Hrun.
    repeat (case_match; simplify_option_eq; try done); eauto using spells_members.
Qed.

(** A blank before a value changes nothing. *)
Lemma parse_value_blank fuel c s :
  is_ws c = true → parse_value fuel (String c s) = parse_value fuel s.
Proof. intros Hc. destruct fuel; [done|]. rewrite !parse_value_S. simpl. by rewrite Hc. Qed.

Lemma read_number_head s n rest :
  read_number s = Some (n, rest) →
  ∃ c s', s = String c s' ∧ (c = "-"%char ∨ is_digit c = true).
Proof.
  unfold read_number, read_integer, read_N. destruct s as [|c s]; [done|].
  intros Hs. exists c, s. split; [done|]. case_decide; [by left|right].
  by destruct (is_digit c).
Qed.

(** A value begins, after blanks, with a character that begins a
    value. *)
Lemma spells_head v s rest :
  spells v s rest → ∃ c s', skip_ws s = String c s' ∧ begins_value c.
Proof.
  induction 1 as [c v s rest Hc _ IH| | | |n s rest Hn|str s rest _|s rest _|vs s rest _
                  |s rest _|ms s rest _]; try (by eexists _, _).
  - simpl. by rewrite Hc.
  - destruct (read_number_head s n rest Hn) as (c & s' & -> & Hc).
    destruct (parse_value_number 0 c s' Hc) as [Hb _].
    exists c, s'. split; [|done]. apply skip_ws_head, Hb.
Qed.

Lemma spells_elements_head vs s rest :
  spells_elements vs s rest → ∃ c s', skip_ws s = String c s' ∧ c ≠ "]"%char.
Proof.
  intros Hs.
  assert (∃ v rest1, spells v s rest1) as (v & rest1 & Hv) by (destruct Hs; eauto).
  destruct (spells_head v s rest1 Hv) as (c & s' & Heq & _ & Hc & _). eauto.
Qed.

Lemma spells_members_head ms s rest :
  spells_members ms s rest → ∃ c s', skip_ws s = String c s' ∧ c ≠ "}"%char.
Proof.
  intros Hs.
  assert (∃ k rest1, read_string (skip_ws s) = Some (k, rest1)) as (k & rest1 & Hk)
    by (destruct Hs; eauto).
  unfold read_string in Hk. destruct (skip_ws s) as [|c s']; [done|].
  case_decide; [|done]. subst. by eexists _, _.
Qed.

(** The steps of the readers, with enough fuel. *)
Lemma reads_once {A} (p : nat → string → option A) s r :
  (∀ fuel, p (S fuel) s = Some r) → reads p s r.
Proof. intros Hp. exists 1. intros [|fuel'] ?; [lia | apply Hp]. Qed.

Lemma reads_number n s rest :
  read_number s = Some (n, rest) → reads parse_value s (Number n, rest).
Proof.
  intros Hn. apply reads_once. intros fuel.
  destruct (read_number_head s n rest Hn) as (c & s' & -> & Hc).
  destruct (parse_value_number fuel c s' Hc) as [_ ->]. by rewrite Hn.
Qed.

Lemma reads_array vs s rest :
  spells_elements vs s rest → reads parse_elements s (vs, rest) →
  reads parse_value (String "[" s) (Array vs, rest).
Proof.
  intros Hvs [fuel Hfuel]. exists (S fuel). intros [|fuel'] ?; [lia|].
  destruct (parse_value_first fuel' s) as (_ & -> & _).
  destruct (spells_elements_head vs s rest Hvs) as (c & s' & -> & Hc).
  by rewrite decide_False, Hfuel by (done || lia).
Qed.

Lemma reads_object ms s rest :
  spells_members ms s rest → reads parse_members s (ms, rest) →
  reads parse_value (String "{" s) (Object ms, rest).
Proof.
  intros Hms [fuel Hfuel]. exists (S fuel). intros [|fuel'] ?; [lia|].
  destruct (parse_value_first fuel' s) as (_ & _ & ->).
  destruct (spells_members_head ms s rest Hms) as (c & s' & -> & Hc).
  by rewrite decide_False, Hfuel by (done || lia).
Qed.

(** After a value of an array: the closing bracket, or a comma and the
    further elements. *)
Lemma reads_elements v vs s rest1 c rest2 rest :
  reads parse_value s (v, rest1) → skip_ws rest1 = String c rest2 →
  (c = "]"%char ∧ vs = [] ∧ rest = rest2) ∨
  (c = ","%char ∧ reads parse_elements rest2 (vs, rest)) →
  reads parse_elements s (v :: vs, rest).
Proof.
  intros [fuel1 Hfuel1] Hc [(-> & -> & ->)|[-> [fuel2 Hfuel2]]].
  - exists (S fuel1). intros [|fuel'] ?; [lia|].
    by rewrite parse_elements_S, Hfuel1, option_bind_Some, Hc by lia.
  - exists (S (fuel1 `max` fuel2)). intros [|fuel'] ?; [lia|].
    rewrite parse_elements_S, Hfuel1, option_bind_Some, Hc by lia.
    by rewrite decide_True, Hfuel2 by (done || lia).
Qed.

Lemma reads_members k v ms s rest1 rest2 rest3 c rest4 rest :
  read_string (skip_ws s) = Some (k, rest1) → skip_ws rest1 = String ":" rest2 →
  reads parse_value rest2 (v, rest3) → skip_ws rest3 = String c rest4 →
  (c = "}"%char ∧ ms = [] ∧ rest = rest4) ∨
  (c = ","%char ∧ reads parse_members rest4 (ms, rest)) →
  reads parse_members s ((k, v) :: ms, rest).
Proof.
  intros Hk Hcolon [fuel1 Hfuel1] Hc Hnext.
  assert (∀ fuel', fuel1 ≤ fuel' →
    parse_members (S fuel') s
    = match skip_ws rest3 with
      | String c rest' =>
          if decide (c = ","%char) then
            '(ms, rest'') ← parse_members fuel' rest'; Some ((k, v) :: ms, rest'')
          else if decide (c = "}"%char) then Some ([(k, v)], rest')
          else None
      | "" => None
      end) as Hstep.
  { intros fuel' ?. rewrite parse_members_S, Hk, option_bind_Some, Hcolon.
    change (expect ":" (String ":" rest2)) with (Some rest2).
    by rewrite option_bind_Some, Hfuel1 by lia. }
  destruct Hnext as [(-> & -> & ->)|[-> [fuel2 Hfuel2]]].
  - exists (S fuel1). intros [|fuel'] ?; [lia|]. by rewrite Hstep, Hc by lia.
  - exists (S (fuel1 `max` fuel2)). intros [|fuel'] ?; [lia|].
    rewrite Hstep, Hc by lia. by rewrite decide_True, Hfuel2 by (done || lia).
Qed.

(** What the text spells is what the reader returns, with enough
    fuel. *)
Lemma spells_parse :
  (∀ v s rest, spells v s rest → reads parse_value s (v, rest)) ∧
  (∀ vs s rest, spells_elements vs s rest → reads parse_elements s (vs, rest)) ∧
  (∀ ms s rest, spells_members ms s rest → reads parse_members s (ms, rest)).
Proof.
  apply spells_mutind.
  - intros c v s rest Hc _ [fuel Hfuel]. exists fuel. intros fuel' Hle.
    rewrite parse_value_blank by done. by apply Hfuel.
  - intros rest. by apply reads_once.
  - intros rest. by apply reads_once.
  - intros rest. by apply reads_once.
  - apply reads_number.
  - intros str s rest Hs. apply reads_once. intros fuel.
    by rewrite (proj1 (parse_value_first _ _)), Hs.
  - intros s rest Hs. apply reads_once. intros fuel.
    destruct (parse_value_first fuel s) as (_ & -> & _). by rewrite Hs.
  - intros vs s rest Hvs. by apply reads_array.
  - intros s rest Hs. apply reads_once. intros fuel.
    destruct (parse_value_first fuel s) as (_ & _ & ->). by rewrite Hs.
  - intros ms s rest Hms. by apply reads_object.
  - intros v s rest1 rest _ Hv Hc. eapply reads_elements; eauto.
  - intros v vs s rest1 rest2 rest _ Hv Hc _ Hvs. eapply reads_elements; eauto.
  - intros k v s rest1 rest2 rest3 rest Hk Hcolon _ Hv Hc.
    eapply reads_members; eauto.
  - intros k v ms s rest1 rest2 rest3 rest4 rest Hk Hcolon _ Hv Hc _ Hms.
    eapply reads_members; eauto.
Qed.

(** [parse] accepts the texts that spell a value and have blanks at most
    after it, and returns the value. *)
Lemma parse_spec s v :
  parse s = Some v ↔ ∃ rest, spells v s rest ∧ skip_ws rest = "".
Proof.
  unfold parse. split.
  - destruct (parse_value _ s) as [[v' rest]|] eqn:Hs; [|done]. simpl.
    case_decide; [|done]. intros [= ->]. exists rest. split; [|done].
    by eapply parse_spells.
  - intros (rest & [fuel Hfuel]%spells_parse & Hrest).
    rewrite <-(parse_value_enough (fuel `max` (2 * String.length s + 1))) by lia.
    rewrite Hfuel by lia. simpl. by rewrite decide_True.
Qed.

(** *** What [stringify] writes *)

Lemma string_app_nil_r s : s +:+ "" = s.
Proof. induction s as [|c s IH]; [done|]. by rewrite string_app_cons, IH. Qed.

Lemma stringify_elements_spells v vs rest :
  Forall (λ v, ∀ rest, ends_number rest → spells v (stringify v +:+ rest) rest) (v :: vs) →
  spells_elements (v :: vs) (stringify_elements (v :: vs) +:+ rest) rest.
Proof.
  revert v. induction vs as [|v' vs IH]; intros v [Hv Hvs]%Forall_cons_1.
  - cbn [separate]. rewrite string_app_assoc.
    by eapply spells_last; [apply Hv|].
  - change (stringify_elements (v :: v' :: vs))
      with (stringify v +:+ "," +:+ stringify_elements (v' :: vs)).
    rewrite !string_app_assoc. by eapply spells_more; [apply Hv| |apply IH].
Qed.

Lemma stringify_members_spells k v ms rest :
  Forall (λ m, ∀ rest, ends_number rest → spells m.2 (stringify m.2 +:+ rest) rest)
    ((k, v) :: ms) →
  spells_members ((k, v) :: ms) (stringify_members ((k, v) :: ms) +:+ rest) rest.
Proof.
  revert k v. induction ms as [|[k' v'] ms IH]; intros k v [Hv Hms]%Forall_cons_1.
  - cbn [separate]. rewrite !string_app_assoc.
    eapply spells_member; [apply read_string_print|done|by apply Hv|done].
  - change (stringify_members ((k, v) :: (k', v') :: ms))
      with ((print_string k +:+ ":" +:+ stringify v) +:+ ","
              +:+ stringify_members ((k', v') :: ms)).
    rewrite !string_app_assoc.
    eapply spells_members_more; [apply read_string_print|done|by apply Hv|done|].
    by apply IH.
Qed.

Lemma stringify_spells v rest :
  ends_number rest → spells v (stringify v +:+ rest) rest.
Proof.
  revert rest.
  induction v as [|[]|n|str|vs IH|ms IH] using Value_ind; intros rest Hend.
  - apply spells_null.
  - apply spells_true.
  - apply spells_false.
  - by apply spells_number, read_number_print.
  - cbn [stringify]. unfold print_string. rewrite string_app_cons, string_app_assoc.
    apply spells_string, read_string_body_escape.
  - destruct vs as [|v vs]; [by apply (spells_array_empty (String "]" rest))|].
    apply (spells_array _ (stringify_elements (v :: vs) +:+ rest)).
    by apply stringify_elements_spells.
  - destruct ms as [|[k v] ms]; [by apply (spells_object_empty (String "}" rest))|].
    apply (spells_object _ (stringify_members ((k, v) :: ms) +:+ rest)).
    by apply stringify_members_spells.
Qed.

(** The round trip. *)
Lemma parse_stringify v : parse (stringify v) = Some v.
Proof.
  apply parse_spec. exists "". split; [|done].
  rewrite <-(string_app_nil_r (stringify v)) at 1. by apply stringify_spells.
Qed.

End grammar.
