(* ===== verification/Json.v ===== *)
(** * Json: the persisted layout

    The spec's section 6 gives the layout of the stored value: a JSON array
    of objects with the string fields [id], [title], [body] and the number
    fields [createdAt] and [updateAt].  This file is a [Codec] for it, over
    the JSON texts of [JsonValue]:

    - [encode_json] is [JSON.stringify] of the array: every memo is the
      object [to_value] makes of it, with the fields in the order in
      which [newMemo] writes them;
    - [decode_json] is [JSON.parse] and the test of the shape the spec
      asks of [load]: the text is a JSON text, its value is an array, and
      every element is an object that has the five fields with values of
      their types ([as_memo]).  Blanks, the order of the fields, other
      escapes and further fields make no difference; of a field that
      occurs twice the last occurrence counts, as in [JSON.parse].
      Everything else is refused, and [readLacalStorage] then returns no
      memo.

    The law of the interface, [decode_encode], is the round trip
    ([decode_encode_json]); [decode_json_spec] says which texts are
    accepted, in terms of the grammar. *)

From S2P Require Import Prelude Memo Storage JsonValue.
From Stdlib Require Import Ascii.

(** ** From memos to values *)

Definition to_value (memo : Memo) : Value :=
  Object [("id", Str (id memo)); ("title", Str (title memo));
          ("body", Str (body memo)); ("createdAt", Number (createdAt memo));
          ("updateAt", Number (updateAt memo))].

Definition encode_json (memos : list Memo) : string :=
  stringify (Array (to_value <$> memos)).

(** ** From values to memos *)

(** The value of the member named [k], the last one when there are
    several. *)
Definition member (k : string) (ms : list (string * Value)) : option Value :=
  snd <$> last (filter (λ m, m.1 = k) ms).

Definition as_string (v : Value) : option string :=
  match v with
  | Str s => Some s
  | _ => None
  end.

Definition as_number (v : Value) : option Z :=
  match v with
  | Number n => Some n
  | _ => None
  end.

Definition as_memo (v : Value) : option Memo :=
  match v with
  | Object ms =>
      i ← member "id" ms ≫= as_string;
      t ← member "title" ms ≫= as_string;
      b ← member "body" ms ≫= as_string;
      c ← member "createdAt" ms ≫= as_number;
      u ← member "updateAt" ms ≫= as_number;
      Some {| id := i; title := t; body := b; createdAt := c; updateAt := u |}
  | _ => None
  end.

Definition as_memos (v : Value) : option (list Memo) :=
  match v with
  | Array vs => mapM as_memo vs
  | _ => None
  end.

Definition decode_json (s : string) : option (list Memo) :=
  parse s ≫= as_memos.

(** The codec under the key the program uses. *)
Definition json_codec : Codec :=
  {| STORAGE_KEY := "memos"; encode := encode_json; decode := decode_json |}.

(** The names of the five fields. *)
Definition field_names : list string := ["id"; "title"; "body"; "createdAt"; "updateAt"].

(** A text to run the reader on: one memo, written with blanks and line
    feeds, the fields in another order, a field no memo has, and escapes
    [JSON.stringify] does not write. *)
Definition sample_text : string :=
  "[ {" +:+ print_string "updateAt" +:+ " : 1700000000005 ," +:+
  String "010"%char (print_string "body" +:+ ":" +:+
  String quote ("caf\u00e9 A\/B" +:+ String quote (" ," +:+
  print_string "pinned" +:+ ": true," +:+
  print_string "id" +:+ ":" +:+ print_string "17000000000000" +:+ "," +:+
  print_string "createdAt" +:+ ":1700000000000, " +:+
  print_string "title" +:+ ": " +:+ print_string "list" +:+ " } ]  "))).

(** ** The round trip *)

Section roundtrip.
Implicit Types (memo : Memo) (memos : list Memo) (s : string) (v : Value).

Lemma as_memo_to_value memo : as_memo (to_value memo) = Some memo.
Proof. by destruct memo. Qed.

Lemma as_memos_to_values memos : as_memos (Array (to_value <$> memos)) = Some memos.
Proof.
  simpl. apply mapM_Some. induction memos as [|memo memos IH]; [done|].
  rewrite fmap_cons. constructor; [apply as_memo_to_value | done].
Qed.

Lemma decode_encode_json memos : decode_json (encode_json memos) = Some memos.
Proof.
  unfold decode_json, encode_json. rewrite parse_stringify. apply as_memos_to_values.
Qed.

(** ** What is accepted *)

(** The texts [decode_json] accepts are the texts that spell an array of
    memos, with blanks at most after it. *)
Lemma decode_json_spec s memos :
  decode_json s = Some memos
  ↔ ∃ v rest, spells v s rest ∧ skip_ws rest = "" ∧ as_memos v = Some memos.
Proof.
  unfold decode_json. split.
  - destruct (parse s) as [v|] eqn:Hs; [|done]. simpl. intros Hv.
    apply parse_spec in Hs as (rest & Hs & Hrest). by exists v, rest.
  - intros (v & rest & Hs & Hrest & Hv).
    assert (parse s = Some v) as -> by (apply parse_spec; eauto). done.
Qed.

(** With names that are distinct, a member is found by its name wherever
    it stands. *)
Lemma member_NoDup k v (ms : list (string * Value)) :
  NoDup ms.*1 → member k ms = Some v ↔ (k, v) ∈ ms.
Proof.
  unfold member. induction ms as [|[k' v'] ms IH]; intros Hnd.
  { simpl. split; [done | by intros ?%elem_of_nil]. }
  apply NoDup_cons in Hnd as [Hk' Hnd]. rewrite elem_of_cons.
  destruct (decide (k' = k)) as [->|Hne].
  - rewrite filter_cons_True by done.
    assert (filter (λ m, m.1 = k) ms = []) as ->.
    { apply elem_of_nil_inv. intros [k0 v0] [Heq Hin]%list_elem_of_filter.
      simpl in Heq. subst. apply Hk', list_elem_of_fmap. by exists (k, v0). }
    simpl. split; [intros [= ->]; by left|]. intros [[= ->]|Hin]; [done|].
    destruct Hk'. apply list_elem_of_fmap. by exists (k, v).
  - rewrite filter_cons_False by done. rewrite IH by done.
    split; [by right|]. by intros [[= ? ?]|?].
Qed.

(** The order of the fields makes no difference. *)
Lemma as_memo_Permutation (ms ms' : list (string * Value)) :
  NoDup ms.*1 → ms ≡ₚ ms' → as_memo (Object ms) = as_memo (Object ms').
Proof.
  intros Hnd Hperm.
  assert (NoDup ms'.*1) as Hnd' by by rewrite <-Hperm.
  assert (∀ k, member k ms = member k ms') as Hmember.
  { intros k. apply option_eq. intros v.
    rewrite !member_NoDup by done. by rewrite Hperm. }
  simpl. by rewrite !Hmember.
Qed.

Lemma member_cons_ne k k' v (ms : list (string * Value)) :
  k' ≠ k → member k ((k', v) :: ms) = member k ms.
Proof. intros Hne. unfold member. by rewrite filter_cons_False. Qed.

(** A field that is none of the five makes no difference. *)
Lemma as_memo_extra k v (ms : list (string * Value)) :
  k ∉ field_names → as_memo (Object ((k, v) :: ms)) = as_memo (Object ms).
Proof.
  intros Hk. unfold as_memo.
  by rewrite !member_cons_ne by (intros ->; apply Hk; unfold field_names; set_solver).
Qed.

End roundtrip.

(** The codec keeps the law of the interface. *)
Lemma json_codec_laws : @CodecLaws json_codec.
Proof. split. exact decode_encode_json. Qed.

(** The reader at work on [sample_text]. *)
Lemma decode_json_sample :
  decode_json sample_text
  = Some [{| id := "17000000000000"; title := "list";
             body := "caf" +:+ utf8 233 +:+ " A/B";
             createdAt := 1700000000000; updateAt := 1700000000005 |}].
Proof. by vm_compute. Qed.
