(* ===== verification/App.v ===== *)
(** * App: the state of the program and its handlers

    The state [World] holds the two module-level variables of index.ts
    (lines 27-28), the page, and the parts of the browser the handlers
    write: [localStorage], the notices shown by [alert], the console, the
    pending continuations of [await], and the object URLs created.

    Each handler is the whole function of index.ts, statement by statement:
    [setMemoElement] (122-135), [init] (56-77), [clickAddMemo] (169-188),
    [selectedMemo] (191-208), [clickEditMemo] (211-217), [clickSaveMemo]
    (220-241), [clickDeleteMemo] (244-270) and [clickDownloadMemo]
    (273-286).  [Date.now()] is an argument; the target of the event is an
    argument where the handler reads it.

    [marked.parse] belongs to a library the sources only call: it is a
    parameter, [marked_parse], which says for a text whether the call throws,
    or returns a value or a promise that resolves to HTML, or returns a
    promise that rejects.  The assignment to [previewBody.innerHTML] follows
    an [await], so it does not happen inside the handler: the handler
    leaves a [Task], which [Machine] runs once the handler has ended. *)

From S2P Require Import Prelude Memo Dom Storage.

(** ** The markdown renderer *)

Inductive ParseResult : Type :=
| ParseThrows (error : string)
| ParseResolves (html : string)
| ParseRejects (error : string).

Class Marked : Type := {
  marked_parse : string → ParseResult;
}.

(** ** The state *)

(** What is left of the [async] block of [setMemoElement] after its
    [await]. *)
Inductive Task : Type :=
| SetPreview (html : string)
| LogError (error : string).

Inductive LogEntry : Type :=
| LogMemos (memos : list Memo)
| LogErr (error : string).

Record Blob : Type := {
  blob_parts : string;
  blob_type : string;
}.

Record World : Type := {
  memos : list Memo;
  memoIndex : Z;
  page : Page;
  localStorage : gmap string string;
  alerts : list string;
  console : list LogEntry;
  microtasks : list Task;
  objectURLs : list Blob;
}.

#[export] Instance Task_eq_dec : EqDecision Task.
Proof. solve_decision. Defined.

#[export] Instance LogEntry_eq_dec : EqDecision LogEntry.
Proof. solve_decision. Defined.

#[export] Instance Blob_eq_dec : EqDecision Blob.
Proof. solve_decision. Defined.

#[export] Instance World_eq_dec : EqDecision World.
Proof. solve_decision. Defined.

(** The state when the module is loaded, for a page and a store: the two
    declarations [let memos: Memo[] = []] and [let memoIndex = 0]. *)
Definition boot (html : Page) (store : gmap string string) : World :=
  {| memos := []; memoIndex := 0; page := html; localStorage := store;
     alerts := []; console := []; microtasks := []; objectURLs := [] |}.

Definition set_memos (f : list Memo → list Memo) (w : World) : World :=
  {| memos := f (memos w); memoIndex := memoIndex w; page := page w;
     localStorage := localStorage w; alerts := alerts w; console := console w;
     microtasks := microtasks w; objectURLs := objectURLs w |}.

Definition set_memoIndex (i : Z) (w : World) : World :=
  {| memos := memos w; memoIndex := i; page := page w;
     localStorage := localStorage w; alerts := alerts w; console := console w;
     microtasks := microtasks w; objectURLs := objectURLs w |}.

Definition set_page (p : Page) (w : World) : World :=
  {| memos := memos w; memoIndex := memoIndex w; page := p;
     localStorage := localStorage w; alerts := alerts w; console := console w;
     microtasks := microtasks w; objectURLs := objectURLs w |}.

Definition set_localStorage (f : gmap string string → gmap string string)
    (w : World) : World :=
  {| memos := memos w; memoIndex := memoIndex w; page := page w;
     localStorage := f (localStorage w); alerts := alerts w; console := console w;
     microtasks := microtasks w; objectURLs := objectURLs w |}.

(** [alert(msg)]. *)
Definition alert (msg : string) (w : World) : World :=
  {| memos := memos w; memoIndex := memoIndex w; page := page w;
     localStorage := localStorage w; alerts := alerts w ++ [msg];
     console := console w;
     microtasks := microtasks w; objectURLs := objectURLs w |}.

(** [console.log] and [console.error]. *)
Definition console_log (entry : LogEntry) (w : World) : World :=
  {| memos := memos w; memoIndex := memoIndex w; page := page w;
     localStorage := localStorage w; alerts := alerts w;
     console := console w ++ [entry];
     microtasks := microtasks w; objectURLs := objectURLs w |}.

(** Leave a continuation for after the handler. *)
Definition enqueue (t : Task) (w : World) : World :=
  {| memos := memos w; memoIndex := memoIndex w; page := page w;
     localStorage := localStorage w; alerts := alerts w; console := console w;
     microtasks := microtasks w ++ [t]; objectURLs := objectURLs w |}.

Definition set_microtasks (ts : list Task) (w : World) : World :=
  {| memos := memos w; memoIndex := memoIndex w; page := page w;
     localStorage := localStorage w; alerts := alerts w; console := console w;
     microtasks := ts; objectURLs := objectURLs w |}.

(** A function of Dom, run on the page of the world. *)
Definition dom {A} (c : Eff Page Exn A) : Eff World Exn A := zoom page set_page c.

(** [URL.createObjectURL(blob)]: the URL names the blob by its position
    in the registry. *)
Definition createObjectURL (blob : Blob) : Eff World Exn string :=
  url <- gets (λ w, "blob:" +:+ pretty (length (objectURLs w))) ;;
  modify (λ w,
    {| memos := memos w; memoIndex := memoIndex w; page := page w;
       localStorage := localStorage w; alerts := alerts w; console := console w;
       microtasks := microtasks w; objectURLs := objectURLs w ++ [blob] |}) ;;
  ret url.

(** The messages of the [TypeError] for a property of [undefined]. *)
Definition reading (property : string) : string :=
  "Cannot read properties of undefined (reading '" +:+ property +:+ "')".

Definition setting (property : string) : string :=
  "Cannot set properties of undefined (setting '" +:+ property +:+ "')".

(** [memos[memoIndex]], then the first use of a property of it: a
    [TypeError] with message [msg] when the index is outside the array. *)
Definition current_memo (msg : string) : Eff World Exn Memo :=
  memo <- gets (λ w, js_nth (memos w) (memoIndex w)) ;;
  unwrap (TypeError msg) memo.

(** ** The handlers *)

Section handlers.
Context `{Codec} `{Marked}.
Local Open Scope Z_scope.

(** The [async] block of [setMemoElement], up to its [await]: the call of
    [marked.parse] is made at once, and a throw of it is caught and logged
    at once; otherwise the rest of the block waits for the promise. *)
Definition render_preview (text : string) (w : World) : World :=
  match marked_parse text with
  | ParseThrows error => console_log (LogErr error) w
  | ParseResolves html => enqueue (SetPreview html) w
  | ParseRejects error => enqueue (LogError error) w
  end.

Definition setMemoElement : Eff World Exn unit :=
  memo <- current_memo (reading "title") ;;
  dom (update_elem MemoTitle (set_value (title memo))) ;;
  dom (update_elem MemoBody (set_value (body memo))) ;;
  modify (render_preview (body memo)).

(** [init()]; [timestamp1] and [timestamp2] are what the two calls of
    [Date.now()] return when the store holds no memo. *)
Definition init (timestamp1 timestamp2 : Z) : Eff World Exn unit :=
  modify (λ w, set_memos (λ _, readLacalStorage STORAGE_KEY (localStorage w)) w) ;;
  modify (λ w, console_log (LogMemos (memos w)) w) ;;
  n <- gets (λ w, js_length (memos w)) ;;
  (if decide (n = 0)
   then
     modify (set_memos (λ ms, ms ++ [newMemo timestamp1 ms])) ;;
     modify (set_memos (λ ms, ms ++ [newMemo timestamp2 ms])) ;;
     modify (λ w, set_localStorage (saveLocalStorage STORAGE_KEY (memos w)) w)
   else ret tt) ;;
  modify (λ w, console_log (LogMemos (memos w)) w) ;;
  ms <- gets memos ;;
  dom (showMemoElements ms) ;;
  i <- gets memoIndex ;;
  dom (setActiveStyle (i + 1) true) ;;
  setMemoElement ;;
  dom (setHiddenButton SaveButton false) ;;
  dom (setHiddenButton EditButton true).

Definition clickAddMemo (now : Z) : Eff World Exn unit :=
  dom (setEditMode true) ;;
  dom (setHiddenButton SaveButton true) ;;
  dom (setHiddenButton EditButton false) ;;
  modify (set_memos (λ ms, ms ++ [newMemo now ms])) ;;
  modify (λ w, set_localStorage (saveLocalStorage STORAGE_KEY (memos w)) w) ;;
  modify (λ w, set_memoIndex (js_length (memos w) - 1) w) ;;
  ms <- gets memos ;;
  dom (showMemoElements ms) ;;
  i <- gets memoIndex ;;
  dom (setActiveStyle (i + 1) true) ;;
  setMemoElement.

(** [target] is the label that was clicked. *)
Definition selectedMemo (target : Element) : Eff World Exn unit :=
  i <- gets memoIndex ;;
  dom (setActiveStyle (i + 1) false) ;;
  let id := getAttribute "data-id" target in
  modify (λ w, set_memoIndex (findIndexById id (memos w)) w) ;;
  setMemoElement ;;
  i <- gets memoIndex ;;
  dom (setActiveStyle (i + 1) true) ;;
  dom (setEditMode false) ;;
  dom (setHiddenButton SaveButton false) ;;
  dom (setHiddenButton EditButton true).

Definition clickEditMemo : Eff World Exn unit :=
  dom (setEditMode true) ;;
  dom (setHiddenButton SaveButton true) ;;
  dom (setHiddenButton EditButton false).

Definition clickSaveMemo (now : Z) : Eff World Exn unit :=
  memo <- current_memo (setting "title") ;;
  t <- gets (λ w, value (memoTitle (page w))) ;;
  b <- gets (λ w, value (memoBody (page w))) ;;
  modify (λ w, set_memos <[Z.to_nat (memoIndex w) := updateMemo t b now memo]> w) ;;
  modify (λ w, set_localStorage (saveLocalStorage STORAGE_KEY (memos w)) w) ;;
  dom (setEditMode false) ;;
  dom (setHiddenButton SaveButton false) ;;
  dom (setHiddenButton EditButton true) ;;
  ms <- gets memos ;;
  dom (showMemoElements ms) ;;
  i <- gets memoIndex ;;
  dom (setActiveStyle (i + 1) true) ;;
  i <- gets memoIndex ;;
  dom (setActiveStyle (i + 1) true) ;;
  setMemoElement.

Definition clickDeleteMemo : Eff World Exn unit :=
  n <- gets (λ w, js_length (memos w)) ;;
  if decide (n = 1)
  then modify (alert "これ以上は削除できません")
  else
    memo <- current_memo (reading "id") ;;
    let memoId := id memo in
    modify (set_memos (removeById memoId)) ;;
    modify (λ w, set_localStorage (saveLocalStorage STORAGE_KEY (memos w)) w) ;;
    i <- gets memoIndex ;;
    (if decide (1 ≤ i) then modify (set_memoIndex (i - 1)) else ret tt) ;;
    setMemoElement ;;
    dom (setEditMode false) ;;
    dom (setHiddenButton SaveButton false) ;;
    dom (setHiddenButton EditButton true) ;;
    ms <- gets memos ;;
    dom (showMemoElements ms) ;;
    i <- gets memoIndex ;;
    dom (setActiveStyle (i + 1) true).

(** [target] is the element that was clicked: the download link, to which
    the listener is attached. *)
Definition clickDownloadMemo (target : ElemRef) : Eff World Exn unit :=
  memo <- current_memo (reading "title") ;;
  dom (update_elem target (setAttribute "download" (title memo +:+ ".md"))) ;;
  url <- createObjectURL
    {| blob_parts := body memo; blob_type := "application/octet-stream" |} ;;
  dom (update_elem target (setAttribute "href" url)).

End handlers.

(** ** What the handlers leave behind

    The state after a handler that returns, written out field by field.
    The lemmas [*_run] below say when the handler returns and that this is
    the state it returns in. *)

Section posts.
Context `{Codec} `{Marked}.
Local Open Scope Z_scope.

(** The detail fields showing [memo]. *)
Definition page_show (memo : Memo) (p : Page) : Page :=
  set_elem MemoBody (set_value (body memo) (memoBody p))
    (set_elem MemoTitle (set_value (title memo) (memoTitle p)) p).

Definition setMemoElement_post (memo : Memo) (w : World) : World :=
  render_preview (body memo) (set_page (page_show memo (page w)) w).

(** The world after the array, the index and the mode were changed and the
    page rebuilt from them. *)
Definition refreshed (editMode : bool) (ms : list Memo) (k : nat) (memo : Memo)
    (w : World) : World :=
  setMemoElement_post memo
    {| memos := ms;
       memoIndex := Z.of_nat k;
       page := set_memoList (λ _, labels ms (Z.of_nat k)) (page_setMode editMode (page w));
       localStorage := localStorage w;
       alerts := alerts w; console := console w;
       microtasks := microtasks w; objectURLs := objectURLs w |}.

Definition persist (w : World) : World :=
  set_localStorage (saveLocalStorage STORAGE_KEY (memos w)) w.

Definition clickAddMemo_post (now : Z) (w : World) : World :=
  let memo := newMemo now (memos w) in
  let ms := memos w ++ [memo] in
  refreshed true ms (length (memos w)) memo
    (set_localStorage (saveLocalStorage STORAGE_KEY ms) w).

Definition selectedMemo_post (j : nat) (memo : Memo) (w : World) : World :=
  refreshed false (memos w) j memo w.

Definition clickEditMemo_post (w : World) : World :=
  set_page (page_setMode true (page w)) w.

Definition clickSaveMemo_post (now : Z) (k : nat) (memo : Memo) (w : World) : World :=
  let memo' := updateMemo (value (memoTitle (page w))) (value (memoBody (page w))) now memo in
  let ms := <[k := memo']> (memos w) in
  refreshed false ms k memo'
    (set_localStorage (saveLocalStorage STORAGE_KEY ms) w).

Definition clickDeleteMemo_post (memoId : string) (k' : nat) (memo' : Memo)
    (w : World) : World :=
  let ms := removeById memoId (memos w) in
  refreshed false ms k' memo'
    (set_localStorage (saveLocalStorage STORAGE_KEY ms) w).

Definition clickDownloadMemo_post (target : ElemRef) (memo : Memo) (w : World) : World :=
  let blob := {| blob_parts := body memo; blob_type := "application/octet-stream" |} in
  let url := "blob:" +:+ pretty (length (objectURLs w)) in
  {| memos := memos w; memoIndex := memoIndex w;
     page :=
       set_elem target
         (setAttribute "href" url
            (setAttribute "download" (title memo +:+ ".md") (get_elem target (page w))))
         (page w);
     localStorage := localStorage w; alerts := alerts w; console := console w;
     microtasks := microtasks w; objectURLs := objectURLs w ++ [blob] |}.

(** The array [init] works with: what the store holds, or the two
    default memos when it holds none. *)
Definition initial_memos (timestamp1 timestamp2 : Z) (loaded : list Memo) : list Memo :=
  if decide (js_length loaded = 0)
  then
    let memo1 := newMemo timestamp1 loaded in
    (loaded ++ [memo1]) ++ [newMemo timestamp2 (loaded ++ [memo1])]
  else loaded.

Definition init_post (timestamp1 timestamp2 : Z) (memo : Memo) (w : World) : World :=
  let loaded := readLacalStorage STORAGE_KEY (localStorage w) in
  let ms := initial_memos timestamp1 timestamp2 loaded in
  let p := set_memoList (λ _, labels ms (memoIndex w)) (page_show memo (page w)) in
  let p := set_elem SaveButton (setAttribute "hidden" "hidden" (saveButton p)) p in
  let p := set_elem EditButton (removeAttribute "hidden" (editButton p)) p in
  set_page p
    (render_preview (body memo)
       {| memos := ms;
          memoIndex := memoIndex w;
          page := page w;
          localStorage :=
            if decide (js_length loaded = 0)
            then saveLocalStorage STORAGE_KEY ms (localStorage w)
            else localStorage w;
          alerts := alerts w;
          console := (console w ++ [LogMemos loaded]) ++ [LogMemos ms];
          microtasks := microtasks w; objectURLs := objectURLs w |}).

End posts.

(** ** Running the handlers *)

Lemma dom_bind {A B} (c : Eff Page Exn A) (k : A → Eff World Exn B) w a p' :
  c (page w) = (p', Done a) → (x <- dom c ;; k x) w = k a (set_page p' w).
Proof. intros Hc. unfold bind, dom, zoom. by rewrite Hc. Qed.

Lemma dom_run {A} (c : Eff Page Exn A) w a p' :
  c (page w) = (p', Done a) → dom c w = (set_page p' w, Done a).
Proof. intros Hc. unfold dom, zoom. by rewrite Hc. Qed.

Lemma dom_bind_throws {A B} (c : Eff Page Exn A) (k : A → Eff World Exn B) w e p' :
  c (page w) = (p', Thrown e) → (x <- dom c ;; k x) w = (set_page p' w, Thrown e).
Proof. intros Hc. unfold bind, dom, zoom. by rewrite Hc. Qed.

Lemma set_page_page w : set_page (page w) w = w.
Proof. by destruct w. Qed.

(** One step of a handler: a read, a write, or a function of Dom that
    returns. *)
Ltac dom_step :=
  first
  [ rewrite (dom_bind _ _ _ _ _ (setEditMode_run _ _))
  | rewrite (dom_bind _ _ _ _ _ (setHiddenButton_run _ _ _))
  | rewrite (dom_bind _ _ _ _ _ (showMemoElements_run _ _))
  | rewrite (dom_run _ _ _ _ (setHiddenButton_run _ _ _))
  | rewrite (dom_bind (update_elem _ _) _ _ tt _ eq_refl)
  | rewrite (dom_run (update_elem _ _) _ tt _ eq_refl) ].

Ltac eff_step :=
  first [ rewrite (bind_assoc _ _ _ _) | rewrite bind_gets | rewrite bind_modify
        | rewrite bind_ret_l | dom_step ].

Ltac eff_run := repeat eff_step.

(** Mark the label at the index [Hk] speaks of, in a list that was just
    rebuilt. *)
Ltac mark_fresh Hk :=
  first
  [ erewrite dom_bind; [|eapply setActiveStyle_fresh; [reflexivity | exact Hk]]
  | erewrite dom_run; [|eapply setActiveStyle_fresh; [reflexivity | exact Hk]] ].

(** Read a field of a world that was written field by field. *)
Ltac world_simpl :=
  cbn [memos memoIndex page localStorage alerts console microtasks objectURLs
       set_memos set_memoIndex set_page set_localStorage alert console_log
       enqueue set_microtasks memoList set_memoList].

Section runs.
Context `{Codec} `{Marked}.
Local Open Scope Z_scope.
Implicit Types (w : World) (k j : nat) (memo : Memo) (now : Z).

(** [render_preview] writes the console or the queue and nothing else. *)
Lemma render_preview_fields text w :
  render_preview text w =
  {| memos := memos w; memoIndex := memoIndex w; page := page w;
     localStorage := localStorage w; alerts := alerts w;
     console :=
       match marked_parse text with
       | ParseThrows error => console w ++ [LogErr error]
       | _ => console w
       end;
     microtasks :=
       match marked_parse text with
       | ParseThrows _ => microtasks w
       | ParseResolves html => microtasks w ++ [SetPreview html]
       | ParseRejects error => microtasks w ++ [LogError error]
       end;
     objectURLs := objectURLs w |}.
Proof. unfold render_preview. by destruct (marked_parse text), w. Qed.

Lemma setMemoElement_post_fields memo w :
  memos (setMemoElement_post memo w) = memos w ∧
  memoIndex (setMemoElement_post memo w) = memoIndex w ∧
  page (setMemoElement_post memo w) = page_show memo (page w) ∧
  localStorage (setMemoElement_post memo w) = localStorage w ∧
  alerts (setMemoElement_post memo w) = alerts w ∧
  objectURLs (setMemoElement_post memo w) = objectURLs w.
Proof. unfold setMemoElement_post. by rewrite render_preview_fields. Qed.

(** The fields of [refreshed] that do not depend on the renderer. *)
Lemma refreshed_fields editMode ms k memo w :
  memos (refreshed editMode ms k memo w) = ms ∧
  memoIndex (refreshed editMode ms k memo w) = Z.of_nat k ∧
  page (refreshed editMode ms k memo w)
  = page_show memo
      (set_memoList (λ _, labels ms (Z.of_nat k)) (page_setMode editMode (page w))) ∧
  localStorage (refreshed editMode ms k memo w) = localStorage w ∧
  alerts (refreshed editMode ms k memo w) = alerts w ∧
  objectURLs (refreshed editMode ms k memo w) = objectURLs w.
Proof.
  unfold refreshed.
  exact (setMemoElement_post_fields memo (Build_World _ _ _ _ _ _ _ _)).
Qed.

Lemma current_memo_run msg w k memo :
  memoIndex w = Z.of_nat k → memos w !! k = Some memo →
  current_memo msg w = (w, Done memo).
Proof.
  intros Hi Hk. unfold current_memo. rewrite bind_gets, Hi, js_nth_nat, Hk. done.
Qed.

Lemma current_memo_throws msg w :
  js_nth (memos w) (memoIndex w) = None →
  current_memo msg w = (w, Thrown (TypeError msg)).
Proof. intros Hk. unfold current_memo. rewrite bind_gets, Hk. eauto. Qed.

Lemma setMemoElement_run w k memo :
  memoIndex w = Z.of_nat k → memos w !! k = Some memo →
  setMemoElement w = (setMemoElement_post memo w, Done tt).
Proof.
  intros Hi Hk. unfold setMemoElement.
  rewrite (bind_returns _ _ _ _ _ (current_memo_run _ _ _ _ Hi Hk)).
  by eff_run.
Qed.

(** Outside the array: [memo] is [undefined] and [memo.title] throws
    before anything is written. *)
Lemma setMemoElement_throws w :
  js_nth (memos w) (memoIndex w) = None →
  setMemoElement w = (w, Thrown (TypeError (reading "title"))).
Proof.
  intros Hk. unfold setMemoElement.
  by rewrite (bind_throws _ _ _ _ _ (current_memo_throws _ w Hk)).
Qed.

(** [setMemoElement] at the index [Hk] speaks of. *)
Ltac show_memo Hk :=
  let index := (world_simpl; first [reflexivity | eassumption]) in
  first
  [ erewrite (bind_returns setMemoElement);
    [|unfold returns; eapply setMemoElement_run; [|exact Hk]; index]
  | erewrite setMemoElement_run; [| |exact Hk]; [|index] ].

Lemma clickEditMemo_run w : clickEditMemo w = (clickEditMemo_post w, Done tt).
Proof. unfold clickEditMemo. by eff_run. Qed.

(** [clickAddMemo] always returns. *)
Lemma clickAddMemo_run now w :
  clickAddMemo now w = (clickAddMemo_post now w, Done tt).
Proof.
  unfold clickAddMemo. eff_run. world_simpl. rewrite js_length_snoc.
  assert ((memos w ++ [newMemo now (memos w)]) !! length (memos w)
          = Some (newMemo now (memos w))) as Hk by by apply list_lookup_middle.
  mark_fresh Hk. by show_memo Hk.
Qed.

(** Mark or unmark the label at the index [Hk] speaks of, on a page that
    shows [labels]. *)
Ltac mark_labels Hk :=
  let shown := (first [reflexivity | eassumption]) in
  first
  [ erewrite dom_bind;
    [|eapply setActiveStyle_labels; [shown | exact Hk | lia]]
  | erewrite dom_run;
    [|eapply setActiveStyle_labels; [shown | exact Hk | lia]] ].

(** Name the fields of the world and replace the index by the position
    the hypotheses give it. *)
Ltac open_world w :=
  destruct w as [ms i p store notices log queue urls]; simpl in *; subst.

(** A click on a label whose identifier is found at [j]. *)
Lemma selectedMemo_run target w k j memo0 memo :
  memoIndex w = Z.of_nat k →
  memoList (page w) = labels (memos w) (Z.of_nat k) →
  memos w !! k = Some memo0 →
  findIndexById (getAttribute "data-id" target) (memos w) = Z.of_nat j →
  memos w !! j = Some memo →
  selectedMemo target w = (selectedMemo_post j memo w, Done tt).
Proof.
  intros Hi Hp Hk Hf Hj. destruct w as [ms i p store notices log queue urls].
  simpl in *. subst i. unfold selectedMemo. eff_run. world_simpl.
  mark_labels Hk. eff_run. world_simpl. rewrite Hf. show_memo Hj.
  unfold setMemoElement_post. rewrite !render_preview_fields.
  eff_run. world_simpl. mark_labels Hj. eff_run.
  unfold selectedMemo_post, refreshed, setMemoElement_post.
  by rewrite render_preview_fields.
Qed.

(** A click on a label whose identifier is not found: the old label is
    unmarked, the index becomes -1, and [memo.title] throws. *)
Lemma selectedMemo_throws target w k memo0 :
  memoIndex w = Z.of_nat k →
  memoList (page w) = labels (memos w) (Z.of_nat k) →
  memos w !! k = Some memo0 →
  findIndexById (getAttribute "data-id" target) (memos w) = -1 →
  selectedMemo target w =
    (set_memoIndex (-1)
       (set_page (set_memoList (λ _, labels (memos w) (-1)) (page w)) w),
     Thrown (TypeError (reading "title"))).
Proof.
  intros Hi Hp Hk Hf. open_world w. unfold selectedMemo. eff_run. world_simpl.
  mark_labels Hk. eff_run. world_simpl. rewrite Hf.
  by erewrite bind_throws by (by apply setMemoElement_throws).
Qed.

Lemma clickSaveMemo_run now w k memo :
  memoIndex w = Z.of_nat k → memos w !! k = Some memo →
  clickSaveMemo now w = (clickSaveMemo_post now k memo w, Done tt).
Proof.
  intros Hi Hk. open_world w. unfold clickSaveMemo.
  erewrite bind_returns by (by eapply current_memo_run).
  eff_run. world_simpl. rewrite Nat2Z.id.
  set (memo' := updateMemo _ _ _ _).
  assert (<[k := memo']> ms !! k = Some memo') as Hk'.
  { apply list_lookup_insert_eq. by eapply lookup_lt_Some. }
  mark_fresh Hk'. eff_run. world_simpl. mark_labels Hk'.
  by show_memo Hk'.
Qed.

(** The last memo is not deleted: a notice, and nothing else changes. *)
Lemma clickDeleteMemo_last w :
  length (memos w) = 1%nat →
  clickDeleteMemo w = (alert "これ以上は削除できません" w, Done tt).
Proof.
  intros Hn. unfold clickDeleteMemo. rewrite bind_gets. unfold js_length.
  rewrite Hn. by rewrite decide_True.
Qed.

(** The statement [if (1 <= memoIndex) memoIndex--] on a natural index. *)
Lemma step_back_run {B} (c : Eff World Exn B) w k :
  memoIndex w = Z.of_nat k →
  ((if decide (1 ≤ Z.of_nat k) then modify (set_memoIndex (Z.of_nat k - 1))
    else ret tt) ;; c) w
  = c (set_memoIndex (Z.of_nat (k - 1)) w).
Proof.
  intros Hi. case_decide.
  - rewrite bind_modify. by replace (Z.of_nat k - 1) with (Z.of_nat (k - 1)) by lia.
  - rewrite bind_ret_l. f_equal. destruct w. simpl in *. subst.
    by replace (Z.of_nat (k - 1)) with (Z.of_nat k) by lia.
Qed.

(** Any other deletion removes every memo that has the identifier of the
    selected one, steps the index back by one unless it is 0, and returns if
    there is a memo at the new index. *)
Lemma clickDeleteMemo_run w k memo memo' :
  length (memos w) ≠ 1%nat →
  memoIndex w = Z.of_nat k → memos w !! k = Some memo →
  removeById (id memo) (memos w) !! (k - 1)%nat = Some memo' →
  clickDeleteMemo w = (clickDeleteMemo_post (id memo) (k - 1) memo' w, Done tt).
Proof.
  intros Hn Hi Hk Hk'. open_world w. unfold clickDeleteMemo. rewrite bind_gets.
  rewrite decide_False by (unfold js_length; simpl; lia).
  erewrite bind_returns by (by eapply current_memo_run).
  eff_run. world_simpl. rewrite step_back_run by done.
  world_simpl. show_memo Hk'.
  unfold setMemoElement_post. rewrite !render_preview_fields.
  eff_run. world_simpl. mark_fresh Hk'.
  unfold clickDeleteMemo_post, refreshed, setMemoElement_post.
  by rewrite render_preview_fields.
Qed.

(** Nothing at the index: [memos[memoIndex].id] throws before anything is
    written. *)
Lemma clickDeleteMemo_throws w :
  length (memos w) ≠ 1%nat →
  js_nth (memos w) (memoIndex w) = None →
  clickDeleteMemo w = (w, Thrown (TypeError (reading "id"))).
Proof.
  intros Hn Hk. unfold clickDeleteMemo. rewrite bind_gets.
  rewrite decide_False by (unfold js_length; lia).
  by rewrite (bind_throws _ _ _ _ _ (current_memo_throws _ w Hk)).
Qed.

(** A deletion that leaves nothing at the index it steps back to: the
    memos are removed, the store is written, the index is moved, and then
    [memo.title] throws in [setMemoElement]. *)
Lemma clickDeleteMemo_strands w k memo :
  length (memos w) ≠ 1%nat →
  memoIndex w = Z.of_nat k → memos w !! k = Some memo →
  removeById (id memo) (memos w) !! (k - 1)%nat = None →
  clickDeleteMemo w =
    (set_memoIndex (Z.of_nat (k - 1)) (persist (set_memos (removeById (id memo)) w)),
     Thrown (TypeError (reading "title"))).
Proof.
  intros Hn Hi Hk Hk'. open_world w. unfold clickDeleteMemo. rewrite bind_gets.
  rewrite decide_False by (unfold js_length; simpl; lia).
  erewrite bind_returns by (by eapply current_memo_run).
  eff_run. world_simpl. rewrite step_back_run by done.
  erewrite bind_throws; [done|]. apply setMemoElement_throws.
  world_simpl. by rewrite js_nth_nat.
Qed.

Lemma clickDownloadMemo_run target w k memo :
  memoIndex w = Z.of_nat k → memos w !! k = Some memo →
  clickDownloadMemo target w = (clickDownloadMemo_post target memo w, Done tt).
Proof.
  intros Hi Hk. unfold clickDownloadMemo, createObjectURL.
  erewrite bind_returns by (by eapply current_memo_run).
  eff_run. unfold clickDownloadMemo_post. f_equal. by destruct target.
Qed.

Lemma initial_memos_nonempty timestamp1 timestamp2 loaded :
  ∃ memo, initial_memos timestamp1 timestamp2 loaded !! 0%nat = Some memo.
Proof.
  unfold initial_memos, js_length. destruct loaded as [|memo loaded]; simpl; eauto.
Qed.

(** [init] on the state the module starts in, where [memoIndex] is 0. *)
Lemma init_run timestamp1 timestamp2 w memo :
  memoIndex w = 0 →
  initial_memos timestamp1 timestamp2
    (readLacalStorage STORAGE_KEY (localStorage w)) !! 0%nat = Some memo →
  init timestamp1 timestamp2 w = (init_post timestamp1 timestamp2 memo w, Done tt).
Proof.
  intros Hi Hk. open_world w. unfold init, init_post. eff_run. world_simpl.
  unfold initial_memos in *. rewrite render_preview_fields.
  case_decide; eff_run; world_simpl; change (0 + 1) with (Z.of_nat 0 + 1);
    mark_fresh Hk; show_memo Hk;
    unfold setMemoElement_post; rewrite render_preview_fields; by eff_run.
Qed.

(** The fields of [init_post] that do not depend on the renderer. *)
Lemma init_post_fields timestamp1 timestamp2 memo w :
  let w' := init_post timestamp1 timestamp2 memo w in
  let loaded := readLacalStorage STORAGE_KEY (localStorage w) in
  memos w' = initial_memos timestamp1 timestamp2 loaded ∧
  memoIndex w' = memoIndex w ∧
  localStorage w'
  = (if decide (js_length loaded = 0)
     then saveLocalStorage STORAGE_KEY (memos w') (localStorage w)
     else localStorage w) ∧
  memoList (page w') = labels (memos w') (memoIndex w) ∧
  editButton (page w') = removeAttribute "hidden" (editButton (page w)) ∧
  saveButton (page w') = setAttribute "hidden" "hidden" (saveButton (page w)) ∧
  memoTitle (page w') = set_value (title memo) (memoTitle (page w)) ∧
  memoBody (page w') = set_value (body memo) (memoBody (page w)) ∧
  previewBody (page w') = previewBody (page w).
Proof. intros w' loaded. subst w'. unfold init_post. by rewrite render_preview_fields. Qed.

End runs.
