(* ===== verification/Sample.v ===== *)
(** * Sample: a renderer, a page and a state to run the model on

    The theorems of the development hold for every serialization that
    keeps the law of [CodecLaws], every renderer and every page.  This
    file fixes one of each, so that the definitions can be run and the
    theorems applied to concrete states: the JSON codec of [Json], a
    renderer that wraps the text in a paragraph, and a page whose elements
    have no attribute yet. *)

From S2P Require Import Prelude Memo Dom Storage Json App.

(** A renderer that resolves at once. *)
Definition sample_marked : Marked :=
  {| marked_parse text := ParseResolves ("<p>" +:+ text +:+ "</p>") |}.

(** The elements index.ts looks up, before any script has run. *)
Definition blank_page : Page :=
  {| memoList := [];
     editButton := createElement; saveButton := createElement;
     memoTitle := createElement; memoBody := createElement;
     previewBody := createElement; downloadLink := createElement |}.

(** The two times at which the first two memos are made. *)
Definition sample_time1 : Z := 1700000000000.
Definition sample_time2 : Z := 1700000000001.
Definition sample_time3 : Z := 1700000000002.

(** The state in which [init] leaves the program on an empty store. *)
Definition sample_world : World :=
  (@init json_codec sample_marked sample_time1 sample_time2 (boot blank_page ∅)).1.
