(* ===== verification/Invariant.v ===== *)
(** * Invariant: what holds between any two events

    [Inv] is the invariant of the running program: the index addresses a
    memo, identifiers are distinct, the list of labels is the one the array
    and the index call for, and a fresh read of the store returns the
    array.  It is decidable, so it can be checked on a concrete state by
    computation.

    Every handler keeps it, and under it no handler throws.  The one
    assumption is on [clickAddMemo]: the identifier [newMemo] builds must not
    be in use ([fresh]); file [Machine] shows what happens when it is. *)

From S2P Require Import Prelude Memo Dom Storage App.

Section invariant.
Context `{Codec} `{Marked}.
Local Open Scope Z_scope.

Definition Inv (w : World) : Prop :=
  is_Some (js_nth (memos w) (memoIndex w)) ∧
  NoDup (ids (memos w)) ∧
  memoList (page w) = labels (memos w) (memoIndex w) ∧
  persisted (memos w) (localStorage w).

#[export] Instance Inv_dec w : Decision (Inv w).
Proof. unfold Inv, persisted. apply _. Defined.

(** The identifier a new memo would get is not in use. *)
Definition fresh (now : Z) (w : World) : Prop :=
  id (newMemo now (memos w)) ∉ ids (memos w).

#[export] Instance fresh_dec now w : Decision (fresh now w).
Proof. unfold fresh. apply _. Defined.

(** The selected memo, under the invariant. *)
Definition selected (w : World) : option Memo := js_nth (memos w) (memoIndex w).

(** The detail view is in mode [m] and its fields hold the title and the
    body of [memo]. *)
Definition displays (m : Mode) (memo : Memo) (w : World) : Prop :=
  shows m (page w) ∧
  value (memoTitle (page w)) = title memo ∧
  value (memoBody (page w)) = body memo.

#[export] Instance displays_dec m memo w : Decision (displays m memo w).
Proof. unfold displays. apply _. Defined.

Implicit Types (w : World) (k j : nat) (memo : Memo) (now : Z) (ms : list Memo).

(** What a handler that rebuilds the page leaves behind. *)
Lemma refreshed_spec (editMode : bool) ms k memo w :
  let w' := refreshed editMode ms k memo w in
  memos w' = ms ∧ memoIndex w' = Z.of_nat k ∧
  localStorage w' = localStorage w ∧
  memoList (page w') = labels ms (Z.of_nat k) ∧
  displays (if editMode then Editing else Viewing) memo w' ∧
  alerts w' = alerts w ∧ objectURLs w' = objectURLs w.
Proof.
  intros w'. subst w'. unfold displays.
  destruct (refreshed_fields editMode ms k memo w) as (-> & -> & -> & -> & -> & ->).
  split_and!; try done.
  by destruct (page_setMode_shows editMode (page w)) as (? & ? & ? & ? & ? & ?).
Qed.

Lemma Inv_selected w :
  Inv w → ∃ k memo, memoIndex w = Z.of_nat k ∧ memos w !! k = Some memo.
Proof.
  intros ([memo Hsel] & _). apply js_nth_Some in Hsel as [Hi Hk].
  exists (Z.to_nat (memoIndex w)), memo. split; [lia | done].
Qed.

Lemma Inv_nonempty w : Inv w → (1 ≤ length (memos w))%nat.
Proof.
  intros (k & memo & _ & Hk%lookup_lt_Some)%Inv_selected. lia.
Qed.

Lemma Inv_index_range w : Inv w → 0 ≤ memoIndex w < js_length (memos w).
Proof. intros (Hsel & _). by apply js_nth_is_Some. Qed.

Context `{!CodecLaws}.

(** A state rebuilt by a handler from an array with distinct identifiers,
    an index inside it, and a store that was just written. *)
Lemma refreshed_Inv editMode ms k memo w :
  ms !! k = Some memo → NoDup (ids ms) → persisted ms (localStorage w) →
  Inv (refreshed editMode ms k memo w).
Proof.
  intros Hk Hnd Hstore. unfold Inv.
  destruct (refreshed_fields editMode ms k memo w) as (-> & -> & -> & -> & _).
  split_and!; [|done..]. rewrite js_nth_nat, Hk. eauto.
Qed.

(** [clickAddMemo] needs no more than distinct identifiers: it sets the
    index, writes the store and rebuilds the labels. *)
Lemma clickAddMemo_restores now w :
  NoDup (ids (memos w)) → fresh now w → Inv (clickAddMemo_post now w).
Proof.
  intros Hnd Hfresh. apply refreshed_Inv.
  - by apply list_lookup_middle.
  - by apply ids_snoc_NoDup.
  - apply persisted_save.
Qed.

Lemma clickAddMemo_Inv now w :
  Inv w → fresh now w → Inv (clickAddMemo_post now w).
Proof. intros (_ & Hnd & _). by apply clickAddMemo_restores. Qed.

(** Under the invariant the label at [j] carries the identifier of the
    memo at [j], and that identifier is found at [j]. *)
Lemma Inv_label w j target :
  Inv w → memoList (page w) !! j = Some target →
  ∃ memo, memos w !! j = Some memo ∧
    findIndexById (getAttribute "data-id" target) (memos w) = Z.of_nat j.
Proof.
  intros (_ & Hnd & Hlist & _) Hj. rewrite Hlist, labels_lookup in Hj.
  destruct (memos w !! j) as [memo|] eqn:Hm; [|done].
  injection Hj as <-. exists memo. split; [done|].
  rewrite label_data_id. by apply findIndexById_NoDup.
Qed.

Lemma Inv_label_id w j target :
  Inv w → memoList (page w) !! j = Some target →
  ∃ memo, memos w !! j = Some memo ∧
    getAttribute "data-id" target = Some (id memo).
Proof.
  intros (_ & _ & Hlist & _) Hj. rewrite Hlist, labels_lookup in Hj.
  destruct (memos w !! j) as [memo|] eqn:Hm; [|done].
  injection Hj as <-. exists memo. by rewrite label_data_id.
Qed.

Lemma selectedMemo_Inv w j target :
  Inv w → memoList (page w) !! j = Some target →
  ∃ memo, memos w !! j = Some memo ∧
    selectedMemo target w = (selectedMemo_post j memo w, Done tt) ∧
    Inv (selectedMemo_post j memo w).
Proof.
  intros HInv Hj. destruct (Inv_label w j target HInv Hj) as (memo & Hm & Hf).
  destruct (Inv_selected w HInv) as (k & memo0 & Hi & Hk).
  destruct HInv as (_ & Hnd & Hlist & Hstore). rewrite Hi in Hlist.
  exists memo. split_and!; [done | by eapply selectedMemo_run |].
  by apply refreshed_Inv.
Qed.

Lemma clickEditMemo_Inv w : Inv w → Inv (clickEditMemo_post w).
Proof. by intros (? & ? & ? & ?). Qed.

Lemma clickSaveMemo_Inv now w :
  Inv w →
  ∃ k memo, memoIndex w = Z.of_nat k ∧ memos w !! k = Some memo ∧
    clickSaveMemo now w = (clickSaveMemo_post now k memo w, Done tt) ∧
    Inv (clickSaveMemo_post now k memo w).
Proof.
  intros HInv. destruct (Inv_selected w HInv) as (k & memo & Hi & Hk).
  destruct HInv as (_ & Hnd & _).
  exists k, memo. split_and!; [done.. | by apply clickSaveMemo_run |].
  apply refreshed_Inv.
  - apply list_lookup_insert_eq. by eapply lookup_lt_Some.
  - by rewrite ids_insert_updateMemo.
  - apply persisted_save.
Qed.

Lemma clickDeleteMemo_last_Inv w :
  Inv w → Inv (alert "これ以上は削除できません" w).
Proof. by intros (? & ? & ? & ?). Qed.

(** With distinct identifiers a deletion removes the selected memo and no
    other. *)
Lemma clickDeleteMemo_Inv w :
  Inv w → length (memos w) ≠ 1%nat →
  ∃ k memo memo', memoIndex w = Z.of_nat k ∧ memos w !! k = Some memo ∧
    removeById (id memo) (memos w) = delete k (memos w) ∧
    delete k (memos w) !! (k - 1)%nat = Some memo' ∧
    clickDeleteMemo w = (clickDeleteMemo_post (id memo) (k - 1) memo' w, Done tt) ∧
    Inv (clickDeleteMemo_post (id memo) (k - 1) memo' w).
Proof.
  intros HInv Hlen. destruct (Inv_selected w HInv) as (k & memo & Hi & Hk).
  pose proof (Inv_nonempty w HInv) as Hne.
  destruct HInv as (_ & Hnd & _).
  pose proof (removeById_NoDup _ _ _ Hnd Hk) as Hrm.
  destruct (delete_lookup_pred (memos w) k) as [memo' Hk'];
    [lia | by eapply lookup_lt_Some |].
  exists k, memo, memo'. rewrite <-Hrm in Hk'.
  split_and!; [done | done | done | by rewrite <-Hrm | by apply clickDeleteMemo_run |].
  apply refreshed_Inv; [done | by apply removeById_NoDup_ids | apply persisted_save].
Qed.

Lemma clickDownloadMemo_Inv target w :
  Inv w →
  ∃ memo, selected w = Some memo ∧
    clickDownloadMemo target w = (clickDownloadMemo_post target memo w, Done tt) ∧
    Inv (clickDownloadMemo_post target memo w).
Proof.
  intros HInv. destruct (Inv_selected w HInv) as (k & memo & Hi & Hk).
  exists memo. split_and!.
  - unfold selected. by rewrite Hi, js_nth_nat.
  - by eapply clickDownloadMemo_run.
  - destruct HInv as (? & ? & ? & ?). unfold Inv. by destruct target.
Qed.

End invariant.
