(* ===== verification/Transitions.v ===== *)
(** * Transitions: what each handler does

    One theorem for each row of the transition table of the spec's section
    4.3 and for the bootstrap of section 3, stated of the handlers of
    index.ts: when the handler returns, and what the array, the index, the
    store and the page are when it does.  The last part of the file
    applies each theorem to a concrete state, under the JSON codec. *)

From S2P Require Import Prelude Memo Dom Storage Json App Sample Invariant.

(** ** States to run the model on *)

Definition sample_memo1 : Memo := newMemo sample_time1 [].
Definition sample_memo2 : Memo := newMemo sample_time2 [sample_memo1].

(** The state after the first of the two memos was deleted. *)
Definition sample_one : World :=
  (@clickDeleteMemo json_codec sample_marked sample_world).1.

(** A label of the first memo, and a label of a memo that is gone. *)
Definition sample_label : Element := label true sample_memo1.
Definition stale_label : Element := setAttribute "data-id" "gone" createElement.

Section transitions.
Context `{Codec} `{Marked}.
Local Open Scope Z_scope.
Implicit Types (w : World) (k j : nat) (memo : Memo) (now : Z).

(** ** add *)

(** Claim C17. [clickAddMemo] returns in every state.  It appends the memo
    [newMemo] builds from the clock and the array, selects it (the index is
    the last one), writes the new array to the store, shows one label per
    memo with the new one marked, and leaves the detail view in editing
    mode with the title and the empty body of the new memo. *)
Theorem clickAddMemo_spec now w :
  ∃ w', clickAddMemo now w = (w', Done tt) ∧
    memos w' = memos w ++ [newMemo now (memos w)] ∧
    memoIndex w' = js_length (memos w') - 1 ∧
    localStorage w' = saveLocalStorage STORAGE_KEY (memos w') (localStorage w) ∧
    memoList (page w') = labels (memos w') (memoIndex w') ∧
    displays Editing (newMemo now (memos w)) w'.
Proof.
  eexists. split; [apply clickAddMemo_run|]. unfold clickAddMemo_post.
  destruct (refreshed_spec true (memos w ++ [newMemo now (memos w)])
    (length (memos w)) (newMemo now (memos w))
    (set_localStorage
       (saveLocalStorage STORAGE_KEY (memos w ++ [newMemo now (memos w)])) w))
    as (-> & -> & -> & -> & ? & _).
  rewrite js_length_snoc. unfold js_length. split_and!; first [done | lia].
Qed.

(** The scenario of the spec: adding to an array of two memos
    gives three, the new one is titled "new memo 3", it is the selected
    one, and the mode is editing. *)
Theorem clickAddMemo_third now w :
  length (memos w) = 2%nat →
  ∃ w' memo, clickAddMemo now w = (w', Done tt) ∧
    length (memos w') = 3%nat ∧ memos w' !! 2%nat = Some memo ∧
    title memo = "new memo 3" ∧ memoIndex w' = 2 ∧ shows Editing (page w').
Proof.
  intros Hlen. exists (clickAddMemo_post now w), (newMemo now (memos w)).
  split; [apply clickAddMemo_run|]. unfold clickAddMemo_post.
  destruct (refreshed_spec true (memos w ++ [newMemo now (memos w)])
    (length (memos w)) (newMemo now (memos w))
    (set_localStorage
       (saveLocalStorage STORAGE_KEY (memos w ++ [newMemo now (memos w)])) w))
    as (-> & -> & _ & _ & (? & _) & _).
  rewrite length_app.
  split_and!; [by rewrite Hlen | | by apply newMemo_title_2 | by rewrite Hlen | done].
  rewrite <-Hlen. by apply list_lookup_middle.
Qed.

(** ** edit *)

(** Claim C22. [clickEditMemo] returns in every state and changes only the
    attributes of the page: the array, the index, the store, the labels and
    the text in the fields stay, and the page shows the editing mode. *)
Theorem clickEditMemo_spec w :
  ∃ w', clickEditMemo w = (w', Done tt) ∧
    memos w' = memos w ∧ memoIndex w' = memoIndex w ∧
    localStorage w' = localStorage w ∧
    memoList (page w') = memoList (page w) ∧
    value (memoTitle (page w')) = value (memoTitle (page w)) ∧
    value (memoBody (page w')) = value (memoBody (page w)) ∧
    shows Editing (page w').
Proof.
  eexists. split; [apply clickEditMemo_run|]. split_and!; try done.
  apply (page_setMode_shows true).
Qed.

(** ** save *)

(** Claim C18. With a memo at the index, [clickSaveMemo] returns.  The memo
    at the index gets the text of the title field, the text of the body
    field and the time of the save, and keeps its identifier and its
    creation time; every other memo is unchanged; the index stays; the new
    array is written to the store; the page shows the viewing mode. *)
Theorem clickSaveMemo_spec now w k memo :
  memoIndex w = Z.of_nat k → memos w !! k = Some memo →
  ∃ w' memo', clickSaveMemo now w = (w', Done tt) ∧
    memos w' = <[k := memo']> (memos w) ∧
    title memo' = value (memoTitle (page w)) ∧
    body memo' = value (memoBody (page w)) ∧
    updateAt memo' = now ∧ createdAt memo' = createdAt memo ∧ id memo' = id memo ∧
    (∀ j, j ≠ k → memos w' !! j = memos w !! j) ∧
    memoIndex w' = memoIndex w ∧
    localStorage w' = saveLocalStorage STORAGE_KEY (memos w') (localStorage w) ∧
    memoList (page w') = labels (memos w') (memoIndex w') ∧
    displays Viewing memo' w'.
Proof.
  intros Hi Hk. eexists _, _. split; [by apply clickSaveMemo_run|].
  unfold clickSaveMemo_post.
  set (memo' := updateMemo _ _ _ _). set (ms := <[k := memo']> (memos w)).
  destruct (refreshed_spec false ms k memo'
    (set_localStorage (saveLocalStorage STORAGE_KEY ms) w))
    as (-> & -> & -> & -> & ? & _).
  split_and!; try done. intros j Hj. by apply list_lookup_insert_ne.
Qed.

(** ** delete *)

(** Claim C20. When one memo is left, [clickDeleteMemo] returns having shown
    a notice and nothing else: the array, the index, the store and the page
    are what they were. *)
Theorem clickDeleteMemo_last_spec w :
  length (memos w) = 1%nat →
  ∃ w', clickDeleteMemo w = (w', Done tt) ∧
    memos w' = memos w ∧ memoIndex w' = memoIndex w ∧
    localStorage w' = localStorage w ∧ page w' = page w ∧
    alerts w' = alerts w ++ ["これ以上は削除できません"].
Proof. intros Hlen. eexists. split; [by apply clickDeleteMemo_last | done]. Qed.

(** Claim C19. With distinct identifiers, more than one memo and a memo at
    the index, [clickDeleteMemo] returns.  It removes the memo at the index
    and no other, keeps the order of the rest, steps the index back by one
    unless it is 0, writes the new array to the store and shows the memo at
    the new index in viewing mode. *)
Theorem clickDeleteMemo_spec w k memo :
  NoDup (ids (memos w)) → length (memos w) ≠ 1%nat →
  memoIndex w = Z.of_nat k → memos w !! k = Some memo →
  ∃ w' memo', clickDeleteMemo w = (w', Done tt) ∧
    memos w' = delete k (memos w) ∧
    memoIndex w' = Z.max 0 (memoIndex w - 1) ∧
    js_nth (memos w') (memoIndex w') = Some memo' ∧
    localStorage w' = saveLocalStorage STORAGE_KEY (memos w') (localStorage w) ∧
    memoList (page w') = labels (memos w') (memoIndex w') ∧
    displays Viewing memo' w'.
Proof.
  intros Hnd Hlen Hi Hk.
  pose proof (removeById_NoDup _ _ _ Hnd Hk) as Hrm.
  destruct (delete_lookup_pred (memos w) k) as [memo' Hk'];
    [apply lookup_lt_Some in Hk; lia | by eapply lookup_lt_Some |].
  exists (clickDeleteMemo_post (id memo) (k - 1) memo' w), memo'.
  split; [apply clickDeleteMemo_run; by rewrite ?Hrm|].
  unfold clickDeleteMemo_post. rewrite Hrm.
  destruct (refreshed_spec false (delete k (memos w)) (k - 1) memo'
    (set_localStorage (saveLocalStorage STORAGE_KEY (delete k (memos w))) w))
    as (-> & -> & -> & -> & ? & _).
  rewrite js_nth_nat, Hi. split_and!; first [done | lia].
Qed.

(** ** select *)

(** Claim C21. Under the invariant a click on the label at position [j]
    returns.  The memo at [j] becomes the selected one, the array and the
    store stay, the label at [j] is the marked one, and the detail view
    shows that memo in viewing mode. *)
Theorem selectedMemo_spec w j target :
  Inv w → memoList (page w) !! j = Some target →
  ∃ w' memo, selectedMemo target w = (w', Done tt) ∧
    memos w !! j = Some memo ∧
    memos w' = memos w ∧ memoIndex w' = Z.of_nat j ∧
    localStorage w' = localStorage w ∧
    memoList (page w') = labels (memos w') (memoIndex w') ∧
    displays Viewing memo w'.
Proof.
  intros HInv Hj. destruct (Inv_label w j target HInv Hj) as (memo & Hm & Hf).
  destruct (Inv_selected w HInv) as (k & memo0 & Hi & Hk).
  destruct HInv as (_ & _ & Hlist & _). rewrite Hi in Hlist.
  exists (selectedMemo_post j memo w), memo.
  split; [by eapply selectedMemo_run|]. unfold selectedMemo_post.
  by destruct (refreshed_spec false (memos w) j memo w) as (-> & -> & -> & -> & ? & _).
Qed.

(** Claim C27. A click on a label that carries no identifier of the array:
    the handler throws a [TypeError] at [memo.title].  By then the old label
    is unmarked and the index is -1; the array and the store stay. *)
Theorem selectedMemo_unknown w target :
  Inv w →
  (∀ i, getAttribute "data-id" target = Some i → i ∉ ids (memos w)) →
  ∃ w', selectedMemo target w = (w', Thrown (TypeError (reading "title"))) ∧
    memoIndex w' = -1 ∧ memos w' = memos w ∧ localStorage w' = localStorage w ∧
    memoList (page w') = newMemoElement <$> memos w.
Proof.
  intros HInv Hid. destruct (Inv_selected w HInv) as (k & memo0 & Hi & Hk).
  destruct HInv as (_ & _ & Hlist & _). rewrite Hi in Hlist.
  rewrite (selectedMemo_throws target w k memo0)
    by (done || by apply findIndexById_unknown).
  eexists. split_and!; try done. apply labels_outside. lia.
Qed.

(** ** download *)

(** Claim C39. With a memo at the index, [clickDownloadMemo] returns.  The
    registry of object URLs has one blob more, which holds the body of the
    memo and has the type [application/octet-stream]; the link is given
    the name [title.md] and, as its [href], the URL of that blob, the one
    [URL.createObjectURL] returned for it; the array, the index and the
    store stay. *)
Theorem clickDownloadMemo_spec w k memo :
  memoIndex w = Z.of_nat k → memos w !! k = Some memo →
  ∃ w', clickDownloadMemo DownloadLink w = (w', Done tt) ∧
    getAttribute "download" (downloadLink (page w')) = Some (title memo +:+ ".md") ∧
    getAttribute "href" (downloadLink (page w'))
    = Some ("blob:" +:+ pretty (length (objectURLs w))) ∧
    objectURLs w' = objectURLs w ++
      [{| blob_parts := body memo; blob_type := "application/octet-stream" |}] ∧
    memos w' = memos w ∧ memoIndex w' = memoIndex w ∧
    localStorage w' = localStorage w.
Proof.
  intros Hi Hk. eexists. split; [by eapply clickDownloadMemo_run|].
  unfold clickDownloadMemo_post, getAttribute. simpl.
  rewrite lookup_insert_ne by done. by rewrite !lookup_insert_eq.
Qed.

(** ** bootstrap *)

(** Claim C23. On a store that holds no memo (no value, a value that does
    not parse, or an empty array) [init] returns with two memos, titled
    "new memo 1" and "new memo 2", with empty bodies, the two times as
    creation and save times, and the identifiers the times and the sizes 0
    and 1 give.  The first is selected and shown, and the array is written
    to the store. *)
Theorem init_bootstrap timestamp1 timestamp2 html store :
  readLacalStorage STORAGE_KEY store = [] →
  ∃ w' memo1 memo2,
    init timestamp1 timestamp2 (boot html store) = (w', Done tt) ∧
    memos w' = [memo1; memo2] ∧
    title memo1 = "new memo 1" ∧ title memo2 = "new memo 2" ∧
    id memo1 = toString timestamp1 +:+ "0" ∧ id memo2 = toString timestamp2 +:+ "1" ∧
    body memo1 = "" ∧ body memo2 = "" ∧
    createdAt memo1 = timestamp1 ∧ createdAt memo2 = timestamp2 ∧
    updateAt memo1 = timestamp1 ∧ updateAt memo2 = timestamp2 ∧
    memoIndex w' = 0 ∧
    localStorage w' = saveLocalStorage STORAGE_KEY [memo1; memo2] store ∧
    memoList (page w') = labels [memo1; memo2] 0 ∧
    value (memoTitle (page w')) = "new memo 1" ∧ value (memoBody (page w')) = "".
Proof.
  intros Hload.
  set (memo1 := newMemo timestamp1 []). set (memo2 := newMemo timestamp2 [memo1]).
  exists (init_post timestamp1 timestamp2 memo1 (boot html store)), memo1, memo2.
  split; [apply init_run; [done | by simpl; rewrite Hload]|].
  destruct (init_post_fields timestamp1 timestamp2 memo1 (boot html store))
    as (-> & -> & -> & -> & _ & _ & -> & -> & _).
  simpl. rewrite Hload. done.
Qed.

(** Claim C24. On a store that holds memos [init] returns with those memos,
    in their order, and does not write the store; the first is selected
    and shown. *)
Theorem init_restore timestamp1 timestamp2 html store memo loaded :
  readLacalStorage STORAGE_KEY store = memo :: loaded →
  ∃ w', init timestamp1 timestamp2 (boot html store) = (w', Done tt) ∧
    memos w' = memo :: loaded ∧ memoIndex w' = 0 ∧
    localStorage w' = store ∧
    memoList (page w') = labels (memo :: loaded) 0 ∧
    value (memoTitle (page w')) = title memo ∧
    value (memoBody (page w')) = body memo.
Proof.
  intros Hload.
  exists (init_post timestamp1 timestamp2 memo (boot html store)).
  split; [apply init_run; [done | by simpl; rewrite Hload]|].
  destruct (init_post_fields timestamp1 timestamp2 memo (boot html store))
    as (-> & -> & -> & -> & _ & _ & -> & -> & _).
  simpl. rewrite Hload. done.
Qed.

(** Claim C40. [init] returns on every page and store, hides the save
    button and shows the edit button, and leaves the attributes of the two
    fields and of the preview as the page had them: whether the fields are
    read-only after the start is decided by the page, not by [init]. *)
Theorem init_mode timestamp1 timestamp2 html store :
  ∃ w', init timestamp1 timestamp2 (boot html store) = (w', Done tt) ∧
    hasAttribute "hidden" (saveButton (page w')) = true ∧
    hasAttribute "hidden" (editButton (page w')) = false ∧
    attributes (memoTitle (page w')) = attributes (memoTitle html) ∧
    attributes (memoBody (page w')) = attributes (memoBody html) ∧
    attributes (previewBody (page w')) = attributes (previewBody html).
Proof.
  destruct (initial_memos_nonempty timestamp1 timestamp2
    (readLacalStorage STORAGE_KEY store)) as [memo Hk].
  exists (init_post timestamp1 timestamp2 memo (boot html store)).
  split; [by apply init_run|].
  destruct (init_post_fields timestamp1 timestamp2 memo (boot html store))
    as (_ & _ & _ & _ & -> & -> & -> & -> & ->).
  by autorewrite with dom.
Qed.

End transitions.

(** ** The theorems at work

    Each theorem above that has a hypothesis, applied under the JSON codec
    to the state [init] leaves on an empty store, which holds two memos,
    and to the state after one of them was deleted. *)

Section witnesses.
#[local] Existing Instance json_codec.
#[local] Existing Instance sample_marked.
#[local] Existing Instance json_codec_laws.
Local Open Scope Z_scope.

Lemma sample_world_Inv : Inv sample_world.
Proof. by apply (bool_decide_unpack _); vm_compute. Qed.

Lemma clickAddMemo_third_witness :
  ∃ w' memo, clickAddMemo sample_time3 sample_world = (w', Done tt) ∧
    length (memos w') = 3%nat ∧ memos w' !! 2%nat = Some memo ∧
    title memo = "new memo 3" ∧ memoIndex w' = 2 ∧ shows Editing (page w').
Proof. apply clickAddMemo_third. reflexivity. Defined.

Lemma clickSaveMemo_spec_witness :
  ∃ w' memo', clickSaveMemo sample_time3 sample_world = (w', Done tt) ∧
    memos w' = <[0%nat := memo']> (memos sample_world) ∧
    updateAt memo' = sample_time3 ∧ id memo' = id sample_memo1.
Proof.
  destruct (clickSaveMemo_spec sample_time3 sample_world 0 sample_memo1)
    as (w' & memo' & Hrun & Hmemos & _ & _ & Hat & _ & Hid & _); [reflexivity..|].
  exists w', memo'. exact (conj Hrun (conj Hmemos (conj Hat Hid))).
Defined.

Lemma clickDeleteMemo_last_spec_witness :
  ∃ w', clickDeleteMemo sample_one = (w', Done tt) ∧
    memos w' = memos sample_one ∧ memoIndex w' = memoIndex sample_one ∧
    localStorage w' = localStorage sample_one ∧ page w' = page sample_one ∧
    alerts w' = alerts sample_one ++ ["これ以上は削除できません"].
Proof. apply clickDeleteMemo_last_spec. reflexivity. Defined.

Lemma clickDeleteMemo_spec_witness :
  ∃ w' memo', clickDeleteMemo sample_world = (w', Done tt) ∧
    memos w' = delete 0%nat (memos sample_world) ∧
    memoIndex w' = Z.max 0 (memoIndex sample_world - 1) ∧
    js_nth (memos w') (memoIndex w') = Some memo' ∧
    localStorage w'
    = saveLocalStorage STORAGE_KEY (memos w') (localStorage sample_world) ∧
    memoList (page w') = labels (memos w') (memoIndex w') ∧
    displays Viewing memo' w'.
Proof.
  apply (clickDeleteMemo_spec sample_world 0 sample_memo1);
    [by apply (bool_decide_unpack _); vm_compute | by vm_compute | reflexivity..].
Defined.

Lemma selectedMemo_spec_witness :
  ∃ w' memo, selectedMemo sample_label sample_world = (w', Done tt) ∧
    memos sample_world !! 0%nat = Some memo ∧
    memos w' = memos sample_world ∧ memoIndex w' = Z.of_nat 0 ∧
    localStorage w' = localStorage sample_world ∧
    memoList (page w') = labels (memos w') (memoIndex w') ∧
    displays Viewing memo w'.
Proof.
  apply (selectedMemo_spec sample_world 0 sample_label);
    [exact sample_world_Inv | reflexivity].
Defined.

Lemma selectedMemo_unknown_witness :
  ∃ w', selectedMemo stale_label sample_world
        = (w', Thrown (TypeError (reading "title"))) ∧
    memoIndex w' = -1 ∧ memos w' = memos sample_world ∧
    localStorage w' = localStorage sample_world ∧
    memoList (page w') = newMemoElement <$> memos sample_world.
Proof.
  apply (selectedMemo_unknown sample_world stale_label); [exact sample_world_Inv|].
  intros i Hi. vm_compute in Hi. injection Hi as <-.
  by apply (bool_decide_unpack _); vm_compute.
Defined.

Lemma clickDownloadMemo_spec_witness :
  ∃ w', clickDownloadMemo DownloadLink sample_world = (w', Done tt) ∧
    getAttribute "download" (downloadLink (page w')) = Some "new memo 1.md" ∧
    getAttribute "href" (downloadLink (page w')) = Some "blob:0" ∧
    objectURLs w' = [{| blob_parts := ""; blob_type := "application/octet-stream" |}].
Proof.
  destruct (clickDownloadMemo_spec sample_world 0 sample_memo1)
    as (w' & Hrun & Hname & Hhref & Hblob & _); [reflexivity..|].
  exists w'. exact (conj Hrun (conj Hname (conj Hhref Hblob))).
Defined.

Lemma init_bootstrap_witness :
  ∃ w' memo1 memo2,
    init sample_time1 sample_time2 (boot blank_page ∅) = (w', Done tt) ∧
    memos w' = [memo1; memo2] ∧
    title memo1 = "new memo 1" ∧ title memo2 = "new memo 2".
Proof.
  destruct (init_bootstrap sample_time1 sample_time2 blank_page ∅)
    as (w' & memo1 & memo2 & Hrun & Hmemos & Ht1 & Ht2 & _); [reflexivity|].
  exists w', memo1, memo2. exact (conj Hrun (conj Hmemos (conj Ht1 Ht2))).
Defined.

Lemma init_restore_witness :
  ∃ w', init 0 0 (boot blank_page (localStorage sample_world)) = (w', Done tt) ∧
    memos w' = [sample_memo1; sample_memo2] ∧ memoIndex w' = 0 ∧
    localStorage w' = localStorage sample_world.
Proof.
  destruct (init_restore 0 0 blank_page (localStorage sample_world)
              sample_memo1 [sample_memo2])
    as (w' & Hrun & Hmemos & Hi & Hstore & _); [by vm_compute|].
  exact (ex_intro _ w' (conj Hrun (conj Hmemos (conj Hi Hstore)))).
Defined.

End witnesses.
