(* ===== verification/Machine.v ===== *)
(** * Machine: events, the event loop, reachable states

    index.ts registers its handlers at lines 29-33 and, for the labels, at
    line 89.  [listener] is that table: the handler each event runs.
    [dispatch] is one turn of the browser's event loop: the handler runs to
    its end or to an uncaught exception (which the browser reports to the
    console), then the pending continuations of [await] run in the order in
    which they were left ([run_microtasks]).  This is the behaviour when
    [marked.parse] returns a string or a settled promise, the library's
    default; promises that settle later are the subject of [Async].  No
    continuation leaves a new one, so the continuations to run are the
    ones that are pending when the handler ends.

    [start] is the module's top-level code: the two variables are
    initialised (lines 27-28) and [init] is called (line 35).

    [reachable] is the set of states the program can be in between two
    events, for events that are [allowed]: a memo is added only when its
    identifier is not in use.  Every reachable state satisfies [Inv], and in
    a reachable state no handler throws. *)

From S2P Require Import Prelude Memo Dom Storage Json App Sample Invariant.

(** ** Events *)

Inductive Event : Type :=
| ClickAdd (now : Z)
| ClickLabel (n : nat)
| ClickEdit
| ClickSave (now : Z)
| ClickDelete
| ClickDownload
| Input (field : ElemRef) (text : string).

(** The user types [text] into a field; a disabled field cannot be
    edited. *)
Definition input (field : ElemRef) (text : string) : Eff World Exn unit :=
  modify (λ w,
    if hasAttribute "disabled" (get_elem field (page w)) then w
    else set_page (set_elem field (set_value text (get_elem field (page w))) (page w)) w).

Section machine.
Context `{Codec} `{Marked}.
Local Open Scope Z_scope.

(** The listeners.  A click on the [n]-th label has that label as its
    target; there is no such click when there is no such label. *)
Definition listener (ev : Event) : Eff World Exn unit :=
  match ev with
  | ClickDownload => clickDownloadMemo DownloadLink
  | ClickDelete => clickDeleteMemo
  | ClickAdd now => clickAddMemo now
  | ClickEdit => clickEditMemo
  | ClickSave now => clickSaveMemo now
  | ClickLabel n =>
      target <- gets (λ w, memoList (page w) !! n) ;;
      match target with
      | Some div => selectedMemo div
      | None => ret tt
      end
  | Input field text => input field text
  end.

(** The rest of the [async] block of [setMemoElement]: the assignment to
    [previewBody.innerHTML], or the [catch]. *)
Definition run_task (t : Task) (w : World) : World :=
  match t with
  | SetPreview html =>
      set_page (set_elem PreviewBody (set_innerHTML html (previewBody (page w))) (page w)) w
  | LogError error => console_log (LogErr error) w
  end.

Definition run_microtasks (w : World) : World :=
  foldl (λ w t, run_task t w) (set_microtasks [] w) (microtasks w).

(** An exception no handler catches is reported and the state stays as it
    was when it was thrown. *)
Definition uncaught (r : World * outcome Exn unit) : World :=
  match r with
  | (w, Done _) => w
  | (w, Thrown (TypeError msg)) => console_log (LogErr msg) w
  end.

Definition dispatch (ev : Event) (w : World) : World :=
  run_microtasks (uncaught (listener ev w)).

Definition run (evs : list Event) (w : World) : World :=
  foldl (λ w ev, dispatch ev w) w evs.

Definition start (html : Page) (store : gmap string string)
    (timestamp1 timestamp2 : Z) : World :=
  run_microtasks (uncaught (init timestamp1 timestamp2 (boot html store))).

(** A memo is added only with an identifier that is not in use. *)
Definition allowed (ev : Event) (w : World) : Prop :=
  match ev with
  | ClickAdd now => fresh now w
  | _ => True
  end.

#[export] Instance allowed_dec ev w : Decision (allowed ev w).
Proof. destruct ev; apply _. Defined.

Inductive reachable (html : Page) (store : gmap string string) : World → Prop :=
| reachable_start timestamp1 timestamp2 :
    reachable html store (start html store timestamp1 timestamp2)
| reachable_step w ev :
    reachable html store w → allowed ev w →
    reachable html store (dispatch ev w).

End machine.

(** ** States to run the model on *)

(** The program started on an empty store. *)
Definition sample_start : World :=
  @start json_codec sample_marked blank_page ∅ sample_time1 sample_time2.

(** One memo is left, made at [sample_time2] when the array held one. *)
Definition sample_single : World :=
  @dispatch json_codec sample_marked ClickDelete sample_start.

(** ** The event loop keeps the invariant *)

Section machine_inv.
Context `{Codec} `{Marked} `{!CodecLaws}.
Local Open Scope Z_scope.
Implicit Types (w : World) (ev : Event) (html : Page) (store : gmap string string).

(** A continuation writes the preview or the console. *)
Lemma run_task_fields t w :
  memos (run_task t w) = memos w ∧
  memoIndex (run_task t w) = memoIndex w ∧
  memoList (page (run_task t w)) = memoList (page w) ∧
  localStorage (run_task t w) = localStorage w.
Proof. by destruct t. Qed.

Lemma run_task_Inv t w : Inv w → Inv (run_task t w).
Proof.
  unfold Inv. by destruct (run_task_fields t w) as (-> & -> & -> & ->).
Qed.

Lemma run_tasks_fields (ts : list Task) w :
  let w' := foldl (λ w t, run_task t w) w ts in
  memos w' = memos w ∧ memoIndex w' = memoIndex w ∧
  memoList (page w') = memoList (page w) ∧ localStorage w' = localStorage w.
Proof.
  revert w. induction ts as [|t ts IH]; intros w; [done|].
  simpl. destruct (IH (run_task t w)) as (-> & -> & -> & ->).
  apply run_task_fields.
Qed.

(** So do all of them together. *)
Lemma run_microtasks_fields w :
  memos (run_microtasks w) = memos w ∧
  memoIndex (run_microtasks w) = memoIndex w ∧
  memoList (page (run_microtasks w)) = memoList (page w) ∧
  localStorage (run_microtasks w) = localStorage w.
Proof.
  unfold run_microtasks.
  by destruct (run_tasks_fields (microtasks w) (set_microtasks [] w))
    as (-> & -> & -> & ->).
Qed.

(** A continuation changes no attribute and shows no notice. *)
Lemma run_task_view t w (m : Mode) :
  (shows m (page (run_task t w)) ↔ shows m (page w)) ∧
  alerts (run_task t w) = alerts w.
Proof. by destruct t. Qed.

Lemma run_microtasks_view w (m : Mode) :
  (shows m (page (run_microtasks w)) ↔ shows m (page w)) ∧
  alerts (run_microtasks w) = alerts w.
Proof.
  unfold run_microtasks.
  change (shows m (page w)) with (shows m (page (set_microtasks [] w))).
  change (alerts w) with (alerts (set_microtasks [] w)).
  generalize (set_microtasks [] w).
  induction (microtasks w) as [|t ts IH]; intros w0; [done|].
  simpl. destruct (IH (run_task t w0)) as [-> ->]. apply run_task_view.
Qed.

(** The end of a turn writes the preview, the console and the queue. *)
Lemma run_tasks_shape (ts : list Task) w :
  ∃ inner log,
    foldl (λ w t, run_task t w) w ts
    = set_page (set_elem PreviewBody (set_innerHTML inner (previewBody (page w))) (page w))
        {| memos := memos w; memoIndex := memoIndex w; page := page w;
           localStorage := localStorage w; alerts := alerts w; console := log;
           microtasks := microtasks w; objectURLs := objectURLs w |}.
Proof.
  revert w. induction ts as [|t ts IH]; intros w.
  { exists (innerHTML (previewBody (page w))), (console w). by destruct w as [? ? [? ? ? ? ? [] ?]]. }
  simpl. destruct (IH (run_task t w)) as (inner & log & ->).
  exists inner, log. by destruct t.
Qed.

Lemma run_microtasks_displays w (m : Mode) memo :
  displays m memo (run_microtasks w) ↔ displays m memo w.
Proof.
  unfold run_microtasks.
  by destruct (run_tasks_shape (microtasks w) (set_microtasks [] w)) as (inner & log & ->).
Qed.

Lemma run_microtasks_Inv w : Inv w → Inv (run_microtasks w).
Proof.
  unfold Inv. by destruct (run_microtasks_fields w) as (-> & -> & -> & ->).
Qed.

(** Typing changes no attribute and shows no notice. *)
Lemma input_view field text w (m : Mode) :
  (shows m (page (input field text w).1) ↔ shows m (page w)) ∧
  alerts (input field text w).1 = alerts w.
Proof.
  unfold input, modify. simpl.
  destruct (hasAttribute _ _); [done|]. by destruct field.
Qed.

Lemma input_run field text w :
  ∃ w', input field text w = (w', Done tt) ∧
    memos w' = memos w ∧ memoIndex w' = memoIndex w ∧
    memoList (page w') = memoList (page w) ∧
    localStorage w' = localStorage w.
Proof.
  unfold input, modify. eexists. split; [done|].
  destruct (hasAttribute _ _); [done|]. by destruct field.
Qed.

(** In a state that satisfies the invariant every listener returns, and
    the invariant holds again. *)
Lemma listener_Inv ev w :
  Inv w → allowed ev w → ∃ w', listener ev w = (w', Done tt) ∧ Inv w'.
Proof.
  intros HInv Hok. destruct ev as [now|n| |now| | |field text]; simpl.
  - eexists. split; [apply clickAddMemo_run | by apply clickAddMemo_Inv].
  - rewrite bind_gets. destruct (memoList (page w) !! n) as [div|] eqn:Hn.
    + destruct (selectedMemo_Inv w n div HInv Hn) as (memo & _ & Hrun & HInv').
      eauto.
    + eauto.
  - eexists. split; [apply clickEditMemo_run | by apply clickEditMemo_Inv].
  - destruct (clickSaveMemo_Inv now w HInv) as (k & memo & _ & _ & Hrun & HInv').
    eauto.
  - destruct (decide (length (memos w) = 1%nat)) as [Hlast|Hmore].
    + eexists. split; [by apply clickDeleteMemo_last | by apply clickDeleteMemo_last_Inv].
    + destruct (clickDeleteMemo_Inv w HInv Hmore)
        as (k & memo & memo' & _ & _ & _ & _ & Hrun & HInv'). eauto.
  - destruct (clickDownloadMemo_Inv DownloadLink w HInv) as (memo & _ & Hrun & HInv').
    eauto.
  - destruct (input_run field text w) as (w' & Hrun & Hm & Hi & Hl & Hs).
    exists w'. split; [done|]. unfold Inv. by rewrite Hm, Hi, Hl, Hs.
Qed.

Lemma dispatch_Inv ev w : Inv w → allowed ev w → Inv (dispatch ev w).
Proof.
  intros HInv Hok. unfold dispatch.
  destruct (listener_Inv ev w HInv Hok) as (w' & -> & HInv').
  by apply run_microtasks_Inv.
Qed.

(** [init] returns in every state in which [memoIndex] is 0. *)
Lemma init_returns timestamp1 timestamp2 w :
  memoIndex w = 0 →
  ∃ memo, init timestamp1 timestamp2 w
          = (init_post timestamp1 timestamp2 memo w, Done tt).
Proof.
  intros Hi.
  destruct (initial_memos_nonempty timestamp1 timestamp2
    (readLacalStorage STORAGE_KEY (localStorage w))) as [memo Hk].
  exists memo. by apply init_run.
Qed.

Lemma initial_memos_NoDup timestamp1 timestamp2 loaded :
  NoDup (ids loaded) → NoDup (ids (initial_memos timestamp1 timestamp2 loaded)).
Proof.
  intros Hnd. unfold initial_memos, js_length. case_decide; [|done].
  destruct loaded; [|done]. apply bootstrap_ids_NoDup.
Qed.

Lemma init_post_Inv timestamp1 timestamp2 memo w :
  memoIndex w = 0 →
  initial_memos timestamp1 timestamp2
    (readLacalStorage STORAGE_KEY (localStorage w)) !! 0%nat = Some memo →
  NoDup (ids (readLacalStorage STORAGE_KEY (localStorage w))) →
  Inv (init_post timestamp1 timestamp2 memo w).
Proof.
  intros Hi Hk Hnd. unfold Inv, init_post. rewrite render_preview_fields.
  cbn [memos memoIndex page localStorage set_page memoList set_memoList set_elem].
  rewrite Hi. split_and!.
  - change 0 with (Z.of_nat 0). rewrite js_nth_nat, Hk. eauto.
  - by apply initial_memos_NoDup.
  - done.
  - unfold initial_memos. case_decide; [apply persisted_save | done].
Qed.

(** The program starts in a state that satisfies the invariant when the
    memos in the store, if any, have distinct identifiers. *)
Lemma start_Inv html store timestamp1 timestamp2 :
  NoDup (ids (readLacalStorage STORAGE_KEY store)) →
  Inv (start html store timestamp1 timestamp2).
Proof.
  intros Hnd. unfold start.
  destruct (initial_memos_nonempty timestamp1 timestamp2
    (readLacalStorage STORAGE_KEY store)) as [memo Hk].
  rewrite (init_run timestamp1 timestamp2 (boot html store) memo) by done.
  apply run_microtasks_Inv. by apply init_post_Inv.
Qed.

Lemma reachable_Inv html store w :
  NoDup (ids (readLacalStorage STORAGE_KEY store)) →
  reachable html store w → Inv w.
Proof.
  intros Hnd Hreach. induction Hreach as [t1 t2|w ev _ IH Hok].
  - by apply start_Inv.
  - by apply dispatch_Inv.
Qed.

(** ** What holds in every reachable state

    The store the program starts on holds memos with distinct identifiers
    (or none); the events are [allowed]. *)

Section reachable_states.
Variables (html : Page) (store : gmap string string).
Hypothesis store_NoDup : NoDup (ids (readLacalStorage STORAGE_KEY store)).

(** Claim C1. In a reachable state the listener of every allowed event
    returns: no handler throws.  The state it returns in satisfies the
    invariant, and so does the state after the pending continuations have
    run. *)
Theorem reachable_safe w ev :
  reachable html store w → allowed ev w →
  ∃ w', listener ev w = (w', Done tt) ∧ Inv w' ∧ Inv (dispatch ev w).
Proof.
  intros Hreach Hok.
  pose proof (reachable_Inv html store w store_NoDup Hreach) as HInv.
  destruct (listener_Inv ev w HInv Hok) as (w' & Hrun & HInv').
  exists w'. split_and!; [done.. | by apply dispatch_Inv].
Qed.

(** Claim C2. In a reachable state the array holds at least one memo and
    the index addresses one of its memos. *)
Theorem reachable_never_empty w :
  reachable html store w →
  (1 ≤ length (memos w))%nat ∧ 0 ≤ memoIndex w < js_length (memos w).
Proof.
  intros HInv%reachable_Inv; [|done].
  split; [by apply Inv_nonempty | by apply Inv_index_range].
Qed.

(** In a reachable state a fresh read of the store returns the array.
    [Always] shows it of every state, reachable in this sense or not. *)
Theorem reachable_persisted w :
  reachable html store w →
  readLacalStorage STORAGE_KEY (localStorage w) = memos w.
Proof. intros HInv%reachable_Inv; [|done]. by destruct HInv as (_ & _ & _ & ?). Qed.

(** Claim C4. In a reachable state the list shows one label for each memo,
    in the order of the array, with the title as its text and the
    identifier as its [data-id]; the label at the index is marked active
    and no other is. *)
Theorem reachable_one_active w :
  reachable html store w →
  length (memoList (page w)) = length (memos w) ∧
  ∀ j e, memoList (page w) !! j = Some e →
    is_active e = bool_decide (Z.of_nat j = memoIndex w) ∧
    ∃ memo, memos w !! j = Some memo ∧
      innerText e = title memo ∧ getAttribute "data-id" e = Some (id memo).
Proof.
  intros HInv%reachable_Inv; [|done]. destruct HInv as (_ & _ & -> & _).
  split; [apply labels_length|]. intros j e Hj.
  split; [by eapply labels_is_active|].
  rewrite labels_lookup in Hj. destruct (memos w !! j) as [memo|]; [|done].
  injection Hj as <-. exists memo.
  by rewrite label_innerText, label_data_id.
Qed.

End reachable_states.

(** ** Continuations

    A continuation leaves the queue as it is: it makes no new one. *)

Lemma run_task_microtasks t w : microtasks (run_task t w) = microtasks w.
Proof. by destruct t. Qed.

(** ** An identifier used twice *)

(** Claim C26. When one memo is left and the clock gives the new memo the
    identifier of that memo, the memo is added all the same, and the next
    deletion removes both: the handler empties the array, writes the empty
    array to the store, and throws a [TypeError]. *)
Theorem collision_empties now w memo :
  memos w = [memo] → id (newMemo now [memo]) = id memo →
  ∃ w',
    listener ClickDelete (dispatch (ClickAdd now) w)
    = (w', Thrown (TypeError (reading "title"))) ∧
    memos w' = [] ∧ memoIndex w' = 0 ∧
    readLacalStorage STORAGE_KEY (localStorage w') = [].
Proof.
  intros Hw Hid. unfold dispatch. simpl. rewrite clickAddMemo_run. simpl.
  set (w1 := run_microtasks (clickAddMemo_post now w)).
  assert (memos w1 = [memo; newMemo now [memo]] ∧ memoIndex w1 = 1) as [Hm Hi].
  { unfold w1.
    destruct (run_microtasks_fields (clickAddMemo_post now w)) as (-> & -> & _).
    unfold clickAddMemo_post.
    destruct (refreshed_spec true (memos w ++ [newMemo now (memos w)])
      (length (memos w)) (newMemo now (memos w))
      (set_localStorage
         (saveLocalStorage STORAGE_KEY (memos w ++ [newMemo now (memos w)])) w))
      as (-> & -> & _).
    by rewrite Hw. }
  assert (removeById (id (newMemo now [memo])) (memos w1) = []) as Hrm.
  { rewrite Hm, Hid. unfold removeById.
    rewrite filter_cons_False, filter_cons_False by (rewrite ?Hid; naive_solver).
    done. }
  rewrite (clickDeleteMemo_strands w1 1 (newMemo now [memo]))
    by (done || by rewrite ?Hrm, ?Hm).
  eexists. split; [done|]. unfold persist. world_simpl. rewrite Hrm.
  split_and!; [done.. | apply read_save].
Qed.

(** ** Starting again *)

(** Claim C38. The memos survive a reload: started on the store a state
    that satisfies the invariant has left, on any page and at any time, the
    program has the memos of that state, and the first one is selected. *)
Theorem restart_restores html timestamp1 timestamp2 w :
  Inv w →
  memos (start html (localStorage w) timestamp1 timestamp2) = memos w ∧
  memoIndex (start html (localStorage w) timestamp1 timestamp2) = 0.
Proof.
  intros HInv. pose proof (Inv_nonempty w HInv) as Hne.
  destruct HInv as (_ & _ & _ & Hstore). unfold start.
  destruct (initial_memos_nonempty timestamp1 timestamp2
    (readLacalStorage STORAGE_KEY (localStorage w))) as [memo Hk].
  rewrite (init_run timestamp1 timestamp2 (boot html (localStorage w)) memo) by done.
  simpl. destruct (run_microtasks_fields
    (init_post timestamp1 timestamp2 memo (boot html (localStorage w))))
    as (-> & -> & _).
  destruct (init_post_fields timestamp1 timestamp2 memo (boot html (localStorage w)))
    as (-> & -> & _).
  simpl. rewrite Hstore. unfold initial_memos, js_length.
  rewrite decide_False by lia. done.
Qed.

End machine_inv.

(** ** The theorems at work

    Each theorem above that has a hypothesis, applied to a state of the
    program under the JSON codec: the state after the start on an empty
    store, and states a few events later. *)

Section witnesses.
#[local] Existing Instance json_codec.
#[local] Existing Instance sample_marked.
#[local] Existing Instance json_codec_laws.

Lemma empty_store_NoDup :
  NoDup (ids (readLacalStorage STORAGE_KEY (∅ : gmap string string))).
Proof. apply NoDup_nil_2. Qed.

Lemma reachable_safe_witness :
  ∃ w', listener ClickDelete sample_start = (w', Done tt) ∧ Inv w' ∧
    Inv (dispatch ClickDelete sample_start).
Proof.
  apply (reachable_safe blank_page ∅ empty_store_NoDup);
    [apply reachable_start | exact I].
Defined.

Lemma reachable_never_empty_witness :
  (1 ≤ length (memos sample_single))%nat ∧
  (0 ≤ memoIndex sample_single < js_length (memos sample_single))%Z.
Proof.
  apply (reachable_never_empty blank_page ∅ empty_store_NoDup).
  apply reachable_step; [apply reachable_start | exact I].
Defined.

Lemma reachable_persisted_witness :
  readLacalStorage STORAGE_KEY (localStorage sample_single) = memos sample_single.
Proof.
  apply (reachable_persisted blank_page ∅ empty_store_NoDup).
  apply reachable_step; [apply reachable_start | exact I].
Defined.

Lemma reachable_one_active_witness :
  length (memoList (page sample_start)) = length (memos sample_start) ∧
  ∀ j e, memoList (page sample_start) !! j = Some e →
    is_active e = bool_decide (Z.of_nat j = memoIndex sample_start) ∧
    ∃ memo, memos sample_start !! j = Some memo ∧
      innerText e = title memo ∧ getAttribute "data-id" e = Some (id memo).
Proof.
  apply (reachable_one_active blank_page ∅ empty_store_NoDup), reachable_start.
Defined.

Lemma collision_empties_witness :
  ∃ w',
    listener ClickDelete (dispatch (ClickAdd sample_time2) sample_single)
    = (w', Thrown (TypeError (reading "title"))) ∧
    memos w' = [] ∧ memoIndex w' = 0%Z ∧
    readLacalStorage STORAGE_KEY (localStorage w') = [].
Proof.
  apply (collision_empties sample_time2 sample_single
           (newMemo sample_time2 [newMemo sample_time1 []]));
    by vm_compute.
Defined.

Lemma restart_restores_witness :
  memos (start blank_page (localStorage sample_single) 0 0) = memos sample_single ∧
  memoIndex (start blank_page (localStorage sample_single) 0 0) = 0%Z.
Proof. apply restart_restores. by apply (bool_decide_unpack _); vm_compute. Defined.

End witnesses.
