(* ===== verification/Always.v ===== *)
(** * Always: what holds in every state, invariant or not

    The theorems of [Machine] are about the states the program reaches
    when no identifier is used twice and every click lands on a label the
    page shows.  The theorems of this file assume nothing: they hold of
    every state and every event, also when a handler throws half-way.

    - The store and the array agree after every event.  Every write to
      [memos] in index.ts is followed, before anything that can throw, by
      [saveLocalStorage] (lines 62-65, 177-179, 223-227, 252-254).
    - No event frees a blob, and only a click on the download link makes
      one: [URL.createObjectURL] (line 281) is never paired with
      [URL.revokeObjectURL].

    Both are proved by checking every handler against a property with
    the rules of [Hoare]; [handler_go] does it along the text of the
    handler.  A property that does not depend on the page, the console
    and the queue ([Stable]) is then kept by the event loop. *)

From S2P Require Import Prelude Hoare Memo Dom Storage Json App Sample Invariant Machine.

(** The message of the [TypeError] when [querySelector] finds no label. *)
Definition null_classList : string :=
  "Cannot read properties of null (reading 'classList')".

(** A property the event loop itself cannot break. *)
Class Stable (I : World → Prop) : Prop := {
  stable_page w p : I w → I (set_page p w);
  stable_console w entry : I w → I (console_log entry w);
  stable_microtasks w q : I w → I (set_microtasks q w);
}.

(** A fresh read of the store returns the array. *)
Definition stored `{Codec} (w : World) : Prop := persisted (memos w) (localStorage w).

(** [w'] has the blobs of [w] and at most [n] more. *)
Definition grows (n : nat) (w w' : World) : Prop :=
  objectURLs w `prefix_of` objectURLs w' ∧
  length (objectURLs w') ≤ length (objectURLs w) + n.

(** The clicks on the download link in a sequence of events. *)
Definition is_download (ev : Event) : nat :=
  match ev with ClickDownload => 1 | _ => 0 end.

Fixpoint downloaded (evs : list Event) : nat :=
  match evs with
  | [] => 0
  | ev :: evs' => is_download ev + downloaded evs'
  end.

#[export] Instance stored_dec `{Codec} w : Decision (stored w).
Proof. unfold stored, persisted. apply _. Defined.

#[export] Instance grows_dec n w w' : Decision (grows n w w').
Proof. unfold grows. apply _. Defined.

(** States to run the model on: the program started on an empty store,
    and on a store that holds something that is no array of memos. *)
Definition sample_clicks : list Event :=
  [ClickDownload; ClickAdd sample_time3; ClickDownload; ClickDelete; ClickDownload].

Definition corrupt_store : gmap string string := {[ "memos" := "[{" ]}.

(** ** The functions of Dom throw nothing but the one [TypeError] *)

Section dom_raises.
Context (X : Exn → Prop).
Implicit Types (r : ElemRef) (b : bool).

Lemma update_elem_raises r f : upholds (λ _, True) X (update_elem r f).
Proof. unfold update_elem. upholds_go ltac:(done). Qed.

Lemma setHiddenButton_raises r b : upholds (λ _, True) X (setHiddenButton r b).
Proof. unfold setHiddenButton, update_elem. upholds_go ltac:(done). Qed.

Lemma setEditMode_raises b : upholds (λ _, True) X (setEditMode b).
Proof. unfold setEditMode, update_elem. upholds_go ltac:(done). Qed.

Lemma showMemoElements_raises ms : upholds (λ _, True) X (showMemoElements ms).
Proof. unfold showMemoElements, clearMemoElements. upholds_go ltac:(done). Qed.

Lemma setActiveStyle_raises index b :
  X (TypeError null_classList) → upholds (λ _, True) X (setActiveStyle index b).
Proof. intros HX. unfold setActiveStyle. upholds_go ltac:(done). Qed.

End dom_raises.

(** A function of Dom, run on the page of the world, keeps what does not
    depend on the page. *)
Lemma upholds_dom {A} (I : World → Prop) (X : Exn → Prop) (c : Eff Page Exn A) :
  upholds (λ _, True) X c → (∀ w p, I w → I (set_page p w)) → upholds I X (dom c).
Proof. intros Hc HI. apply (upholds_zoom _ _ _ _ (λ _, True)); auto. Qed.

Ltac dom_raises :=
  first [ apply update_elem_raises | apply setHiddenButton_raises
        | apply setEditMode_raises | apply showMemoElements_raises
        | apply setActiveStyle_raises ].

(** The rules of [Hoare] along the text of a handler; [side] proves that
    a write keeps the property and that an exception is in the set. *)
Ltac handler_step side :=
  lazymatch goal with
  | |- upholds _ _ (bind (dom _) _) =>
      apply upholds_bind;
      [apply upholds_dom; [dom_raises; solve [side] | solve [side]]|intros ?]
  | |- upholds _ _ (dom _) =>
      apply upholds_dom; [dom_raises; solve [side] | solve [side]]
  | |- _ => upholds_step side
  end.

Ltac handler_go side := repeat handler_step side.

Ltac unfold_handlers :=
  unfold listener, init, clickAddMemo, selectedMemo, clickEditMemo, clickSaveMemo,
    clickDeleteMemo, clickDownloadMemo, createObjectURL, input, setMemoElement,
    current_memo.

(** ** The event loop keeps a stable property *)

Section event_loop.
Context `{Codec} `{Marked}.
Context (I : World → Prop) `{!Stable I}.
Implicit Types (w : World) (ev : Event) (evs : list Event).

Lemma run_task_stable t w : I w → I (run_task t w).
Proof. intros HI. destruct t; [by apply stable_page | by apply stable_console]. Qed.

Lemma run_microtasks_stable w : I w → I (run_microtasks w).
Proof.
  intros HI. unfold run_microtasks.
  assert (I (set_microtasks [] w)) as HI0 by by apply stable_microtasks.
  revert HI0. generalize (set_microtasks [] w).
  induction (microtasks w) as [|t ts IH]; intros w0 HI0; [done|].
  apply IH. by apply run_task_stable.
Qed.

(** The report of an exception no handler catches. *)
Lemma uncaught_stable (c : Eff World Exn unit) w : I (exec c w) → I (uncaught (c w)).
Proof.
  unfold exec, uncaught. destruct (c w) as [w' [[]|[msg]]]; [done|].
  apply stable_console.
Qed.

(** One turn, from what the listener guarantees. *)
Lemma dispatch_stable ev w :
  wp (listener ev) (λ _, I) (λ _, I) w → I (dispatch ev w).
Proof. intros HI. by apply run_microtasks_stable, uncaught_stable, wp_exec. Qed.

Lemma dispatch_upholds X ev w : upholds I X (listener ev) → I w → I (dispatch ev w).
Proof.
  intros Hev HI. apply dispatch_stable, wp_exec. by eapply upholds_exec.
Qed.

Lemma run_upholds X evs w :
  (∀ ev, upholds I X (listener ev)) → I w → I (run evs w).
Proof.
  intros Hev. revert w. induction evs as [|ev evs IH]; intros w HI; [done|].
  simpl. by eapply IH, dispatch_upholds.
Qed.

End event_loop.

(** ** The store and the array *)

Section stored.
Context `{Codec} `{Marked} `{!CodecLaws}.
Implicit Types (w : World) (ev : Event) (evs : list Event).

#[export] Instance stored_stable : Stable stored.
Proof. by split. Qed.

(** A write keeps [stored] when it leaves the array and the store alone,
    or when it is the write to the store. *)
Ltac stored_side :=
  intros; unfold stored, compose in *; rewrite ?render_preview_fields;
  repeat case_match; world_simpl;
  first [done | assumption | apply persisted_save].

Lemma listener_stored ev : upholds stored (λ _, True) (listener ev).
Proof. destruct ev; unfold_handlers; handler_go stored_side. Qed.

(** [init] reads the array from the store: it ends in [stored] wherever it
    starts. *)
Lemma init_stored timestamp1 timestamp2 w : stored (exec (init timestamp1 timestamp2) w).
Proof.
  unfold init. set (read := modify _). apply wp_exec, wp_bind.
  match goal with |- wp read (λ _, wp ?k _ _) _ _ =>
    assert (upholds stored (λ _, True) k) as Hk
  end.
  { unfold_handlers. handler_go stored_side. }
  apply wp_modify. eapply wp_mono; [| |by apply Hk]; [done | by intros ?? [??]].
Qed.

Lemma start_stored html store timestamp1 timestamp2 :
  stored (start html store timestamp1 timestamp2).
Proof.
  unfold start.
  apply (run_microtasks_stable stored), (uncaught_stable stored), init_stored.
Qed.

(** Claim C3. After the start and after every event, whatever the store
    held, whatever the page, the times and the events, also when a
    handler has thrown: a fresh read of the store returns the array. *)
Theorem always_persisted html store timestamp1 timestamp2 evs :
  let w := run evs (start html store timestamp1 timestamp2) in
  readLacalStorage STORAGE_KEY (localStorage w) = memos w.
Proof.
  exact (run_upholds stored (λ _, True) evs _ listener_stored (start_stored _ _ _ _)).
Qed.

End stored.

(** ** Blobs *)

Section blobs.
Context `{Codec} `{Marked}.
Implicit Types (w : World) (ev : Event) (evs : list Event).

#[export] Instance grows_stable n w : Stable (grows n w).
Proof. by split. Qed.

Lemma grows_refl w : grows 0 w w.
Proof. split; [done | lia]. Qed.

Lemma grows_trans n1 n2 w1 w2 w3 :
  grows n1 w1 w2 → grows n2 w2 w3 → grows (n1 + n2) w1 w3.
Proof. intros [Hp1 Hl1] [Hp2 Hl2]. split; [by etrans | lia]. Qed.

Ltac blobs_side :=
  intros; unfold grows in *; rewrite ?render_preview_fields;
  repeat case_match; world_simpl; first [done | assumption].

(** The handlers that make no blob. *)
Lemma listener_no_blob ev w :
  is_download ev = 0 → upholds (grows 0 w) (λ _, True) (listener ev).
Proof. intros Hev. destruct ev; try done; unfold_handlers; handler_go blobs_side. Qed.

(** [clickDownloadMemo] makes one, or throws before it does. *)
Lemma clickDownloadMemo_blob target w :
  wp (clickDownloadMemo target) (λ _, grows 1 w) (λ _, grows 1 w) w.
Proof.
  unfold clickDownloadMemo, current_memo, wp, grows. rewrite bind_assoc, bind_gets.
  destruct (js_nth (memos w) (memoIndex w)) as [memo|]; simpl.
  - split; [by apply prefix_app_r | rewrite length_app; simpl; lia].
  - split; [done | lia].
Qed.

Lemma listener_grows ev w :
  wp (listener ev) (λ _, grows (is_download ev) w) (λ _, grows (is_download ev) w) w.
Proof.
  destruct (decide (is_download ev = 0)) as [Hev|Hev].
  - rewrite Hev. eapply wp_mono; [| |by apply (listener_no_blob ev w), grows_refl];
      [done | by intros ?? [??]].
  - destruct ev; try done. apply clickDownloadMemo_blob.
Qed.

Lemma dispatch_grows ev w : grows (is_download ev) w (dispatch ev w).
Proof. apply dispatch_stable; [apply _ | apply listener_grows]. Qed.

(** Claim C37. No event frees or changes a blob, and only a click on the
    download link makes one: after any sequence of events the registry
    of object URLs begins with what it held, and has grown by at most the
    number of clicks on the link. *)
Theorem run_blobs evs w :
  objectURLs w `prefix_of` objectURLs (run evs w) ∧
  length (objectURLs (run evs w)) ≤ length (objectURLs w) + downloaded evs.
Proof.
  revert w. induction evs as [|ev evs IH]; intros w; [apply grows_refl|].
  exact (grows_trans _ _ _ _ _ (dispatch_grows ev w) (IH (dispatch ev w))).
Qed.

End blobs.

(** ** The theorems at work *)

Section witnesses.
#[local] Existing Instance json_codec.
#[local] Existing Instance sample_marked.
#[local] Existing Instance json_codec_laws.

Lemma always_persisted_witness :
  readLacalStorage STORAGE_KEY
    (localStorage (run sample_clicks (start blank_page corrupt_store sample_time1 sample_time2)))
  = memos (run sample_clicks (start blank_page corrupt_store sample_time1 sample_time2)).
Proof. exact (always_persisted blank_page corrupt_store sample_time1 sample_time2 sample_clicks). Defined.

End witnesses.
