(* ===== verification/Errors.v ===== *)
(** * Errors: the exceptions of the handlers

    index.ts has no [try] around a handler and reads [memos[memoIndex]] and
    the result of [querySelector] without a check.  Outside the invariant a
    handler can therefore throw a [TypeError].  This file says which:

    - [signature ev] lists the exceptions of the listener of [ev], and the
      list is exact: the listener throws nothing else in any state, and
      for each exception of the list there is a state in which it throws
      it.
    - When no memo is selected ([memoIndex] is -1, which is what
      [selectedMemo] leaves behind for an identifier it does not find), a
      click on save, delete, download or a label throws and changes
      nothing.
    - A click on add leads from any state whose identifiers are distinct
      back into the invariant: it sets the index, writes the store and
      rebuilds the labels. *)

From S2P Require Import Prelude Hoare Memo Dom Storage Json App Sample Invariant.
From S2P Require Import Machine Always.

(** The exceptions of each listener. *)
Definition signature (ev : Event) : list Exn :=
  match ev with
  | ClickAdd _ | ClickEdit | Input _ _ => []
  | ClickLabel _ => [TypeError null_classList; TypeError (reading "title")]
  | ClickSave _ => [TypeError (setting "title")]
  | ClickDelete => [TypeError (reading "id"); TypeError (reading "title")]
  | ClickDownload => [TypeError (reading "title")]
  end.

(** A state with the array [ms] and the index [i], on the page [html]. *)
Definition lost (html : Page) (i : Z) (ms : list Memo) : World :=
  {| memos := ms; memoIndex := i; page := html; localStorage := ∅;
     alerts := []; console := []; microtasks := []; objectURLs := [] |}.

(** A page with [n + 1] labels. *)
Definition labelled (n : nat) : Page :=
  set_memoList (λ _, replicate (S n) createElement) blank_page.

(** No memo is selected. *)
Definition unselected (w : World) : Prop := memoIndex w = (-1)%Z.

#[export] Instance unselected_dec w : Decision (unselected w).
Proof. unfold unselected. apply _. Defined.

(** The state [selectedMemo] leaves behind on the start state when the
    label that was clicked carries an identifier that is not in the
    array. *)
Definition sample_unselected : World :=
  (@selectedMemo sample_marked
     (setAttribute "data-id" "gone" createElement) sample_start).1.

Section errors.
Context `{Codec} `{Marked}.
Local Open Scope Z_scope.
Implicit Types (w : World) (ev : Event) (e : Exn) (now : Z) (n : nat).

(** ** Nothing but the signature *)

Lemma selectedMemo_raises target :
  upholds (λ _, True) (.∈ signature (ClickLabel 0)) (selectedMemo target).
Proof.
  unfold_handlers. handler_go ltac:(first [done | by apply (bool_decide_unpack _)]).
Qed.

Lemma clickSaveMemo_raises now w :
  wp (clickSaveMemo now) (λ _ _, True) (λ e _, e ∈ signature (ClickSave now)) w.
Proof.
  unfold wp. destruct (js_nth (memos w) (memoIndex w)) as [memo|] eqn:Hsel.
  - apply js_nth_Some in Hsel as [Hi Hk].
    by rewrite (clickSaveMemo_run now w (Z.to_nat (memoIndex w)) memo) by (lia || done).
  - unfold clickSaveMemo. rewrite (bind_throws _ _ _ _ _ (current_memo_throws _ w Hsel)).
    apply list_elem_of_here.
Qed.

Lemma clickDownloadMemo_raises target w :
  wp (clickDownloadMemo target) (λ _ _, True) (λ e _, e ∈ signature ClickDownload) w.
Proof.
  unfold wp. destruct (js_nth (memos w) (memoIndex w)) as [memo|] eqn:Hsel.
  - apply js_nth_Some in Hsel as [Hi Hk].
    by rewrite (clickDownloadMemo_run target w (Z.to_nat (memoIndex w)) memo)
      by (lia || done).
  - unfold clickDownloadMemo.
    rewrite (bind_throws _ _ _ _ _ (current_memo_throws _ w Hsel)).
    apply list_elem_of_here.
Qed.

Lemma clickDeleteMemo_raises w :
  wp clickDeleteMemo (λ _ _, True) (λ e _, e ∈ signature ClickDelete) w.
Proof.
  unfold wp. destruct (decide (length (memos w) = 1%nat)) as [Hlast|Hmore].
  { by rewrite clickDeleteMemo_last. }
  destruct (js_nth (memos w) (memoIndex w)) as [memo|] eqn:Hsel.
  - apply js_nth_Some in Hsel as [Hi Hk]. set (k := Z.to_nat (memoIndex w)) in *.
    destruct (removeById (id memo) (memos w) !! (k - 1)%nat) as [memo'|] eqn:Hk'.
    + by rewrite (clickDeleteMemo_run w k memo memo') by (lia || done).
    + rewrite (clickDeleteMemo_strands w k memo) by (lia || done).
      apply list_elem_of_further, list_elem_of_here.
  - rewrite clickDeleteMemo_throws by done. apply list_elem_of_here.
Qed.

(** In every state the listener returns or throws an exception of its
    signature. *)
Lemma listener_raises ev w :
  wp (listener ev) (λ _ _, True) (λ e _, e ∈ signature ev) w.
Proof.
  destruct ev as [now|n| |now| | |field text]; cbn [listener].
  - unfold wp. by rewrite clickAddMemo_run.
  - apply wp_bind, wp_gets. destruct (memoList (page w) !! n) as [target|]; [|done].
    eapply wp_mono; [| |by apply (selectedMemo_raises target w)]; [done|by intros ?? [_ ?]].
  - unfold wp. by rewrite clickEditMemo_run.
  - apply clickSaveMemo_raises.
  - apply clickDeleteMemo_raises.
  - apply clickDownloadMemo_raises.
  - unfold wp. by destruct (input_run field text w) as (w' & -> & _).
Qed.

(** ** All of the signature *)

Lemma labelled_lookup n : memoList (labelled n) !! n = Some createElement.
Proof. apply lookup_replicate_2. lia. Qed.

Lemma ClickLabel_null n :
  listener (ClickLabel n) (lost (labelled n) (-1) [])
  = (lost (labelled n) (-1) [], Thrown (TypeError null_classList)).
Proof. cbn [listener]. rewrite bind_gets. cbn [page lost]. by rewrite labelled_lookup. Qed.

Lemma ClickLabel_undefined n :
  ∃ w', listener (ClickLabel n) (lost (labelled n) 0 [])
        = (w', Thrown (TypeError (reading "title"))).
Proof.
  cbn [listener]. rewrite bind_gets. cbn [page lost]. rewrite labelled_lookup.
  eexists. by vm_compute.
Qed.

Lemma ClickDelete_twins memo :
  ∃ w', listener ClickDelete (lost blank_page 1 [memo; memo])
        = (w', Thrown (TypeError (reading "title"))).
Proof.
  eexists. cbn [listener].
  apply (clickDeleteMemo_strands (lost blank_page 1 [memo; memo]) 1 memo); try done.
  simpl. unfold removeById. by rewrite !filter_cons_False, filter_nil by naive_solver.
Qed.

(** For each exception of the signature, a state in which the listener
    throws it. *)
Lemma signature_thrown ev e :
  e ∈ signature ev → ∃ w w', listener ev w = (w', Thrown e).
Proof.
  destruct ev as [now|n| |now| | |field text]; cbn [signature];
    rewrite ?elem_of_cons, ?elem_of_nil; intros He; destruct_or?; try done; subst e.
  - eexists _, _. apply ClickLabel_null.
  - destruct (ClickLabel_undefined n) as [w' Hrun]. by eexists _, _.
  - by exists (lost blank_page 0 []), (lost blank_page 0 []).
  - by exists (lost blank_page 0 []), (lost blank_page 0 []).
  - destruct (ClickDelete_twins (newMemo 0 [])) as [w' Hrun]. by eexists _, _.
  - by exists (lost blank_page 0 []), (lost blank_page 0 []).
Qed.

(** Claim C16. The exceptions of the listener of an event are those of its
    signature, no more and no fewer: a click on add or edit and typing
    never throw; a click on a label throws for a missing label or a
    missing memo; save, delete and download throw for a missing memo. *)
Theorem signature_exact ev e :
  e ∈ signature ev ↔ ∃ w w', listener ev w = (w', Thrown e).
Proof.
  split; [apply signature_thrown|]. intros (w & w' & Hrun).
  pose proof (listener_raises ev w) as Hwp. unfold wp in Hwp. by rewrite Hrun in Hwp.
Qed.

(** ** No memo selected *)

(** Claim C28. With [memoIndex] at -1 a click on save, on delete when
    there is not exactly one memo, on download or on a label throws, and
    the state is what it was: nothing is written to the array, the store
    or the page. *)
Theorem unselected_throws now n div w :
  unselected w → length (memos w) ≠ 1%nat → memoList (page w) !! n = Some div →
  listener (ClickSave now) w = (w, Thrown (TypeError (setting "title"))) ∧
  listener ClickDelete w = (w, Thrown (TypeError (reading "id"))) ∧
  listener ClickDownload w = (w, Thrown (TypeError (reading "title"))) ∧
  listener (ClickLabel n) w = (w, Thrown (TypeError null_classList)).
Proof.
  intros Hi Hn Hdiv. assert (js_nth (memos w) (memoIndex w) = None) as Hsel.
  { apply js_nth_neg. rewrite Hi. lia. }
  cbn [listener]. split_and!.
  - unfold clickSaveMemo. by rewrite (bind_throws _ _ _ _ _ (current_memo_throws _ w Hsel)).
  - by apply clickDeleteMemo_throws.
  - unfold clickDownloadMemo.
    by rewrite (bind_throws _ _ _ _ _ (current_memo_throws _ w Hsel)).
  - rewrite bind_gets, Hdiv. unfold selectedMemo. rewrite bind_gets, Hi.
    erewrite dom_bind_throws; [|apply setActiveStyle_null; lia]. by rewrite set_page_page.
Qed.

(** ** The way back *)

Context `{!CodecLaws}.

(** Claim C29. From any state in which the identifiers are distinct,
    whatever the index, the labels and the store, a click on add with an
    unused identifier leads into the invariant. *)
Theorem add_recovers now w :
  NoDup (ids (memos w)) → fresh now w → Inv (dispatch (ClickAdd now) w).
Proof.
  intros Hnd Hfresh. unfold dispatch. cbn [listener]. rewrite clickAddMemo_run.
  by apply run_microtasks_Inv, clickAddMemo_restores.
Qed.

End errors.

(** ** The theorems at work *)

Section witnesses.
#[local] Existing Instance json_codec.
#[local] Existing Instance sample_marked.
#[local] Existing Instance json_codec_laws.

Lemma unselected_throws_witness :
  listener (ClickSave sample_time3) sample_unselected
  = (sample_unselected, Thrown (TypeError (setting "title"))) ∧
  listener ClickDelete sample_unselected
  = (sample_unselected, Thrown (TypeError (reading "id"))) ∧
  listener ClickDownload sample_unselected
  = (sample_unselected, Thrown (TypeError (reading "title"))) ∧
  listener (ClickLabel 1) sample_unselected
  = (sample_unselected, Thrown (TypeError null_classList)).
Proof.
  apply (unselected_throws sample_time3 1
           (label false (newMemo sample_time2 [newMemo sample_time1 []])));
    by vm_compute.
Defined.

Lemma add_recovers_witness : Inv (dispatch (ClickAdd sample_time3) sample_unselected).
Proof.
  apply add_recovers; by apply (bool_decide_unpack _); vm_compute.
Defined.

End witnesses.
