(* ===== verification/Spec.v ===== *)
(** * Spec: the state machine of the spec, and the program as its refinement

    The spec's section 4.3 describes the program as a machine whose state
    is the repository, the selected index and the mode, with the
    transitions add, select, edit, save and delete.  [State], [Action] and
    [step] are that machine; [notice] is the notice a rejected deletion
    surfaces.

    The program has no variable for the mode: the mode of a state of the
    program is what the attributes of the page show.  [refines w s] says
    that the state [w] of the program is the state [s] of the machine: the
    invariant holds, the array is the repository, the index is the selected
    index, and the page shows the mode.

    [dispatch_refines] is the simulation: an event of the program is the
    action [action_of] gives, or no action at all (a download, typing into
    a field).  [run_refines] extends it to sequences of events, and
    [run_size] reads the size formula of the spec's section 8 off it. *)

From S2P Require Import Prelude Memo Dom Storage Json App Sample Invariant Machine.

(** ** The machine *)

Record State : Type := {
  repository : list Memo;
  selectedIndex : nat;
  mode : Mode;
}.

Inductive Action : Type :=
| Add (now : Z)
| Select (i : string)
| Edit
| Save (t b : string) (now : Z)
| Delete.

(** The index of the memo with identifier [i]. *)
Definition index_of (i : string) (ms : list Memo) : option nat :=
  fst <$> list_find (λ memo, id memo = i) ms.

Definition step (a : Action) (s : State) : State :=
  match a with
  | Add now =>
      {| repository := repository s ++ [newMemo now (repository s)];
         selectedIndex := length (repository s);
         mode := Editing |}
  | Select i =>
      match index_of i (repository s) with
      | Some k => {| repository := repository s; selectedIndex := k; mode := Viewing |}
      | None => s
      end
  | Edit =>
      {| repository := repository s; selectedIndex := selectedIndex s;
         mode := Editing |}
  | Save t b now =>
      match repository s !! selectedIndex s with
      | Some memo =>
          {| repository := <[selectedIndex s := updateMemo t b now memo]> (repository s);
             selectedIndex := selectedIndex s;
             mode := Viewing |}
      | None => s
      end
  | Delete =>
      if decide (length (repository s) = 1) then s
      else
        {| repository := delete (selectedIndex s) (repository s);
           selectedIndex := selectedIndex s - 1;
           mode := Viewing |}
  end.

(** What the machine tells the user. *)
Definition notice (a : Action) (s : State) : list string :=
  match a with
  | Delete =>
      if decide (length (repository s) = 1) then ["これ以上は削除できません"] else []
  | _ => []
  end.

Definition steps (acts : list Action) (s : State) : State :=
  foldl (λ s a, step a s) s acts.

(** The memos an action makes and removes: a deletion that is rejected
    removes none. *)
Definition made (a : Action) : nat :=
  match a with Add _ => 1 | _ => 0 end.

Definition removed (a : Action) (s : State) : nat :=
  match a with
  | Delete => if decide (length (repository s) = 1) then 0 else 1
  | _ => 0
  end.

(** The same for a sequence of actions from [s]. *)
Fixpoint creates (acts : list Action) : nat :=
  match acts with
  | [] => 0
  | a :: acts' => made a + creates acts'
  end.

Fixpoint deletes (acts : list Action) (s : State) : nat :=
  match acts with
  | [] => 0
  | a :: acts' => removed a s + deletes acts' (step a s)
  end.

(** The selected index addresses a memo. *)
Definition valid (s : State) : Prop := selectedIndex s < length (repository s).

#[export] Instance valid_dec s : Decision (valid s).
Proof. unfold valid. apply _. Defined.

(** ** The program as the machine *)

(** The action an event stands for.  A click on a label selects the
    identifier the label carries; a save takes the title and the body from
    the two fields; a download and typing are no action of the machine. *)
Definition action_of (ev : Event) (w : World) : option Action :=
  match ev with
  | ClickAdd now => Some (Add now)
  | ClickLabel n =>
      target ← memoList (page w) !! n;
      i ← getAttribute "data-id" target;
      Some (Select i)
  | ClickEdit => Some Edit
  | ClickSave now =>
      Some (Save (value (memoTitle (page w))) (value (memoBody (page w))) now)
  | ClickDelete => Some Delete
  | ClickDownload | Input _ _ => None
  end.

(** The state of the machine, and what it says, after the action of an
    event. *)
Definition next (ev : Event) (w : World) (s : State) : State :=
  match action_of ev w with
  | Some a => step a s
  | None => s
  end.

Definition said (ev : Event) (w : World) (s : State) : list string :=
  match action_of ev w with
  | Some a => notice a s
  | None => []
  end.

(** The actions of a sequence of events from [w]. *)
Fixpoint actions_of `{Codec} `{Marked} (evs : list Event) (w : World) : list Action :=
  match evs with
  | [] => []
  | ev :: evs' =>
      match action_of ev w with
      | Some a => [a]
      | None => []
      end ++ actions_of evs' (dispatch ev w)
  end.

(** What the machine says along a sequence of actions from [s]. *)
Fixpoint notes (acts : list Action) (s : State) : list string :=
  match acts with
  | [] => []
  | a :: acts' => notice a s ++ notes acts' (step a s)
  end.

(** The clicks on the add button in a sequence of events, and the clicks on
    the delete button that happen while more than one memo is left. *)
Fixpoint added (evs : list Event) : nat :=
  match evs with
  | [] => 0
  | ev :: evs' => match ev with ClickAdd _ => 1 | _ => 0 end + added evs'
  end.

Fixpoint deleted `{Codec} `{Marked} (evs : list Event) (w : World) : nat :=
  match evs with
  | [] => 0
  | ev :: evs' =>
      match ev with
      | ClickDelete => if decide (length (memos w) = 1) then 0 else 1
      | _ => 0
      end + deleted evs' (dispatch ev w)
  end.

(** The state the machine starts in: the memos the store holds, or the two
    default memos; the first is selected, in viewing mode. *)
Definition initial (timestamp1 timestamp2 : Z) (loaded : list Memo) : State :=
  {| repository := initial_memos timestamp1 timestamp2 loaded;
     selectedIndex := 0;
     mode := Viewing |}.

(** The states the machine reaches from [s0]. *)
Inductive spec_reachable (s0 : State) : State → Prop :=
| spec_reachable_initial : spec_reachable s0 s0
| spec_reachable_step a s : spec_reachable s0 s → spec_reachable s0 (step a s).

(** A page whose fields are read-only and whose preview is visible, as the
    viewing mode has them. *)
Definition viewing_fields (html : Page) : Prop :=
  hasAttribute "disabled" (memoTitle html) = true ∧
  hasAttribute "disabled" (memoBody html) = true ∧
  hasAttribute "hidden" (memoBody html) = true ∧
  hasAttribute "hidden" (previewBody html) = false.

#[export] Instance viewing_fields_dec html : Decision (viewing_fields html).
Proof. unfold viewing_fields. apply _. Defined.

(** Every event of the sequence is allowed in the state it happens in. *)
Fixpoint allowed_run `{Codec} `{Marked} (evs : list Event) (w : World) : Prop :=
  match evs with
  | [] => True
  | ev :: evs' => allowed ev w ∧ allowed_run evs' (dispatch ev w)
  end.

(** ** The refinement relation *)

Section relation.
Context `{Codec} `{Marked}.

(** The data of [w] are the data of [s]. *)
Definition refines_data (w : World) (s : State) : Prop :=
  Inv w ∧ repository s = memos w ∧ Z.of_nat (selectedIndex s) = memoIndex w.

(** ... and the page shows the mode of [s]. *)
Definition refines (w : World) (s : State) : Prop :=
  refines_data w s ∧ shows (mode s) (page w).

(** The state of the machine a state of the program stands for, when its
    page shows the mode [m]. *)
Definition abs (m : Mode) (w : World) : State :=
  {| repository := memos w; selectedIndex := Z.to_nat (memoIndex w); mode := m |}.

#[export] Instance refines_data_dec w s : Decision (refines_data w s).
Proof. unfold refines_data. apply _. Defined.

#[export] Instance refines_dec w s : Decision (refines w s).
Proof. unfold refines. apply _. Defined.

#[export] Instance allowed_run_dec evs w : Decision (allowed_run evs w).
Proof. revert w. induction evs as [|ev evs IH]; intros w; simpl; apply _. Defined.

(** [w'] has the data and the attributes of [w]. *)
Definition same_view (w w' : World) : Prop :=
  memos w' = memos w ∧ memoIndex w' = memoIndex w ∧
  memoList (page w') = memoList (page w) ∧ localStorage w' = localStorage w ∧
  ∀ m, shows m (page w') ↔ shows m (page w).

(** From [w] and [s] the program has reached [w1] and the machine [s1],
    and the program has shown the notices the machine gave. *)
Definition simulates (w w1 : World) (s s1 : State) (notices : list string) : Prop :=
  refines_data w1 s1 ∧
  (shows (mode s) (page w) → shows (mode s1) (page w1)) ∧
  alerts w1 = alerts w ++ notices.

End relation.

(** ** States to run the model on *)

(** The program after a click on the edit button, and the events that
    follow: a save, an add, two deletions, a click on the first label. *)
Definition sample_editing : World :=
  @dispatch json_codec sample_marked ClickEdit sample_start.

Definition sample_events : list Event :=
  [Input MemoTitle "shopping"; ClickSave sample_time3; ClickAdd sample_time3;
   ClickDelete; ClickDelete; ClickDelete; ClickLabel 0].

(** A page in viewing mode. *)
Definition viewing_page : Page :=
  page_setEditMode false blank_page.

(** ** The machine alone *)

Section machine_facts.
Implicit Types (s : State) (a : Action) (acts : list Action).

Lemma index_of_lt i ms k : index_of i ms = Some k → k < length ms.
Proof.
  unfold index_of. destruct (list_find _ ms) as [[j memo]|] eqn:Hf; [|done].
  intros [= <-]. apply list_find_Some in Hf as (Hj & _). by eapply lookup_lt_Some.
Qed.

(** With distinct identifiers the identifier of the memo at [k] is found
    at [k]. *)
Lemma index_of_NoDup ms k memo :
  NoDup (ids ms) → ms !! k = Some memo → index_of (id memo) ms = Some k.
Proof.
  intros Hnd Hk. unfold index_of.
  assert (list_find (λ memo', id memo' = id memo) ms = Some (k, memo)) as ->; [|done].
  apply list_find_Some. split_and!; [done..|].
  intros j memo' Hj Hlt Heq.
  pose proof (NoDup_ids_lookup_eq _ _ _ _ _ Hnd Hj Hk Heq). lia.
Qed.

Lemma step_valid a s : valid s → valid (step a s).
Proof.
  unfold valid. intros Hs. destruct a as [now|i| |t b now|]; simpl.
  - rewrite length_app. simpl. lia.
  - destruct (index_of i (repository s)) as [k|] eqn:Hk; [|done].
    simpl. by eapply index_of_lt.
  - done.
  - destruct (repository s !! selectedIndex s); [|done].
    simpl. by rewrite length_insert.
  - case_decide; [done|]. simpl. rewrite length_delete by by apply lookup_lt_is_Some.
    lia.
Qed.

Lemma steps_valid acts s : valid s → valid (steps acts s).
Proof.
  revert s. induction acts as [|a acts IH]; intros s Hs; [done|].
  simpl. by apply IH, step_valid.
Qed.

(** One action changes the size by the memo made or the memo removed. *)
Lemma step_size a s :
  valid s →
  length (repository (step a s)) + removed a s = length (repository s) + made a.
Proof.
  unfold valid. intros Hs. destruct a as [now|i| |t b now|]; simpl.
  - rewrite length_app. simpl. lia.
  - destruct (index_of i (repository s)); simpl; lia.
  - lia.
  - destruct (repository s !! selectedIndex s); simpl; rewrite ?length_insert; lia.
  - case_decide; simpl; [lia|].
    rewrite length_delete by by apply lookup_lt_is_Some. lia.
Qed.

(** The size after a sequence of actions is the size before, plus the
    memos made, minus the memos removed. *)
Lemma steps_size acts s :
  valid s →
  length (repository (steps acts s)) + deletes acts s
  = length (repository s) + creates acts.
Proof.
  revert s. induction acts as [|a acts IH]; intros s Hs; [simpl; lia|].
  simpl. pose proof (IH (step a s) (step_valid a s Hs)).
  pose proof (step_size a s Hs). lia.
Qed.

End machine_facts.

(** ** The program refines the machine *)

Section refinement.
Context `{Codec} `{Marked}.
Implicit Types (w : World) (s : State) (ev : Event) (k j : nat) (memo : Memo).

Lemma refines_data_valid w s : refines_data w s → valid s.
Proof.
  intros (HInv & Hrepo & Hindex). unfold valid. rewrite Hrepo.
  pose proof (Inv_index_range w HInv) as Hrange. unfold js_length in Hrange. lia.
Qed.

Lemma refines_data_selected w s :
  refines_data w s →
  ∃ memo, memoIndex w = Z.of_nat (selectedIndex s) ∧
    memos w !! selectedIndex s = Some memo.
Proof.
  intros (HInv & Hrepo & Hindex).
  destruct (Inv_selected w HInv) as (k & memo & Hi & Hk).
  assert (selectedIndex s = k) as -> by lia. by exists memo.
Qed.

Lemma abs_refines_data m w : Inv w → refines_data w (abs m w).
Proof.
  intros HInv. split_and!; [done..|]. simpl.
  pose proof (Inv_index_range w HInv). lia.
Qed.

Context `{!CodecLaws}.

(** A state a handler has rebuilt is the state of the machine with the
    same array, index and mode. *)
Lemma refreshed_refines (editMode : bool) ms k memo w s :
  ms !! k = Some memo → NoDup (ids ms) → persisted ms (localStorage w) →
  repository s = ms → selectedIndex s = k →
  mode s = (if editMode then Editing else Viewing) →
  refines (refreshed editMode ms k memo w) s ∧
  alerts (refreshed editMode ms k memo w) = alerts w.
Proof.
  intros Hk Hnd Hstore Hrepo Hindex Hmode.
  pose proof (refreshed_Inv editMode ms k memo w Hk Hnd Hstore) as HInv.
  unfold refines, refines_data.
  destruct (refreshed_spec editMode ms k memo w)
    as (-> & -> & _ & _ & (Hshows & _) & -> & _).
  by rewrite Hrepo, Hindex, Hmode.
Qed.

(** *** The actions that set the mode *)

Lemma add_refines now w s :
  refines_data w s → fresh now w →
  refines (clickAddMemo_post now w) (step (Add now) s) ∧
  alerts (clickAddMemo_post now w) = alerts w.
Proof.
  intros ((_ & Hnd & _) & Hrepo & _) Hfresh. simpl. rewrite Hrepo.
  apply (refreshed_refines true _ _ _ (set_localStorage _ w)); try done.
  - by apply list_lookup_middle.
  - by apply ids_snoc_NoDup.
  - apply persisted_save.
Qed.

Lemma select_refines w s j memo :
  refines_data w s → memos w !! j = Some memo →
  refines (selectedMemo_post j memo w) (step (Select (id memo)) s) ∧
  alerts (selectedMemo_post j memo w) = alerts w.
Proof.
  intros ((_ & Hnd & _ & Hstore) & Hrepo & _) Hj. simpl.
  rewrite Hrepo, (index_of_NoDup _ j) by done.
  by apply (refreshed_refines false).
Qed.

Lemma edit_refines w s :
  refines_data w s →
  refines (clickEditMemo_post w) (step Edit s) ∧
  alerts (clickEditMemo_post w) = alerts w.
Proof.
  intros (HInv & Hrepo & Hindex). split; [|done].
  split; [|apply (page_setMode_shows true)].
  split_and!; [by apply clickEditMemo_Inv | done..].
Qed.

Lemma save_refines now w s memo :
  refines_data w s → memos w !! selectedIndex s = Some memo →
  let t := value (memoTitle (page w)) in
  let b := value (memoBody (page w)) in
  refines (clickSaveMemo_post now (selectedIndex s) memo w) (step (Save t b now) s) ∧
  alerts (clickSaveMemo_post now (selectedIndex s) memo w) = alerts w.
Proof.
  intros ((_ & Hnd & _) & Hrepo & _) Hk t b. simpl. rewrite Hrepo, Hk.
  apply (refreshed_refines false _ _ _ (set_localStorage _ w)); try done.
  - apply list_lookup_insert_eq. by eapply lookup_lt_Some.
  - by rewrite ids_insert_updateMemo.
  - apply persisted_save.
Qed.

Lemma delete_refines w s memo memo' :
  refines_data w s → length (memos w) ≠ 1%nat →
  memos w !! selectedIndex s = Some memo →
  delete (selectedIndex s) (memos w) !! (selectedIndex s - 1)%nat = Some memo' →
  refines (clickDeleteMemo_post (id memo) (selectedIndex s - 1) memo' w) (step Delete s) ∧
  alerts (clickDeleteMemo_post (id memo) (selectedIndex s - 1) memo' w)
  = alerts w ++ notice Delete s.
Proof.
  intros ((_ & Hnd & _) & Hrepo & _) Hlen Hk Hk'. simpl.
  rewrite Hrepo, !decide_False, app_nil_r by done.
  unfold clickDeleteMemo_post. rewrite (removeById_NoDup _ _ _ Hnd Hk).
  apply (refreshed_refines false _ _ _ (set_localStorage _ w)); try done.
  - rewrite <-(removeById_NoDup _ _ _ Hnd Hk). by apply removeById_NoDup_ids.
  - apply persisted_save.
Qed.

(** *** The events that keep the mode *)

Lemma same_view_refines w w' s :
  same_view w w' →
  (refines_data w s → refines_data w' s) ∧
  (shows (mode s) (page w) → shows (mode s) (page w')).
Proof.
  intros (Hm & Hi & Hl & Hs & Hview). unfold refines_data, Inv.
  rewrite Hm, Hi, Hl, Hs. split; [done | apply Hview].
Qed.

Lemma alert_same_view msg w : same_view w (alert msg w).
Proof. done. Qed.

Lemma download_same_view w memo :
  same_view w (clickDownloadMemo_post DownloadLink memo w).
Proof. done. Qed.

Lemma input_same_view field text w : same_view w (input field text w).1.
Proof.
  destruct (input_run field text w) as (w' & Hrun & Hm & Hi & Hl & Hs).
  split_and!; [by rewrite Hrun.. | apply input_view].
Qed.

Lemma run_microtasks_same_view w : same_view w (run_microtasks w).
Proof.
  destruct (run_microtasks_fields w) as (Hm & Hi & Hl & Hs).
  split_and!; [done.. | apply run_microtasks_view].
Qed.

(** *** The simulation *)

Lemma refines_simulates w w1 s s1 :
  refines w1 s1 ∧ alerts w1 = alerts w → simulates w w1 s s1 [].
Proof. intros [[Hdata Hshows] Halerts]. by rewrite <-(app_nil_r (alerts w)) in Halerts. Qed.

Lemma same_view_simulates w w1 s notices :
  same_view w w1 → refines_data w s → alerts w1 = alerts w ++ notices →
  simulates w w1 s s notices.
Proof.
  intros Hview Hdata Halerts.
  destruct (same_view_refines w w1 s Hview) as [Hd Hs].
  split_and!; [by apply Hd | done..].
Qed.

Lemma delete_simulates w s :
  refines_data w s →
  ∃ w1, clickDeleteMemo w = (w1, Done tt) ∧
    simulates w w1 s (step Delete s) (notice Delete s).
Proof.
  intros Hdata. pose proof Hdata as (HInv & Hrepo & _).
  destruct (refines_data_selected w s Hdata) as (memo & Hi & Hk).
  destruct (decide (length (memos w) = 1%nat)) as [Hlast|Hmore].
  { eexists. split; [by apply clickDeleteMemo_last|]. simpl.
    rewrite Hrepo, !decide_True by done.
    by apply same_view_simulates; [apply alert_same_view|..]. }
  destruct (delete_lookup_pred (memos w) (selectedIndex s)) as [memo' Hk'];
    [pose proof (Inv_nonempty w HInv); lia | by eapply lookup_lt_Some |].
  destruct HInv as (_ & Hnd & _).
  destruct (delete_refines w s memo memo' Hdata Hmore Hk Hk') as [[Hd Hs] Halerts].
  eexists. split; [|by split_and!].
  apply clickDeleteMemo_run; try done. by rewrite (removeById_NoDup _ _ _ Hnd Hk).
Qed.

Lemma select_simulates w s n :
  refines_data w s →
  ∃ w1, listener (ClickLabel n) w = (w1, Done tt) ∧
    simulates w w1 s (next (ClickLabel n) w s) (said (ClickLabel n) w s).
Proof.
  intros Hdata. pose proof Hdata as (HInv & _). unfold next, said. simpl.
  rewrite bind_gets. destruct (memoList (page w) !! n) as [target|] eqn:Hn; simpl.
  - destruct (Inv_label_id w n target HInv Hn) as (memo & Hm & ->). simpl.
    destruct (selectedMemo_Inv w n target HInv Hn) as (memo' & Hm' & Hrun & _).
    simplify_eq. eexists. split; [exact Hrun|].
    by apply refines_simulates, select_refines.
  - eexists. split; [done|]. apply same_view_simulates; [done..|].
    by rewrite app_nil_r.
Qed.

(** The listener of an allowed event returns, in a state that is the next
    state of the machine, having shown what the machine says. *)
Lemma listener_simulates ev w s :
  refines_data w s → allowed ev w →
  ∃ w1, listener ev w = (w1, Done tt) ∧
    simulates w w1 s (next ev w s) (said ev w s).
Proof.
  intros Hdata Hok.
  destruct (refines_data_selected w s Hdata) as (memo & Hi & Hk).
  destruct ev as [now|n| |now| | |field text];
    [| by apply select_simulates | | | by apply delete_simulates | |];
    unfold next, said; simpl.
  - eexists. split; [apply clickAddMemo_run|].
    by apply refines_simulates, add_refines.
  - eexists. split; [apply clickEditMemo_run|].
    by apply refines_simulates, edit_refines.
  - eexists. split; [by apply clickSaveMemo_run|].
    by apply refines_simulates, save_refines.
  - eexists. split; [by eapply clickDownloadMemo_run|].
    apply same_view_simulates; [apply download_same_view | done | by rewrite app_nil_r].
  - exists (input field text w).1.
    split; [by destruct (input_run field text w) as (w' & -> & _)|].
    apply same_view_simulates; [apply input_same_view | done |].
    rewrite app_nil_r. apply (input_view field text w Viewing).
Qed.

(** One turn of the event loop is one step of the machine, or none. *)
Lemma dispatch_simulates ev w s :
  refines_data w s → allowed ev w →
  simulates w (dispatch ev w) s (next ev w s) (said ev w s).
Proof.
  intros Hdata Hok. unfold dispatch.
  destruct (listener_simulates ev w s Hdata Hok) as (w1 & -> & Hd & Hs & Halerts).
  simpl. pose proof (run_microtasks_same_view w1) as Hview.
  destruct (same_view_refines w1 (run_microtasks w1) (next ev w s) Hview) as [Hd' Hs'].
  destruct (run_microtasks_view w1 Viewing) as [_ Hal].
  split_and!; [by apply Hd' | by intros ?%Hs%Hs' | by rewrite Hal].
Qed.

(** *** Sequences of events *)

Lemma simulates_trans w w1 w2 s s1 s2 notices1 notices2 :
  simulates w w1 s s1 notices1 → simulates w1 w2 s1 s2 notices2 →
  simulates w w2 s s2 (notices1 ++ notices2).
Proof.
  intros (_ & Hs1 & Ha1) (Hd2 & Hs2 & Ha2).
  split_and!; [done | by intros ?%Hs1%Hs2 | by rewrite Ha2, Ha1, app_assoc].
Qed.

(** The actions of a sequence that starts with [ev] are the action of
    [ev], if any, and then those of the rest. *)
Lemma actions_of_cons ev evs w s :
  steps (actions_of (ev :: evs) w) s
  = steps (actions_of evs (dispatch ev w)) (next ev w s) ∧
  notes (actions_of (ev :: evs) w) s
  = said ev w s ++ notes (actions_of evs (dispatch ev w)) (next ev w s) ∧
  creates (actions_of (ev :: evs) w)
  = (match ev with ClickAdd _ => 1 | _ => 0 end
     + creates (actions_of evs (dispatch ev w)))%nat.
Proof.
  unfold next, said. simpl. destruct (action_of ev w) as [a|] eqn:Ha; simpl.
  - split_and!; [done..|]. by destruct ev; simplify_option_eq.
  - split_and!; [done..|]. by destruct ev.
Qed.

Lemma run_simulates evs w s :
  refines_data w s → allowed_run evs w →
  simulates w (run evs w) s
    (steps (actions_of evs w) s) (notes (actions_of evs w) s).
Proof.
  revert w s. induction evs as [|ev evs IH]; intros w s Hdata Hok.
  { split_and!; [done.. | by rewrite app_nil_r]. }
  destruct Hok as [Hev Hok].
  destruct (actions_of_cons ev evs w s) as (-> & -> & _).
  pose proof (dispatch_simulates ev w s Hdata Hev) as Hstep.
  eapply simulates_trans; [exact Hstep|]. apply IH; [apply Hstep | done].
Qed.

(** The clicks counted on the events are the memos the machine makes and
    removes. *)
Lemma actions_of_counts evs w s :
  refines_data w s → allowed_run evs w →
  creates (actions_of evs w) = added evs ∧
  deletes (actions_of evs w) s = deleted evs w.
Proof.
  revert w s. induction evs as [|ev evs IH]; intros w s Hdata Hok; [done|].
  destruct Hok as [Hev Hok].
  destruct (dispatch_simulates ev w s Hdata Hev) as (Hdata' & _).
  destruct (IH _ _ Hdata' Hok) as [Hc Hd].
  destruct (actions_of_cons ev evs w s) as (_ & _ & ->).
  destruct Hdata as (_ & Hrepo & _). unfold next in Hd.
  split; [simpl; by rewrite Hc|].
  simpl. rewrite <-Hrepo.
  destruct (action_of ev w) as [a|] eqn:Ha; simpl; rewrite Hd;
    destruct ev; by simplify_option_eq.
Qed.

(** *** The start *)

Lemma start_refines_data html store timestamp1 timestamp2 :
  NoDup (ids (readLacalStorage STORAGE_KEY store)) →
  refines_data (start html store timestamp1 timestamp2)
    (initial timestamp1 timestamp2 (readLacalStorage STORAGE_KEY store)).
Proof.
  intros Hnd.
  pose proof (start_Inv html store timestamp1 timestamp2 Hnd) as HInv.
  revert HInv. unfold start.
  destruct (initial_memos_nonempty timestamp1 timestamp2
    (readLacalStorage STORAGE_KEY store)) as [memo Hk].
  rewrite (init_run timestamp1 timestamp2 (boot html store) memo) by done.
  simpl. intros HInv.
  destruct (init_post_fields timestamp1 timestamp2 memo (boot html store))
    as (Hm1 & Hi1 & _).
  set (w1 := init_post _ _ _ _) in *.
  destruct (run_microtasks_fields w1) as (Hm & Hi & _).
  split_and!; [done | by rewrite Hm, Hm1 | by rewrite Hi, Hi1].
Qed.

(** On a page whose fields are in viewing mode the start shows the viewing
    mode. *)
Lemma start_shows html store timestamp1 timestamp2 :
  viewing_fields html → shows Viewing (page (start html store timestamp1 timestamp2)).
Proof.
  intros (Ht & Hb & Hbh & Hp). unfold start.
  destruct (initial_memos_nonempty timestamp1 timestamp2
    (readLacalStorage STORAGE_KEY store)) as [memo Hk].
  rewrite (init_run timestamp1 timestamp2 (boot html store) memo) by done.
  simpl.
  destruct (init_post_fields timestamp1 timestamp2 memo (boot html store))
    as (_ & _ & _ & _ & He & Hs & Htitle & Hbody & Hpreview).
  apply run_microtasks_view. unfold shows.
  rewrite He, Hs, Htitle, Hbody, Hpreview. simpl. by autorewrite with dom.
Qed.

(** ** The theorems *)

(** Claim C6. Refinement, for sequences of events.  From a state of the
    program that is a state of the machine, a sequence of allowed events
    leads to the state the machine reaches by the actions of those events,
    and the notices the program has shown are those the machine gave. *)
Theorem run_refines evs w s :
  refines w s → allowed_run evs w →
  refines (run evs w) (steps (actions_of evs w) s) ∧
  alerts (run evs w) = alerts w ++ notes (actions_of evs w) s.
Proof.
  intros [Hdata Hshows] Hok.
  destruct (run_simulates evs w s Hdata Hok) as (Hdata' & Hshows' & Halerts).
  split; [split|]; auto.
Qed.

(** Claim C7. Refinement, from the start.  Started on a page whose fields
    are in viewing mode and on a store whose memos have distinct
    identifiers, the program is at every moment in a state the machine
    reaches from its initial state. *)
Theorem reachable_refines html store w :
  NoDup (ids (readLacalStorage STORAGE_KEY store)) → viewing_fields html →
  reachable html store w →
  ∃ timestamp1 timestamp2 s,
    spec_reachable
      (initial timestamp1 timestamp2 (readLacalStorage STORAGE_KEY store)) s ∧
    refines w s.
Proof.
  intros Hnd Hhtml Hreach. induction Hreach as [t1 t2|w ev _ IH Hok].
  { exists t1, t2, (initial t1 t2 (readLacalStorage STORAGE_KEY store)).
    split; [constructor|].
    split; [by apply start_refines_data | by apply start_shows]. }
  destruct IH as (t1 & t2 & s & Hs & [Hdata Hshows]).
  destruct (dispatch_simulates ev w s Hdata Hok) as (Hdata' & Hshows' & _).
  exists t1, t2, (next ev w s). split; [|split; auto].
  unfold next. destruct (action_of ev w); [by constructor | done].
Qed.

(** Claim C8. The size formula.  After a sequence of allowed events from a
    state that satisfies the invariant, the number of memos is the number
    before, plus the clicks on the add button, minus the clicks on the
    delete button made while more than one memo was left; and it is at
    least 1. *)
Theorem run_size evs w :
  Inv w → allowed_run evs w →
  (length (memos (run evs w)) + deleted evs w = length (memos w) + added evs)%nat ∧
  (1 ≤ length (memos (run evs w)))%nat.
Proof.
  intros HInv Hok. pose proof (abs_refines_data Viewing w HInv) as Hdata.
  destruct (run_simulates evs w _ Hdata Hok) as ((HInv' & Hrepo & _) & _).
  destruct (actions_of_counts evs w _ Hdata Hok) as [<- <-].
  split; [|by apply Inv_nonempty].
  rewrite <-Hrepo. apply (steps_size _ (abs Viewing w)).
  by eapply refines_data_valid.
Qed.

End refinement.

(** ** The theorems at work *)

Section witnesses.
#[local] Existing Instance json_codec.
#[local] Existing Instance sample_marked.
#[local] Existing Instance json_codec_laws.

Lemma run_refines_witness :
  refines (run sample_events sample_editing)
    (steps (actions_of sample_events sample_editing) (abs Editing sample_editing)) ∧
  alerts (run sample_events sample_editing)
  = alerts sample_editing
    ++ notes (actions_of sample_events sample_editing) (abs Editing sample_editing).
Proof.
  apply run_refines; by apply (bool_decide_unpack _); vm_compute.
Defined.

Lemma reachable_refines_witness :
  ∃ timestamp1 timestamp2 s,
    spec_reachable
      (initial timestamp1 timestamp2
         (readLacalStorage STORAGE_KEY (∅ : gmap string string))) s ∧
    refines (dispatch ClickDelete (start viewing_page ∅ sample_time1 sample_time2)) s.
Proof.
  apply (reachable_refines viewing_page ∅);
    [apply NoDup_nil_2 | by apply (bool_decide_unpack _); vm_compute |].
  apply reachable_step; [apply reachable_start | exact I].
Defined.

Lemma run_size_witness :
  (length (memos (run sample_events sample_editing))
   + deleted sample_events sample_editing
   = length (memos sample_editing) + added sample_events)%nat ∧
  (1 ≤ length (memos (run sample_events sample_editing)))%nat.
Proof.
  apply run_size; by apply (bool_decide_unpack _); vm_compute.
Defined.

End witnesses.
