(* ===== verification/Clock.v ===== *)
(** * Clock: when identifiers are distinct

    [newMemo] builds the identifier from the time and the size of the
    array.  The theorems of [Machine] and [Spec] assume of every click on
    the add button that the identifier it builds is not in use.  This file
    discharges the assumption from the clock: when times have thirteen
    digits (they do from 2001 to 2286), when the memos in the array carry
    identifiers that begin with their creation time (the ones [newMemo]
    builds do), and when the time of the click is later than the creation
    time of every memo, the identifier is new.

    [timely evs w] says that of a sequence of events; under it the sequence
    is allowed, so everything proved of allowed sequences holds.  From the
    start no assumption on identifiers is left but the one on the store,
    and the program leaves a store of which it holds ([timely_ids_unique]). *)

From S2P Require Import Prelude Memo Dom Storage Json App Sample Invariant Machine Spec.

(** A time of thirteen digits. *)
Definition thirteen (t : Z) : Prop := (10 ^ 12 ≤ t < 10 ^ 13)%Z.

(** The identifier of [memo] begins with its creation time. *)
Definition stamped (memo : Memo) : Prop :=
  thirteen (createdAt memo) ∧
  String.substring 0 13 (id memo) = toString (createdAt memo).

(** The time [now] is later than the creation of every memo. *)
Definition later (now : Z) (memos : list Memo) : Prop :=
  thirteen now ∧ Forall (λ memo, createdAt memo < now)%Z memos.

(** Every click on the add button in the sequence comes later than the
    creation of the memos of the state it happens in. *)
Fixpoint timely `{Codec} `{Marked} (evs : list Event) (w : World) : Prop :=
  match evs with
  | [] => True
  | ev :: evs' =>
      match ev with
      | ClickAdd now => later now (memos w)
      | _ => True
      end ∧ timely evs' (dispatch ev w)
  end.

(** The memo was saved no earlier than it was made. *)
Definition ordered (memo : Memo) : Prop := (createdAt memo ≤ updateAt memo)%Z.

(** Every click on the save button in the sequence comes no earlier than
    the creation of the memos of the state it happens in. *)
Fixpoint chronological `{Codec} `{Marked} (evs : list Event) (w : World) : Prop :=
  match evs with
  | [] => True
  | ev :: evs' =>
      match ev with
      | ClickSave now => Forall (λ memo, createdAt memo ≤ now)%Z (memos w)
      | _ => True
      end ∧ chronological evs' (dispatch ev w)
  end.

#[export] Instance thirteen_dec t : Decision (thirteen t).
Proof. unfold thirteen. apply _. Defined.

#[export] Instance stamped_dec memo : Decision (stamped memo).
Proof. unfold stamped. apply _. Defined.

#[export] Instance later_dec now memos : Decision (later now memos).
Proof. unfold later. apply _. Defined.

#[export] Instance timely_dec `{Codec} `{Marked} evs w : Decision (timely evs w).
Proof.
  revert w. induction evs as [|ev evs IH]; intros w; simpl; [apply _|].
  destruct ev; apply _.
Defined.

#[export] Instance ordered_dec memo : Decision (ordered memo).
Proof. unfold ordered. apply _. Defined.

#[export] Instance chronological_dec `{Codec} `{Marked} evs w :
  Decision (chronological evs w).
Proof.
  revert w. induction evs as [|ev evs IH]; intros w; simpl; [apply _|].
  destruct ev; apply _.
Defined.

(** ** Digits *)

Section digits.
Implicit Types (s rest : string) (x : N) (k : nat).

Lemma substring_app_prefix s rest :
  String.substring 0 (String.length s) (s +:+ rest) = s.
Proof.
  induction s as [|c s IH]; simpl; [by destruct rest|]. by rewrite IH.
Qed.

(** A number between [10^k] and [10^(k+1)] prints with [k+1] digits. *)
Lemma pretty_N_go_length k x s :
  (10 ^ N.of_nat k ≤ x < 10 ^ N.of_nat (S k))%N →
  String.length (pretty_N_go x s) = S k + String.length s.
Proof.
  revert x s. induction k as [|k IH]; intros x s Hx.
  - rewrite pretty_N_go_step by (simpl in Hx; lia).
    rewrite N.div_small by (simpl in Hx; lia). by rewrite pretty_N_go_0.
  - assert (0 < x)%N by (pose proof (N.pow_nonzero 10 (N.of_nat (S k))); lia).
    rewrite pretty_N_go_step by done.
    rewrite IH; [simpl; lia|].
    rewrite !Nat2N.inj_succ, !N.pow_succ_r' in *.
    split; [apply N.div_le_lower_bound | apply N.Div0.div_lt_upper_bound]; lia.
Qed.

(** A time of thirteen digits is a number a double holds exactly. *)
Lemma thirteen_safe (t : Z) : thirteen t → (- 2 ^ 53 < t < 2 ^ 53)%Z.
Proof. unfold thirteen. lia. Qed.

Lemma toString_length (t : Z) : thirteen t → String.length (toString t) = 13.
Proof.
  intros [Hlo Hhi]. destruct t as [|x|x]; [lia | | lia].
  unfold toString, pretty, pretty_Z, pretty, pretty_positive, pretty, pretty_N.
  rewrite decide_False by done.
  rewrite (pretty_N_go_length 12) by (change 10%N with (Z.to_N 10); lia). done.
Qed.

End digits.

(** ** Identifiers *)

Section identifiers.
Implicit Types (memo : Memo) (memos : list Memo) (now : Z).

Lemma newMemo_stamped now memos : thirteen now → stamped (newMemo now memos).
Proof.
  intros Hnow. split; [done|]. simpl.
  rewrite <-(toString_length now Hnow). apply substring_app_prefix.
Qed.

Lemma updateMemo_stamped t b now memo :
  stamped memo → stamped (updateMemo t b now memo).
Proof. done. Qed.

(** The identifier built at a later time is not the identifier of a
    stamped memo. *)
Lemma later_fresh_id now memos :
  Forall stamped memos → later now memos →
  id (newMemo now memos) ∉ ids memos.
Proof.
  intros Hst [Hnow Hlater] (memo & Heq & Hin)%list_elem_of_fmap.
  rewrite Forall_forall in Hst, Hlater.
  destruct (Hst memo Hin) as [_ Hid]. specialize (Hlater memo Hin).
  destruct (newMemo_stamped now memos Hnow) as [_ Hnew].
  rewrite Heq, Hid in Hnew. apply (inj pretty) in Hnew. simpl in Hnew. lia.
Qed.

End identifiers.

(** ** Stamped arrays *)

Section stamped_arrays.
Implicit Types (s : State) (a : Action) (memos : list Memo).

(** The machine keeps the memos stamped when it adds at times of thirteen
    digits. *)
Lemma step_stamped a s :
  match a with Add now => thirteen now | _ => True end →
  Forall stamped (repository s) → Forall stamped (repository (step a s)).
Proof.
  intros Ha Hst. destruct a as [now|i| |t b now|]; simpl.
  - apply Forall_app. split; [done|]. apply Forall_singleton.
    by apply newMemo_stamped.
  - by destruct (index_of i (repository s)).
  - done.
  - destruct (repository s !! selectedIndex s) as [memo|] eqn:Hk; [|done].
    simpl. apply Forall_insert; [done|].
    by eapply updateMemo_stamped, Forall_lookup_1.
  - case_decide; [done|]. simpl. by apply Forall_delete.
Qed.

(** ... and the memos ordered when it saves no earlier than they were
    made. *)
Lemma step_ordered a s :
  match a with
  | Save _ _ now => Forall (λ memo, createdAt memo ≤ now)%Z (repository s)
  | _ => True
  end →
  Forall ordered (repository s) → Forall ordered (repository (step a s)).
Proof.
  intros Ha Hord. destruct a as [now|i| |t b now|]; simpl.
  - apply Forall_app. split; [done|]. apply Forall_singleton. unfold ordered. simpl. lia.
  - by destruct (index_of i (repository s)).
  - done.
  - destruct (repository s !! selectedIndex s) as [memo|] eqn:Hk; [|done].
    simpl. apply Forall_insert; [done|].
    eapply Forall_lookup_1 in Ha; [|exact Hk]. done.
  - case_decide; [done|]. simpl. by apply Forall_delete.
Qed.

End stamped_arrays.

(** ** Sequences of events under the clock *)

Section timely_runs.
Context `{Codec} `{Marked} `{!CodecLaws}.
Implicit Types (w : World) (ev : Event) (evs : list Event).

Lemma dispatch_stamped ev w :
  Inv w → allowed ev w →
  match ev with ClickAdd now => thirteen now | _ => True end →
  Forall stamped (memos w) → Forall stamped (memos (dispatch ev w)).
Proof.
  intros HInv Hok Hev Hst.
  destruct (dispatch_simulates ev w _ (abs_refines_data Viewing w HInv) Hok)
    as ((_ & <- & _) & _).
  unfold next. destruct (action_of ev w) as [a|] eqn:Ha; [|done].
  apply step_stamped; [|done]. by destruct ev; simplify_option_eq.
Qed.

Lemma dispatch_ordered ev w :
  Inv w → allowed ev w →
  match ev with
  | ClickSave now => Forall (λ memo, createdAt memo ≤ now)%Z (memos w)
  | _ => True
  end →
  Forall ordered (memos w) → Forall ordered (memos (dispatch ev w)).
Proof.
  intros HInv Hok Hev Hord.
  destruct (dispatch_simulates ev w _ (abs_refines_data Viewing w HInv) Hok)
    as ((_ & <- & _) & _).
  unfold next. destruct (action_of ev w) as [a|] eqn:Ha; [|done].
  apply step_ordered; [|done]. by destruct ev; simplify_option_eq.
Qed.

(** A timely sequence is allowed, and leaves the memos stamped. *)
Lemma timely_allowed_run evs w :
  Inv w → Forall stamped (memos w) → timely evs w →
  allowed_run evs w ∧ Inv (run evs w) ∧ Forall stamped (memos (run evs w)).
Proof.
  revert w. induction evs as [|ev evs IH]; intros w HInv Hst Hok; [done|].
  destruct Hok as [Hev Hok].
  assert (allowed ev w ∧ match ev with ClickAdd now => thirteen now | _ => True end)
    as [Hallowed Hthirteen].
  { destruct ev; try done. split; [by apply later_fresh_id | apply Hev]. }
  destruct (IH (dispatch ev w)) as (? & ? & ?);
    [by apply dispatch_Inv | by apply dispatch_stamped | done | done].
Qed.

Lemma allowed_run_reachable html store evs w :
  reachable html store w → allowed_run evs w → reachable html store (run evs w).
Proof.
  revert w. induction evs as [|ev evs IH]; intros w Hreach Hok; [done|].
  destruct Hok as [Hev Hok]. apply IH; [by apply reachable_step | done].
Qed.

(** Claim C12. Under the clock no assumption on identifiers is needed.  From
    a state of the program that is a state of the machine and whose memos
    are stamped, in a sequence of events in which every add comes later
    than the creation of the memos then in the array, every add builds an
    identifier that is not in use; the sequence leads to the state the
    machine reaches by the actions of those events, and the memos are
    stamped again. *)
Theorem timely_run_refines evs w s :
  refines w s → Forall stamped (memos w) → timely evs w →
  allowed_run evs w ∧
  refines (run evs w) (steps (actions_of evs w) s) ∧
  Forall stamped (memos (run evs w)).
Proof.
  intros [Hdata Hshows] Hst Hok. pose proof Hdata as (HInv & _).
  destruct (timely_allowed_run evs w HInv Hst Hok) as (Hallowed & _ & Hst').
  destruct (run_simulates evs w s Hdata Hallowed) as (Hdata' & Hshows' & _).
  split; [|split; [split|]]; auto.
Qed.

(** The same from the start: on a store whose memos are stamped
    and have distinct identifiers, started at times of thirteen digits,
    every timely sequence of events leads to a reachable state. *)
Theorem timely_start_reachable html store timestamp1 timestamp2 evs :
  NoDup (ids (readLacalStorage STORAGE_KEY store)) →
  Forall stamped (readLacalStorage STORAGE_KEY store) →
  thirteen timestamp1 → thirteen timestamp2 →
  timely evs (start html store timestamp1 timestamp2) →
  reachable html store (run evs (start html store timestamp1 timestamp2)) ∧
  Forall stamped (memos (run evs (start html store timestamp1 timestamp2))).
Proof.
  intros Hnd Hst Ht1 Ht2 Hok.
  pose proof (start_refines_data html store timestamp1 timestamp2 Hnd)
    as (HInv & Hrepo & _).
  destruct (timely_allowed_run evs _ HInv) as (Hallowed & _ & Hst'); [|done|].
  { rewrite <-Hrepo. simpl. unfold initial_memos. case_decide; [|done].
    apply Forall_app. split; [apply Forall_app; split; [done|]|];
      by apply Forall_singleton, newMemo_stamped. }
  split; [|done]. apply allowed_run_reachable; [apply reachable_start | done].
Qed.

(** Claim C5. Identifiers are unique under the clock.  Let the store hold
    memos with distinct identifiers that begin with their creation times
    (none, for one), let the program start at times of thirteen digits,
    and let every click on add come later than the creation of the memos
    then in the array.  Then after every sequence of events no two memos
    share an identifier: [newMemo] builds it from the time, which is new,
    and for the two memos of the bootstrap, which may be made in the same
    millisecond, from the size of the array.  The memos are stamped
    again, and the store holds them, so what is asked of the store holds
    of the store the program leaves. *)
Theorem timely_ids_unique html store timestamp1 timestamp2 evs :
  NoDup (ids (readLacalStorage STORAGE_KEY store)) →
  Forall stamped (readLacalStorage STORAGE_KEY store) →
  thirteen timestamp1 → thirteen timestamp2 →
  timely evs (start html store timestamp1 timestamp2) →
  let w := run evs (start html store timestamp1 timestamp2) in
  NoDup (ids (memos w)) ∧ Forall stamped (memos w) ∧
  NoDup (ids (readLacalStorage STORAGE_KEY (localStorage w))) ∧
  Forall stamped (readLacalStorage STORAGE_KEY (localStorage w)).
Proof.
  intros Hnd Hst Ht1 Ht2 Hok.
  destruct (timely_start_reachable html store timestamp1 timestamp2 evs)
    as [Hreach Hst']; [done..|].
  destruct (reachable_Inv html store _ Hnd Hreach) as (_ & Hnd' & _ & Hstore).
  simpl. unfold persisted in Hstore. by rewrite Hstore.
Qed.

(** Claim C35. The save time of a memo is never before its creation time:
    when that holds of the memos of a state, and every save in a sequence
    of allowed events happens at a time that is not before the creation
    of the memos then in the array, it holds of the memos after the
    sequence. *)
Theorem saved_after_created evs w :
  Inv w → allowed_run evs w → chronological evs w →
  Forall ordered (memos w) → Forall ordered (memos (run evs w)).
Proof.
  revert w. induction evs as [|ev evs IH]; intros w HInv Hok Hchron Hord; [done|].
  destruct Hok as [Hev Hok], Hchron as [Hnow Hchron].
  apply IH; [by apply dispatch_Inv | done.. | by apply dispatch_ordered].
Qed.

End timely_runs.

(** ** The theorems at work *)

Section witnesses.
#[local] Existing Instance json_codec.
#[local] Existing Instance sample_marked.
#[local] Existing Instance json_codec_laws.

Lemma timely_run_refines_witness :
  allowed_run sample_events sample_editing ∧
  refines (run sample_events sample_editing)
    (steps (actions_of sample_events sample_editing) (abs Editing sample_editing)) ∧
  Forall stamped (memos (run sample_events sample_editing)).
Proof.
  apply timely_run_refines; by apply (bool_decide_unpack _); vm_compute.
Defined.

Lemma timely_start_reachable_witness :
  reachable blank_page ∅
    (run sample_events (start blank_page ∅ sample_time1 sample_time2)) ∧
  Forall stamped (memos (run sample_events (start blank_page ∅ sample_time1 sample_time2))).
Proof.
  apply timely_start_reachable;
    [apply NoDup_nil_2 | apply Forall_nil_2
    | by apply (bool_decide_unpack _); vm_compute..].
Defined.

Lemma timely_ids_unique_witness :
  NoDup (ids (memos (run sample_events (start blank_page ∅ sample_time1 sample_time2)))) ∧
  Forall stamped (memos (run sample_events (start blank_page ∅ sample_time1 sample_time2))) ∧
  NoDup (ids (readLacalStorage STORAGE_KEY
    (localStorage (run sample_events (start blank_page ∅ sample_time1 sample_time2))))) ∧
  Forall stamped (readLacalStorage STORAGE_KEY
    (localStorage (run sample_events (start blank_page ∅ sample_time1 sample_time2)))).
Proof.
  apply (timely_ids_unique blank_page ∅ sample_time1 sample_time2 sample_events);
    [apply NoDup_nil_2 | apply Forall_nil_2
    | by apply (bool_decide_unpack _); vm_compute..].
Defined.

Lemma saved_after_created_witness :
  Forall ordered (memos (run sample_events sample_editing)).
Proof.
  apply saved_after_created; by apply (bool_decide_unpack _); vm_compute.
Defined.

End witnesses.
