(* ===== verification/Preview.v ===== *)
(** * Preview: the rendered body

    [setMemoElement] hands the body of the selected memo to [marked.parse]
    and assigns the result to [previewBody.innerHTML] after an [await]
    (index.ts, lines 128-134).  When the promise is settled at once, as it
    is for the renderer's default, the assignment happens at the end of the
    turn in which the handler ran.  Then, between any two events, nothing
    is pending and the preview holds the rendering of the body of the
    selected memo, for every body the renderer accepts; for a body it
    refuses, the preview keeps what it held.

    File [Async] looks at promises that settle later. *)

From S2P Require Import Prelude Memo Dom Storage Json App Sample Invariant Machine.

Section preview.
Context `{Codec} `{Marked}.
Implicit Types (w : World) (ev : Event) (memo : Memo) (text : string) (e : Element).

(** [e] holds the rendering of [text], if [text] has one. *)
Definition rendered (text : string) (e : Element) : Prop :=
  match marked_parse text with
  | ParseResolves html => innerHTML e = html
  | _ => True
  end.

(** Nothing is pending and the preview holds the rendering of the body of
    the selected memo. *)
Definition previewed (w : World) : Prop :=
  microtasks w = [] ∧
  match selected w with
  | Some memo => rendered (body memo) (previewBody (page w))
  | None => True
  end.

(** [w'] has the array, the index, the queue and the preview of [w]. *)
Definition same_preview (w w' : World) : Prop :=
  memos w' = memos w ∧ memoIndex w' = memoIndex w ∧
  microtasks w' = microtasks w ∧
  innerHTML (previewBody (page w')) = innerHTML (previewBody (page w)).

(** [w1] is [w] after a handler has rebuilt the page and asked for the
    rendering of the memo it selected. *)
Definition rerendered (w w1 : World) : Prop :=
  ∃ (editMode : bool) ms k memo w0,
    w1 = refreshed editMode ms k memo w0 ∧ ms !! k = Some memo ∧
    microtasks w0 = microtasks w ∧
    innerHTML (previewBody (page w0)) = innerHTML (previewBody (page w)).

#[export] Instance rendered_dec text e : Decision (rendered text e).
Proof. unfold rendered. destruct (marked_parse text); apply _. Defined.

#[export] Instance previewed_dec w : Decision (previewed w).
Proof. unfold previewed. destruct (selected w); apply _. Defined.

(** ** A handler that renders *)

(** The turn ends with the continuation of the [await]: with nothing else
    pending, the preview holds the rendering and the rest of the state is
    what the handler left. *)
Lemma render_preview_turn text w :
  microtasks w = [] →
  let w' := run_microtasks (render_preview text w) in
  microtasks w' = [] ∧ rendered text (previewBody (page w')) ∧
  memos w' = memos w ∧ memoIndex w' = memoIndex w.
Proof.
  intros Hq w'. subst w'. unfold run_microtasks, render_preview, rendered.
  by destruct (marked_parse text) eqn:Hparse; simpl; rewrite Hq.
Qed.

Lemma refreshed_turn (editMode : bool) ms k memo w :
  microtasks w = [] → ms !! k = Some memo →
  previewed (run_microtasks (refreshed editMode ms k memo w)).
Proof.
  intros Hq Hk. unfold refreshed, setMemoElement_post.
  match goal with |- context [render_preview ?text ?w0] =>
    destruct (render_preview_turn text w0 Hq) as (Hq' & Hr & Hm & Hi)
  end.
  split; [done|]. unfold selected. rewrite Hm, Hi. simpl.
  by rewrite js_nth_nat, Hk.
Qed.

(** ** A handler that does not render *)

Lemma same_preview_turn w w' :
  same_preview w w' → previewed w → previewed (run_microtasks w').
Proof.
  intros (Hm & Hi & Hq & Hp) [Hempty Hr]. unfold run_microtasks.
  rewrite Hq, Hempty. unfold previewed, selected, rendered in *. simpl.
  by rewrite Hm, Hi, Hp.
Qed.

Lemma input_same_preview field text w : same_preview w (input field text w).1.
Proof.
  unfold input, modify. simpl.
  destruct (hasAttribute _ _); [done|]. by destruct field.
Qed.

Context `{!CodecLaws}.

(** ** What a listener does to the preview *)

Lemma refreshed_rerendered (editMode : bool) ms k memo w w0 :
  ms !! k = Some memo → microtasks w0 = microtasks w →
  innerHTML (previewBody (page w0)) = innerHTML (previewBody (page w)) →
  rerendered w (refreshed editMode ms k memo w0).
Proof. intros Hk Hq Hp. by exists editMode, ms, k, memo, w0. Qed.

(** Every listener returns, and either has rendered the selected memo or
    has left the selection, the queue and the preview alone. *)
Lemma listener_preview ev w :
  Inv w → allowed ev w →
  ∃ w1, listener ev w = (w1, Done tt) ∧ (rerendered w w1 ∨ same_preview w w1).
Proof.
  intros HInv Hok. destruct ev as [now|n| |now| | |field text]; cbn [listener].
  - eexists. split; [apply clickAddMemo_run|]. left.
    by apply refreshed_rerendered; [apply list_lookup_middle|..].
  - rewrite bind_gets. destruct (memoList (page w) !! n) as [target|] eqn:Hn;
      [|eexists; split; [done | by right]].
    destruct (selectedMemo_Inv w n target HInv Hn) as (memo & Hm & -> & _).
    eexists. split; [done|]. left. by apply refreshed_rerendered.
  - eexists. split; [apply clickEditMemo_run | by right].
  - destruct (clickSaveMemo_Inv now w HInv) as (k & memo & _ & Hk & -> & _).
    eexists. split; [done|]. left. apply refreshed_rerendered; [|done..].
    apply list_lookup_insert_eq. by eapply lookup_lt_Some.
  - destruct (decide (length (memos w) = 1%nat)) as [Hlast|Hmore].
    { eexists. split; [by apply clickDeleteMemo_last | by right]. }
    destruct (clickDeleteMemo_Inv w HInv Hmore)
      as (k & memo & memo' & _ & _ & Hrm & Hk' & -> & _).
    eexists. split; [done|]. left. apply refreshed_rerendered; [|done..].
    by rewrite Hrm.
  - destruct (clickDownloadMemo_Inv DownloadLink w HInv) as (memo & _ & -> & _).
    eexists. split; [done | by right].
  - destruct (input_run field text w) as (w' & Hrun & _).
    pose proof (input_same_preview field text w) as Hsame. rewrite Hrun in Hsame.
    exists w'. split; [done | by right].
Qed.

(** ** Every turn *)

Lemma dispatch_previewed ev w :
  Inv w → allowed ev w → previewed w → previewed (dispatch ev w).
Proof.
  intros HInv Hok Hprev. pose proof Hprev as [Hq _]. unfold dispatch.
  destruct (listener_preview ev w HInv Hok)
    as (w1 & -> & [(editMode & ms & k & memo & w0 & -> & Hk & Hq0 & _)|Hsame]).
  - apply refreshed_turn; [by rewrite Hq0 | done].
  - by apply (same_preview_turn w).
Qed.

Lemma start_previewed html store timestamp1 timestamp2 :
  previewed (start html store timestamp1 timestamp2).
Proof.
  unfold start.
  destruct (initial_memos_nonempty timestamp1 timestamp2
    (readLacalStorage STORAGE_KEY store)) as [memo Hk].
  rewrite (init_run timestamp1 timestamp2 (boot html store) memo) by done.
  unfold init_post, uncaught, render_preview, run_microtasks, previewed, selected, rendered.
  destruct (marked_parse (body memo)) eqn:Hparse; simpl;
    change 0%Z with (Z.of_nat 0); by rewrite js_nth_nat, Hk, ?Hparse.
Qed.

(** Claim C11. In every reachable state no rendering is pending, and the
    preview holds what [marked.parse] made of the body of the selected
    memo, whenever it made something of it. *)
Theorem reachable_previewed html store w :
  NoDup (ids (readLacalStorage STORAGE_KEY store)) →
  reachable html store w → previewed w.
Proof.
  intros Hnd Hreach. induction Hreach as [t1 t2|w ev Hreach IH Hok].
  - apply start_previewed.
  - apply dispatch_previewed; [by eapply reachable_Inv | done..].
Qed.

End preview.

(** ** The theorem at work *)

Section witnesses.
#[local] Existing Instance json_codec.
#[local] Existing Instance sample_marked.
#[local] Existing Instance json_codec_laws.

Lemma reachable_previewed_witness :
  previewed (dispatch ClickDelete (start blank_page ∅ sample_time1 sample_time2)).
Proof.
  apply (reachable_previewed blank_page ∅); [apply NoDup_nil_2|].
  apply reachable_step; [apply reachable_start | exact I].
Defined.

End witnesses.
