(* ===== verification/Display.v ===== *)
(** * Display: the detail view in viewing mode

    The spec's section 4.4 asks that the title and the body of the active
    memo be rendered into the two fields, read-only in viewing mode.  In
    index.ts the fields are written by [setMemoElement] (lines 125-126),
    and the user writes them when they are not disabled.  So in editing
    mode the fields hold whatever was typed; in viewing mode they hold the
    title and the body of the selected memo, in every reachable state
    ([faithful]).

    The handlers that select a memo call [setMemoElement] for it; the
    others leave the two fields and the selection alone, or switch to
    editing mode; typing changes a field only when it is not disabled. *)

From S2P Require Import Prelude Memo Dom Storage Json App Sample Invariant Machine.

(** In viewing mode the fields hold the title and the body of the
    selected memo. *)
Definition faithful (w : World) : Prop :=
  shows Viewing (page w) →
  match selected w with
  | Some memo =>
      value (memoTitle (page w)) = title memo ∧ value (memoBody (page w)) = body memo
  | None => False
  end.

(** [w'] has the array and the index of [w] and its page but for the
    download link. *)
Definition same_detail (w w' : World) : Prop :=
  memos w' = memos w ∧ memoIndex w' = memoIndex w ∧
  ∀ r, r ≠ DownloadLink → get_elem r (page w') = get_elem r (page w).

#[export] Instance faithful_dec w : Decision (faithful w).
Proof. unfold faithful. destruct (selected w); apply _. Defined.

Section display.
Context `{Codec} `{Marked}.
Implicit Types (w : World) (ev : Event) (memo : Memo) (p : Page).

Lemma shows_exclusive p : shows Viewing p → shows Editing p → False.
Proof. intros (Hv & _) (He & _). by rewrite Hv in He. Qed.

(** ** The handlers that call [setMemoElement] *)

Lemma refreshed_faithful (editMode : bool) ms k memo w :
  ms !! k = Some memo → faithful (refreshed editMode ms k memo w).
Proof.
  intros Hk _. unfold selected.
  destruct (refreshed_spec editMode ms k memo w) as (-> & -> & _ & _ & (_ & ? & ?) & _).
  by rewrite js_nth_nat, Hk.
Qed.

(** ** The handlers that leave the fields alone *)

Lemma same_detail_faithful w w' : same_detail w w' → faithful w → faithful w'.
Proof.
  intros (Hm & Hi & Hp) Hw. unfold faithful, selected, shows in *.
  rewrite Hm, Hi.
  pose proof (Hp EditButton) as He. pose proof (Hp SaveButton) as Hs.
  pose proof (Hp MemoTitle) as Ht. pose proof (Hp MemoBody) as Hb.
  pose proof (Hp PreviewBody) as Hv. simpl in *.
  by rewrite He, Hs, Ht, Hb, Hv.
Qed.

(** ** Editing and typing *)

Lemma clickEditMemo_faithful w : faithful (clickEditMemo_post w).
Proof.
  intros Hview. destruct (shows_exclusive _ Hview).
  apply (page_setMode_shows true).
Qed.

(** A field that takes what is typed is not disabled: the page is not in
    viewing mode. *)
Lemma input_faithful field text w : faithful w → faithful (input field text w).1.
Proof.
  unfold input, modify, faithful, selected, shows. simpl.
  destruct (hasAttribute "disabled" (get_elem field (page w))) eqn:Hd; [done|].
  destruct field; simpl in *; intros Hw Hview;
    first [by apply Hw | destruct Hview as (Ht & Hb & _)];
    unfold hasAttribute in *; simpl in *; congruence.
Qed.

(** ** The end of a turn *)

Lemma run_microtasks_faithful w : faithful w → faithful (run_microtasks w).
Proof.
  unfold run_microtasks, faithful, selected.
  destruct (run_tasks_fields (microtasks w) (set_microtasks [] w)) as (-> & -> & _).
  by destruct (run_tasks_shape (microtasks w) (set_microtasks [] w)) as (inner & log & ->).
Qed.

(** ** Every turn *)

Context `{!CodecLaws}.

Lemma listener_faithful ev w :
  Inv w → allowed ev w → faithful w → ∃ w', listener ev w = (w', Done tt) ∧ faithful w'.
Proof.
  intros HInv Hok Hw. destruct ev as [now|n| |now| | |field text]; cbn [listener].
  - eexists. split; [apply clickAddMemo_run|].
    by apply refreshed_faithful, list_lookup_middle.
  - rewrite bind_gets. destruct (memoList (page w) !! n) as [target|] eqn:Hn;
      [|by eexists].
    destruct (selectedMemo_Inv w n target HInv Hn) as (memo & Hm & -> & _).
    eexists. split; [done|]. by apply refreshed_faithful.
  - eexists. split; [apply clickEditMemo_run | apply clickEditMemo_faithful].
  - destruct (clickSaveMemo_Inv now w HInv) as (k & memo & _ & Hk & -> & _).
    eexists. split; [done|]. apply refreshed_faithful, list_lookup_insert_eq.
    by eapply lookup_lt_Some.
  - destruct (decide (length (memos w) = 1%nat)) as [Hlast|Hmore].
    { eexists. split; [by apply clickDeleteMemo_last|].
      by apply (same_detail_faithful w). }
    destruct (clickDeleteMemo_Inv w HInv Hmore)
      as (k & memo & memo' & _ & _ & Hrm & Hk' & -> & _).
    eexists. split; [done|]. apply refreshed_faithful. by rewrite Hrm.
  - destruct (clickDownloadMemo_Inv DownloadLink w HInv) as (memo & _ & -> & _).
    eexists. split; [done|]. apply (same_detail_faithful w); [|done].
    split_and!; [done..|]. by intros [].
  - destruct (input_run field text w) as (w' & Hrun & _).
    pose proof (input_faithful field text w Hw) as Hw'. rewrite Hrun in Hw'.
    by exists w'.
Qed.

Lemma dispatch_faithful ev w :
  Inv w → allowed ev w → faithful w → faithful (dispatch ev w).
Proof.
  intros HInv Hok Hw. unfold dispatch.
  destruct (listener_faithful ev w HInv Hok Hw) as (w' & -> & Hw').
  by apply run_microtasks_faithful.
Qed.

Lemma start_faithful html store timestamp1 timestamp2 :
  faithful (start html store timestamp1 timestamp2).
Proof.
  unfold start.
  destruct (initial_memos_nonempty timestamp1 timestamp2
    (readLacalStorage STORAGE_KEY store)) as [memo Hk].
  rewrite (init_run timestamp1 timestamp2 (boot html store) memo) by done.
  apply run_microtasks_faithful. intros _. unfold selected. simpl uncaught.
  destruct (init_post_fields timestamp1 timestamp2 memo (boot html store))
    as (-> & -> & _ & _ & _ & _ & -> & -> & _).
  change (memoIndex (boot html store)) with (Z.of_nat 0).
  change (localStorage (boot html store)) with store. by rewrite js_nth_nat, Hk.
Qed.

(** Claim C10. In every reachable state whose page is in viewing mode, the
    title field and the body field hold the title and the body of the
    selected memo. *)
Theorem reachable_faithful html store w :
  NoDup (ids (readLacalStorage STORAGE_KEY store)) →
  reachable html store w → shows Viewing (page w) →
  ∃ memo, selected w = Some memo ∧ displays Viewing memo w.
Proof.
  intros Hnd Hreach. assert (faithful w) as Hw.
  { induction Hreach as [t1 t2|w ev Hreach IH Hok]; [apply start_faithful|].
    apply dispatch_faithful; [by eapply reachable_Inv | done..]. }
  intros Hview. specialize (Hw Hview). destruct (selected w) as [memo|]; [|done].
  by exists memo.
Qed.

End display.

(** ** The theorem at work *)

Section witnesses.
#[local] Existing Instance json_codec.
#[local] Existing Instance sample_marked.
#[local] Existing Instance json_codec_laws.

Lemma reachable_faithful_witness :
  ∃ memo, selected sample_single = Some memo ∧ displays Viewing memo sample_single.
Proof.
  apply (reachable_faithful blank_page ∅); [apply NoDup_nil_2 | |by vm_compute].
  apply reachable_step; [apply reachable_start | exact I].
Defined.

End witnesses.
