(* ===== verification/Async.v ===== *)
(** * Async: promises that settle later

    In [Machine] the promise [marked.parse] returns is settled when the
    handler ends, so the continuation of the [await] runs within the turn.
    A renderer may also return a promise that settles turns later, after
    other events, and two promises may settle in either order.

    Here the queue [microtasks] holds the continuations whose promise is
    not settled yet.  A turn is an event ([Handle]), whose listener runs
    and leaves its continuation in the queue, or the settling of the
    promise at a position of the queue ([Settle]), whose continuation then
    runs.

    The theorems: every schedule keeps the invariant of [Invariant] (a
    continuation writes the preview or the console, nothing else), and
    what [Always] shows of the event loop holds under every schedule; the
    event loop of [Machine] is the schedule that settles at once; when
    promises settle in the order in which they were made, the preview is
    right whenever nothing is pending; when they do not, the preview can
    show another memo than the selected one. *)

From S2P Require Import Prelude Hoare Memo Dom Storage Json App Sample Invariant Machine.
From S2P Require Import Always Spec Preview.

Inductive Turn : Type :=
| Handle (ev : Event)
| Settle (k : nat).

Section async.
Context `{Codec} `{Marked}.
Implicit Types (w : World) (ev : Event) (t : Task) (k : nat) (memo : Memo).

(** The promise of the continuation at position [k] settles. *)
Definition settle (k : nat) (w : World) : World :=
  match microtasks w !! k with
  | Some t => run_task t (set_microtasks (delete k (microtasks w)) w)
  | None => w
  end.

Definition turn (tn : Turn) (w : World) : World :=
  match tn with
  | Handle ev => uncaught (listener ev w)
  | Settle k => settle k w
  end.

Definition turns (tns : list Turn) (w : World) : World :=
  foldl (λ w tn, turn tn w) w tns.

(** The program started, with the rendering of the first memo pending. *)
Definition start_pending (html : Page) (store : gmap string string)
    (timestamp1 timestamp2 : Z) : World :=
  uncaught (init timestamp1 timestamp2 (boot html store)).

(** Every event of the schedule is allowed in the state it happens in. *)
Fixpoint allowed_turns (tns : list Turn) (w : World) : Prop :=
  match tns with
  | [] => True
  | tn :: tns' =>
      match tn with Handle ev => allowed ev w | Settle _ => True end
      ∧ allowed_turns tns' (turn tn w)
  end.

(** The actions of the machine of [Spec] a schedule stands for: those of
    its events.  A promise that settles is no action. *)
Definition action_of_turn (tn : Turn) (w : World) : list Action :=
  match tn with
  | Handle ev => option_list (action_of ev w)
  | Settle _ => []
  end.

Fixpoint actions_of_turns (tns : list Turn) (w : World) : list Action :=
  match tns with
  | [] => []
  | tn :: tns' => action_of_turn tn w ++ actions_of_turns tns' (turn tn w)
  end.

(** The clicks on the download link in a schedule. *)
Definition downloads (tn : Turn) : nat :=
  match tn with
  | Handle ev => is_download ev
  | Settle _ => 0
  end.

(** Promises settle in the order in which they were made. *)
Definition fifo (tns : list Turn) : Prop :=
  Forall (λ tn, match tn with Settle k => k = 0 | Handle _ => True end) tns.

(** What [setMemoElement] leaves pending for a body. *)
Definition pending_of (text : string) : list Task :=
  match marked_parse text with
  | ParseThrows _ => []
  | ParseResolves html => [SetPreview html]
  | ParseRejects error => [LogError error]
  end.

(** The rendering of the body of the selected memo is the last one
    pending, or, with nothing pending, it is in the preview. *)
Definition preview_due (w : World) : Prop :=
  match selected w with
  | Some memo =>
      match marked_parse (body memo) with
      | ParseResolves html =>
          match last (microtasks w) with
          | Some t => t = SetPreview html
          | None => innerHTML (previewBody (page w)) = html
          end
      | _ => True
      end
  | None => True
  end.

#[export] Instance allowed_turns_dec tns w : Decision (allowed_turns tns w).
Proof.
  revert w. induction tns as [|tn tns IH]; intros w; simpl; [apply _|].
  destruct tn; apply _.
Defined.

#[export] Instance fifo_dec tns : Decision (fifo tns).
Proof.
  unfold fifo. apply Forall_dec. intros [ev|k]; apply _.
Defined.

#[export] Instance preview_due_dec w : Decision (preview_due w).
Proof.
  unfold preview_due. destruct (selected w) as [memo|]; [|apply _].
  destruct (marked_parse (body memo)); [apply _| |apply _].
  destruct (last (microtasks w)); apply _.
Defined.

End async.

(** ** States to run the model on *)

(** The program started, and the body "one" saved into the first memo. *)
Definition sample_pending : World :=
  @start_pending json_codec sample_marked blank_page ∅ sample_time1 sample_time2.

(** The same on a page in viewing mode. *)
Definition sample_viewing : World :=
  @start_pending json_codec sample_marked viewing_page ∅ sample_time1 sample_time2.

(** A schedule in order that ends with two renderings pending. *)
Definition sample_fifo : list Turn :=
  [Handle (ClickLabel 1); Settle 0; Handle ClickEdit; Settle 0;
   Handle (ClickSave sample_time3); Handle (ClickLabel 0)].

Definition sample_schedule : list Turn :=
  [Handle (ClickLabel 1); Handle ClickDelete; Settle 1; Handle ClickDelete; Settle 0].

Definition sample_saved : World :=
  @run json_codec sample_marked
    [ClickEdit; Input MemoBody "one"; ClickSave sample_time3] sample_start.

Definition sample_first : Memo :=
  updateMemo "new memo 1" "one" sample_time3 (newMemo sample_time1 []).

Definition sample_second : Memo :=
  newMemo sample_time2 [newMemo sample_time1 []].

(** ** Every schedule keeps the invariant *)

Section schedules.
Context `{Codec} `{Marked} `{!CodecLaws}.
Implicit Types (w : World) (ev : Event) (t : Task) (k : nat) (memo : Memo)
  (tn : Turn) (tns : list Turn).

Lemma settle_fields k w :
  memos (settle k w) = memos w ∧ memoIndex (settle k w) = memoIndex w ∧
  memoList (page (settle k w)) = memoList (page w) ∧
  localStorage (settle k w) = localStorage w.
Proof.
  unfold settle. destruct (microtasks w !! k) as [t|]; [|done].
  by destruct (run_task_fields t (set_microtasks (delete k (microtasks w)) w))
    as (-> & -> & -> & ->).
Qed.

Lemma settle_Inv k w : Inv w → Inv (settle k w).
Proof. unfold Inv. by destruct (settle_fields k w) as (-> & -> & -> & ->). Qed.

Lemma turn_Inv tn w :
  Inv w → match tn with Handle ev => allowed ev w | Settle _ => True end →
  Inv (turn tn w).
Proof.
  intros HInv Hok. destruct tn as [ev|k]; [|by apply settle_Inv].
  simpl. by destruct (listener_Inv ev w HInv Hok) as (w' & -> & HInv').
Qed.

Lemma turns_Inv tns w : Inv w → allowed_turns tns w → Inv (turns tns w).
Proof.
  revert w. induction tns as [|tn tns IH]; intros w HInv Hok; [done|].
  destruct Hok as [Htn Hok]. simpl. apply IH; [by apply turn_Inv | done].
Qed.

(** ** What holds under every schedule, invariant or not *)

Section stable.
Context (I : World → Prop) `{!Stable I}.

Lemma settle_stable k w : I w → I (settle k w).
Proof.
  intros HI. unfold settle. destruct (microtasks w !! k) as [t|]; [|done].
  by apply run_task_stable, stable_microtasks.
Qed.

Lemma turn_upholds X tn w : (∀ ev, upholds I X (listener ev)) → I w → I (turn tn w).
Proof.
  intros Hev HI. destruct tn as [ev|k]; [|by apply settle_stable].
  simpl. apply uncaught_stable; [done|]. by eapply upholds_exec.
Qed.

Lemma turns_upholds X tns w :
  (∀ ev, upholds I X (listener ev)) → I w → I (turns tns w).
Proof.
  intros Hev. revert w. induction tns as [|tn tns IH]; intros w HI; [done|].
  simpl. by eapply IH, turn_upholds.
Qed.

End stable.

(** Claim C36. After the start and after every event, whenever the
    promises of [marked.parse] settle and in whatever order, whatever the
    store held, whatever the page, the times and the events, also when a
    handler has thrown: a fresh read of the store returns the array. *)
Theorem turns_persisted html store timestamp1 timestamp2 tns :
  let w := turns tns (start_pending html store timestamp1 timestamp2) in
  readLacalStorage STORAGE_KEY (localStorage w) = memos w.
Proof.
  apply (turns_upholds stored (λ _, True)); [apply listener_stored|].
  apply (uncaught_stable stored), init_stored.
Qed.

Lemma turn_grows tn w : grows (downloads tn) w (turn tn w).
Proof.
  destruct tn as [ev|k]; simpl.
  - apply (uncaught_stable (grows (is_download ev) w)), wp_exec, listener_grows.
  - apply (settle_stable (grows 0 w)), grows_refl.
Qed.

(** Whenever the promises settle, no blob is freed, and only a click on
    the download link makes one. *)
Lemma turns_blobs tns w : grows (sum_list (downloads <$> tns)) w (turns tns w).
Proof.
  revert w. induction tns as [|tn tns IH]; intros w; [apply grows_refl|].
  exact (grows_trans _ _ _ _ _ (turn_grows tn w) (IH (turn tn w))).
Qed.

(** ** Every schedule refines the machine of the spec *)

(** A promise that settles changes nothing the machine sees. *)
Lemma settle_same_view k w : same_view w (settle k w) ∧ alerts (settle k w) = alerts w.
Proof.
  destruct (settle_fields k w) as (Hm & Hi & Hl & Hs). unfold same_view.
  rewrite Hm, Hi, Hl, Hs. unfold settle.
  destruct (microtasks w !! k) as [t|]; [|done].
  set (w0 := set_microtasks _ w).
  split; [split_and!; [done..|intros m; by destruct (run_task_view t w0 m)]|].
  by destruct (run_task_view t w0 Viewing).
Qed.

(** One turn is the actions [action_of_turn] gives: one step of the
    machine, or none. *)
Lemma turn_simulates tn w s :
  refines_data w s → match tn with Handle ev => allowed ev w | Settle _ => True end →
  simulates w (turn tn w) s
    (steps (action_of_turn tn w) s) (notes (action_of_turn tn w) s).
Proof.
  intros Hdata Hok. destruct tn as [ev|k]; simpl.
  - destruct (listener_simulates ev w s Hdata Hok) as (w1 & -> & Hsim).
    revert Hsim. unfold next, said. destruct (action_of ev w); simpl;
      by rewrite ?app_nil_r.
  - destruct (settle_same_view k w) as [Hview Halerts].
    apply same_view_simulates; [done..|]. by rewrite app_nil_r.
Qed.

Lemma steps_app acts1 acts2 s :
  steps (acts1 ++ acts2) s = steps acts2 (steps acts1 s) ∧
  notes (acts1 ++ acts2) s = notes acts1 s ++ notes acts2 (steps acts1 s).
Proof.
  revert s. induction acts1 as [|a acts1 IH]; intros s; [done|].
  simpl. destruct (IH (step a s)) as [-> ->]. by rewrite app_assoc.
Qed.

Lemma turns_simulates tns w s :
  refines_data w s → allowed_turns tns w →
  simulates w (turns tns w) s
    (steps (actions_of_turns tns w) s) (notes (actions_of_turns tns w) s).
Proof.
  revert w s. induction tns as [|tn tns IH]; intros w s Hdata Hok.
  { split_and!; [done.. | by rewrite app_nil_r]. }
  destruct Hok as [Htn Hok]. simpl.
  destruct (steps_app (action_of_turn tn w) (actions_of_turns tns (turn tn w)) s)
    as [-> ->].
  pose proof (turn_simulates tn w s Hdata Htn) as Hstep.
  eapply simulates_trans; [exact Hstep|]. apply IH; [apply Hstep | done].
Qed.

(** ** The event loop of [Machine] is a schedule *)

Lemma run_task_set_microtasks t (q : list Task) w :
  set_microtasks [] (run_task t (set_microtasks q w)) = run_task t (set_microtasks [] w).
Proof. by destruct t. Qed.

Lemma settle_all (q : list Task) w :
  microtasks w = q →
  turns (replicate (length q) (Settle 0)) w
  = foldl (λ w t, run_task t w) (set_microtasks [] w) q.
Proof.
  revert w. induction q as [|t q IH]; intros w Hq.
  { destruct w. simpl in *. by subst. }
  simpl. unfold settle. rewrite Hq. simpl.
  rewrite IH by by rewrite run_task_microtasks.
  by rewrite run_task_set_microtasks.
Qed.

(** ** Promises that settle in order *)

Lemma refreshed_pending (editMode : bool) ms k memo w :
  microtasks (refreshed editMode ms k memo w) = microtasks w ++ pending_of (body memo) ∧
  selected (refreshed editMode ms k memo w) = ms !! k.
Proof.
  unfold selected.
  destruct (refreshed_fields editMode ms k memo w) as (-> & -> & _).
  rewrite js_nth_nat. split; [|done].
  unfold refreshed, setMemoElement_post, pending_of. rewrite render_preview_fields.
  destruct (marked_parse (body memo)); by rewrite ?app_nil_r.
Qed.

(** A click on the label of the memo at [j]. *)
Lemma handle_label w j memo :
  Inv w → memos w !! j = Some memo →
  uncaught (listener (ClickLabel j) w) = selectedMemo_post j memo w ∧
  Inv (selectedMemo_post j memo w) ∧
  memos (selectedMemo_post j memo w) = memos w ∧
  microtasks (selectedMemo_post j memo w) = microtasks w ++ pending_of (body memo).
Proof.
  intros HInv Hj. pose proof HInv as (_ & _ & Hlist & _). simpl.
  rewrite bind_gets, Hlist, (labels_lookup_Some _ _ _ memo) by done.
  destruct (selectedMemo_Inv w j (label (bool_decide (Z.of_nat j = memoIndex w)) memo))
    as (memo' & Hj' & -> & HInv'); [done | by rewrite Hlist; apply labels_lookup_Some |].
  simplify_eq. split_and!; [done..| |].
  - unfold selectedMemo_post. by destruct (refreshed_fields false (memos w) j memo w) as (-> & _).
  - unfold selectedMemo_post. by destruct (refreshed_pending false (memos w) j memo w) as [-> _].
Qed.

Lemma rerendered_preview_due w w1 : rerendered w w1 → preview_due w1.
Proof.
  intros (editMode & ms & k & memo & w0 & -> & Hk & _). unfold preview_due.
  destruct (refreshed_pending editMode ms k memo w0) as [-> ->].
  rewrite Hk. unfold pending_of.
  destruct (marked_parse (body memo)); [done | | done]. by rewrite last_snoc.
Qed.

Lemma same_preview_due w w1 : same_preview w w1 → preview_due w → preview_due w1.
Proof.
  intros (Hm & Hi & Hq & Hp). unfold preview_due, selected.
  by rewrite Hm, Hi, Hq, Hp.
Qed.

Lemma handle_preview_due ev w :
  Inv w → allowed ev w → preview_due w → preview_due (turn (Handle ev) w).
Proof.
  intros HInv Hok Hdue. simpl.
  destruct (listener_preview ev w HInv Hok) as (w1 & -> & [Hre|Hsame]).
  - by eapply rerendered_preview_due.
  - by eapply same_preview_due.
Qed.

(** The oldest promise settles: what is due stays due, and is done when
    it was the only one pending. *)
Lemma settle_preview_due w : preview_due w → preview_due (settle 0 w).
Proof.
  unfold settle. destruct (microtasks w) as [|t q] eqn:Hq; [done|]. simpl.
  unfold preview_due, selected.
  destruct (run_task_fields t (set_microtasks q w)) as (-> & -> & _).
  rewrite run_task_microtasks, Hq. simpl.
  destruct (js_nth (memos w) (memoIndex w)) as [memo|]; [|done].
  destruct (marked_parse (body memo)) as [|html|]; [done| |done].
  destruct q as [|t' q]; [by intros ->|].
  rewrite last_cons_cons. destruct (last (t' :: q)) eqn:Hlast; [done|].
  by apply last_None in Hlast.
Qed.

Lemma turns_preview_due tns w :
  Inv w → preview_due w → fifo tns → allowed_turns tns w →
  preview_due (turns tns w).
Proof.
  revert w. induction tns as [|tn tns IH]; intros w HInv Hdue Hfifo Hok; [done|].
  apply Forall_cons in Hfifo as [Htn Hfifo]. destruct Hok as [Hev Hok].
  simpl. apply IH; [by apply turn_Inv | | done..].
  destruct tn as [ev|k]; [by apply handle_preview_due|].
  subst. by apply settle_preview_due.
Qed.

Lemma preview_due_previewed w : preview_due w → microtasks w = [] → previewed w.
Proof.
  unfold preview_due, previewed, rendered. intros Hdue Hq. rewrite Hq in Hdue.
  split; [done|]. destruct (selected w) as [memo|]; [|done].
  by destruct (marked_parse (body memo)).
Qed.

Lemma start_pending_due html store timestamp1 timestamp2 :
  preview_due (start_pending html store timestamp1 timestamp2).
Proof.
  unfold start_pending.
  destruct (initial_memos_nonempty timestamp1 timestamp2
    (readLacalStorage STORAGE_KEY store)) as [memo Hk].
  rewrite (init_run timestamp1 timestamp2 (boot html store) memo) by done.
  unfold init_post, uncaught, render_preview, preview_due, selected.
  destruct (marked_parse (body memo)) eqn:Hparse; simpl;
    change 0%Z with (Z.of_nat 0); by rewrite js_nth_nat, Hk, ?Hparse.
Qed.

Lemma start_pending_Inv html store timestamp1 timestamp2 :
  NoDup (ids (readLacalStorage STORAGE_KEY store)) →
  Inv (start_pending html store timestamp1 timestamp2).
Proof.
  intros Hnd. unfold start_pending.
  destruct (initial_memos_nonempty timestamp1 timestamp2
    (readLacalStorage STORAGE_KEY store)) as [memo Hk].
  rewrite (init_run timestamp1 timestamp2 (boot html store) memo) by done.
  by apply init_post_Inv.
Qed.

(** ** The theorems *)

(** Claim C13. Whatever the order in which promises settle, and however
    late, the invariant holds after every turn and no listener throws: a
    continuation writes the preview or the console and nothing else. *)
Theorem turns_safe tns w ev :
  Inv w → allowed_turns tns w → allowed ev (turns tns w) →
  Inv (turns tns w) ∧
  ∃ w', listener ev (turns tns w) = (w', Done tt) ∧ Inv w'.
Proof.
  intros HInv Hok Hev. pose proof (turns_Inv tns w HInv Hok) as HInv'.
  split; [done | by apply listener_Inv].
Qed.

(** Claim C14. Refinement, for every schedule.  From a state of the program
    that is a state of the machine, events and settling promises in any
    order lead to the state the machine reaches by the actions of the
    events alone, and the notices shown are those the machine gave: a
    pending or late rendering is invisible to the machine of the spec. *)
Theorem turns_refines tns w s :
  refines w s → allowed_turns tns w →
  refines (turns tns w) (steps (actions_of_turns tns w) s) ∧
  alerts (turns tns w) = alerts w ++ notes (actions_of_turns tns w) s.
Proof.
  intros [Hdata Hshows] Hok.
  destruct (turns_simulates tns w s Hdata Hok) as (Hdata' & Hshows' & Halerts).
  split; [split|]; auto.
Qed.

(** The event loop of [Machine] is the schedule in which every promise
    settles at the end of the turn that made it, oldest first. *)
Theorem dispatch_turns ev w :
  dispatch ev w
  = turns (Handle ev :: replicate (length (microtasks (turn (Handle ev) w))) (Settle 0)) w.
Proof. unfold dispatch, run_microtasks. simpl. by rewrite settle_all. Qed.

(** Settling what is pending, oldest first, is a schedule in order that
    needs no assumption, and leaves nothing pending. *)
Lemma settling_fifo n w :
  fifo (replicate n (Settle 0)) ∧ allowed_turns (replicate n (Settle 0)) w.
Proof.
  split; [by apply Forall_replicate|].
  revert w. induction n as [|n IH]; intros w; [done|]. split; [done | apply IH].
Qed.

Lemma settling_microtasks w :
  microtasks (turns (replicate (length (microtasks w)) (Settle 0)) w) = [].
Proof.
  rewrite (settle_all (microtasks w) w eq_refl).
  assert (microtasks (set_microtasks [] w) = []) as Hq by done.
  revert Hq. generalize (set_microtasks [] w).
  induction (microtasks w) as [|t q IH]; intros w0 Hq; [done|].
  simpl. apply IH. by rewrite run_task_microtasks.
Qed.

(** Claim C34. When promises settle in the order in which they were made,
    the preview becomes right: at every moment at which none is pending
    the preview holds the rendering of the body of the selected memo, and
    from every moment, once the promises then pending have settled, none
    is pending and the preview holds that rendering. *)
Theorem fifo_previewed html store timestamp1 timestamp2 tns :
  NoDup (ids (readLacalStorage STORAGE_KEY store)) →
  fifo tns →
  allowed_turns tns (start_pending html store timestamp1 timestamp2) →
  let w := turns tns (start_pending html store timestamp1 timestamp2) in
  (microtasks w = [] → previewed w) ∧
  previewed (turns (replicate (length (microtasks w)) (Settle 0)) w).
Proof.
  intros Hnd Hfifo Hok w.
  assert (Inv w ∧ preview_due w) as [HInv Hdue].
  { pose proof (start_pending_Inv html store timestamp1 timestamp2 Hnd) as HInv.
    split; [by apply turns_Inv|].
    apply turns_preview_due; [done | apply start_pending_due | done..]. }
  split; [by apply preview_due_previewed|].
  destruct (settling_fifo (length (microtasks w)) w) as [Hfifo' Hok'].
  apply preview_due_previewed; [by apply turns_preview_due | apply settling_microtasks].
Qed.

(** Claim C33. When the promise made for one memo settles after the promise
    made for the memo selected next, the preview ends up with the rendering
    of the first memo while the second is the selected one, and nothing is
    pending that would correct it. *)
Theorem stale_preview w j1 j2 memo1 memo2 html1 html2 :
  Inv w → microtasks w = [] →
  memos w !! j1 = Some memo1 → memos w !! j2 = Some memo2 →
  marked_parse (body memo1) = ParseResolves html1 →
  marked_parse (body memo2) = ParseResolves html2 →
  let w' := turns [Handle (ClickLabel j1); Handle (ClickLabel j2); Settle 1; Settle 0] w in
  selected w' = Some memo2 ∧ innerHTML (previewBody (page w')) = html1 ∧
  microtasks w' = [].
Proof.
  intros HInv Hq Hj1 Hj2 Hp1 Hp2. unfold turns. cbn [foldl turn].
  destruct (handle_label w j1 memo1 HInv Hj1) as (-> & HInv1 & Hm1 & Hq1).
  rewrite <-Hm1 in Hj2.
  destruct (handle_label _ j2 memo2 HInv1 Hj2) as (-> & HInv2 & Hm2 & Hq2).
  rewrite Hq1, Hq in Hq2. unfold pending_of in Hq2. rewrite Hp1, Hp2 in Hq2.
  simpl in Hq2. set (w2 := selectedMemo_post j2 memo2 _) in *.
  assert (selected w2 = Some memo2) as Hsel.
  { unfold w2, selectedMemo_post at 1.
    by destruct (refreshed_pending false (memos (selectedMemo_post j1 memo1 w))
      j2 memo2 (selectedMemo_post j1 memo1 w)) as [_ ->]. }
  unfold settle. rewrite Hq2. simpl. by rewrite <-Hsel.
Qed.

End schedules.

(** ** The theorems at work *)

Section witnesses.
#[local] Existing Instance json_codec.
#[local] Existing Instance sample_marked.
#[local] Existing Instance json_codec_laws.

Lemma turns_safe_witness :
  Inv (turns [Handle (ClickLabel 1); Handle ClickEdit; Settle 1; Settle 0] sample_pending) ∧
  ∃ w', listener ClickDelete
          (turns [Handle (ClickLabel 1); Handle ClickEdit; Settle 1; Settle 0]
             sample_pending)
        = (w', Done tt) ∧ Inv w'.
Proof.
  apply turns_safe; [by apply (bool_decide_unpack _); vm_compute.. | exact I].
Defined.

Lemma turns_refines_witness :
  refines (turns sample_schedule sample_viewing)
    (steps (actions_of_turns sample_schedule sample_viewing) (abs Viewing sample_viewing)) ∧
  alerts (turns sample_schedule sample_viewing)
  = alerts sample_viewing
    ++ notes (actions_of_turns sample_schedule sample_viewing) (abs Viewing sample_viewing).
Proof.
  apply turns_refines; by apply (bool_decide_unpack _); vm_compute.
Defined.

Lemma turns_persisted_witness :
  readLacalStorage STORAGE_KEY
    (localStorage (turns sample_schedule (start_pending viewing_page corrupt_store
                                            sample_time1 sample_time2)))
  = memos (turns sample_schedule (start_pending viewing_page corrupt_store
                                    sample_time1 sample_time2)).
Proof.
  exact (turns_persisted viewing_page corrupt_store sample_time1 sample_time2
           sample_schedule).
Defined.

Lemma fifo_previewed_witness :
  (microtasks (turns sample_fifo sample_pending) = [] →
   previewed (turns sample_fifo sample_pending)) ∧
  previewed
    (turns (replicate (length (microtasks (turns sample_fifo sample_pending))) (Settle 0))
       (turns sample_fifo sample_pending)).
Proof.
  apply (fifo_previewed blank_page ∅ sample_time1 sample_time2 sample_fifo);
    [apply NoDup_nil_2 | by apply (bool_decide_unpack _); vm_compute..].
Defined.

Lemma stale_preview_witness :
  selected (turns [Handle (ClickLabel 0); Handle (ClickLabel 1); Settle 1; Settle 0]
              sample_saved)
  = Some sample_second ∧
  innerHTML (previewBody (page
    (turns [Handle (ClickLabel 0); Handle (ClickLabel 1); Settle 1; Settle 0]
       sample_saved)))
  = "<p>one</p>" ∧
  microtasks (turns [Handle (ClickLabel 0); Handle (ClickLabel 1); Settle 1; Settle 0]
                sample_saved) = [].
Proof.
  apply (stale_preview sample_saved 0 1 sample_first sample_second "<p>one</p>" "<p></p>");
    [by apply (bool_decide_unpack _); vm_compute | by vm_compute..].
Defined.

End witnesses.
