(* ===== verification/Scenarios.v ===== *)
(** * Scenarios: sequences of events a user makes

    The spec's section 8 lists scenarios; the ones about a single handler
    are theorems of [Transitions].  Here are the ones that take several
    events: selecting a memo, editing its two fields and saving; and the
    same without the click on the edit button, where the fields are
    read-only and the save keeps the title and the body.

    Each event is followed through [dispatch] by a lemma that says what the
    array, the index and the detail view are after it. *)

From S2P Require Import Prelude Memo Dom Storage Json App Sample Invariant.
From S2P Require Import Machine Preview Async.

Section scenarios.
Context `{Codec} `{Marked} `{!CodecLaws}.
Local Open Scope Z_scope.
Implicit Types (w : World) (j : nat) (memo : Memo) (m : Mode) (t b text : string).

(** The detail view is in mode [m] and its two fields hold [t] and [b]. *)
Definition holds (m : Mode) (t b : string) (w : World) : Prop :=
  shows m (page w) ∧ value (memoTitle (page w)) = t ∧ value (memoBody (page w)) = b.

(** The array and the index of [w'] are those of [w]. *)
Definition same_data (w w' : World) : Prop :=
  Inv w' ∧ memos w' = memos w ∧ memoIndex w' = memoIndex w.

#[export] Instance holds_dec m t b w : Decision (holds m t b w).
Proof. unfold holds. apply _. Defined.

Lemma run_microtasks_holds w m t b : holds m t b (run_microtasks w) ↔ holds m t b w.
Proof.
  unfold run_microtasks, holds.
  by destruct (run_tasks_shape (microtasks w) (set_microtasks [] w)) as (inner & log & ->).
Qed.

(** ** One event at a time *)

Lemma dispatch_label w j memo :
  Inv w → memos w !! j = Some memo →
  Inv (dispatch (ClickLabel j) w) ∧
  memos (dispatch (ClickLabel j) w) = memos w ∧
  memoIndex (dispatch (ClickLabel j) w) = Z.of_nat j ∧
  holds Viewing (title memo) (body memo) (dispatch (ClickLabel j) w).
Proof.
  intros HInv Hj. unfold dispatch.
  destruct (handle_label w j memo HInv Hj) as (-> & HInv' & _).
  destruct (run_microtasks_fields (selectedMemo_post j memo w)) as (-> & -> & _).
  rewrite run_microtasks_holds. unfold selectedMemo_post.
  destruct (refreshed_spec false (memos w) j memo w) as (-> & -> & _ & _ & ? & _).
  split_and!; [by apply run_microtasks_Inv | done..].
Qed.

Lemma dispatch_edit w m t b :
  Inv w → holds m t b w →
  same_data w (dispatch ClickEdit w) ∧ holds Editing t b (dispatch ClickEdit w).
Proof.
  intros HInv (_ & Ht & Hb). unfold dispatch, same_data. simpl listener.
  rewrite clickEditMemo_run. simpl uncaught.
  destruct (run_microtasks_fields (clickEditMemo_post w)) as (-> & -> & _).
  rewrite run_microtasks_holds.
  split_and!; [by apply run_microtasks_Inv, clickEditMemo_Inv | done.. |].
  split; [apply (page_setMode_shows true) | done].
Qed.

(** Typing into a field in editing mode puts the text into the field. *)
Lemma dispatch_input_title w t b text :
  Inv w → holds Editing t b w →
  same_data w (dispatch (Input MemoTitle text) w) ∧
  holds Editing text b (dispatch (Input MemoTitle text) w).
Proof.
  intros HInv (Hshows & Ht & Hb). pose proof Hshows as (Hd & _).
  unfold dispatch, same_data. simpl. rewrite Hd. simpl.
  match goal with |- context [run_microtasks ?w0] =>
    destruct (run_microtasks_fields w0) as (-> & -> & _);
    rewrite (run_microtasks_holds w0)
  end.
  split_and!; [by apply run_microtasks_Inv | done..| by split].
Qed.

Lemma dispatch_input_body w t b text :
  Inv w → holds Editing t b w →
  same_data w (dispatch (Input MemoBody text) w) ∧
  holds Editing t text (dispatch (Input MemoBody text) w).
Proof.
  intros HInv (Hshows & Ht & Hb). pose proof Hshows as (_ & Hd & _).
  unfold dispatch, same_data. simpl. rewrite Hd. simpl.
  match goal with |- context [run_microtasks ?w0] =>
    destruct (run_microtasks_fields w0) as (-> & -> & _);
    rewrite (run_microtasks_holds w0)
  end.
  split_and!; [by apply run_microtasks_Inv | done..| by split].
Qed.

(** Typing into a field in viewing mode does nothing. *)
Lemma dispatch_input_viewing field w t b text :
  field = MemoTitle ∨ field = MemoBody →
  Inv w → holds Viewing t b w →
  same_data w (dispatch (Input field text) w) ∧
  holds Viewing t b (dispatch (Input field text) w).
Proof.
  intros Hfield HInv Hholds. pose proof Hholds as ((Hdt & Hdb & _) & _).
  unfold dispatch, same_data. simpl.
  replace (hasAttribute "disabled" (get_elem field (page w))) with true
    by (by destruct Hfield as [-> | ->]).
  simpl. destruct (run_microtasks_fields w) as (-> & -> & _).
  rewrite run_microtasks_holds. split_and!; [by apply run_microtasks_Inv | done..].
Qed.

Lemma dispatch_save now w j memo m t b :
  Inv w → memoIndex w = Z.of_nat j → memos w !! j = Some memo → holds m t b w →
  Inv (dispatch (ClickSave now) w) ∧
  memos (dispatch (ClickSave now) w) = <[j := updateMemo t b now memo]> (memos w) ∧
  memoIndex (dispatch (ClickSave now) w) = Z.of_nat j ∧
  holds Viewing t b (dispatch (ClickSave now) w).
Proof.
  intros HInv Hi Hj (_ & <- & <-). unfold dispatch. simpl listener.
  rewrite (clickSaveMemo_run now w j memo) by done. simpl uncaught.
  pose proof (dispatch_Inv (ClickSave now) w HInv I) as HInv'.
  unfold dispatch in HInv'. simpl listener in HInv'.
  rewrite (clickSaveMemo_run now w j memo) in HInv' by done.
  destruct (run_microtasks_fields (clickSaveMemo_post now j memo w)) as (-> & -> & _).
  rewrite run_microtasks_holds. unfold clickSaveMemo_post.
  set (memo' := updateMemo _ _ _ _). set (ms := <[j := memo']> (memos w)).
  by destruct (refreshed_spec false ms j memo'
    (set_localStorage (saveLocalStorage STORAGE_KEY ms) w))
    as (-> & -> & _ & _ & ? & _).
Qed.

(** ** Several events *)

(** Claim C25. The scenario of the spec: a click on the label of a memo, a
    click on the edit button, a title and a body typed into the fields, a
    click on the save button.  The memo has the title and the body typed
    and the time of the save, it is the selected one, no other memo has
    changed, and the page is back in viewing mode with the two texts in
    its fields. *)
Theorem edit_then_save w j memo t b now :
  Inv w → memos w !! j = Some memo →
  let w' := run [ClickLabel j; ClickEdit; Input MemoTitle t; Input MemoBody b;
                 ClickSave now] w in
  Inv w' ∧ memos w' = <[j := updateMemo t b now memo]> (memos w) ∧
  memoIndex w' = Z.of_nat j ∧ holds Viewing t b w'.
Proof.
  intros HInv Hj. unfold run. cbn [foldl].
  destruct (dispatch_label w j memo HInv Hj) as (HInv1 & Hm1 & Hi1 & Hh1).
  set (w1 := dispatch (ClickLabel j) w) in *.
  destruct (dispatch_edit w1 _ _ _ HInv1 Hh1) as ((HInv2 & Hm2 & Hi2) & Hh2).
  set (w2 := dispatch ClickEdit w1) in *.
  destruct (dispatch_input_title w2 _ _ t HInv2 Hh2) as ((HInv3 & Hm3 & Hi3) & Hh3).
  set (w3 := dispatch (Input MemoTitle t) w2) in *.
  destruct (dispatch_input_body w3 _ _ b HInv3 Hh3) as ((HInv4 & Hm4 & Hi4) & Hh4).
  set (w4 := dispatch (Input MemoBody b) w3) in *.
  rewrite <-Hm1, <-Hm2, <-Hm3, <-Hm4 in Hj |- *.
  apply (dispatch_save now w4 j memo Editing); [done | congruence | done..].
Qed.

(** The same without the click on the edit button: the fields
    are read-only, what is typed is lost, and the save keeps the title and
    the body of the memo and changes its save time. *)
Theorem viewing_read_only w j memo t b now :
  Inv w → memos w !! j = Some memo →
  let w' := run [ClickLabel j; Input MemoTitle t; Input MemoBody b; ClickSave now] w in
  Inv w' ∧
  memos w' = <[j := updateMemo (title memo) (body memo) now memo]> (memos w) ∧
  memoIndex w' = Z.of_nat j ∧ holds Viewing (title memo) (body memo) w'.
Proof.
  intros HInv Hj. unfold run. cbn [foldl].
  destruct (dispatch_label w j memo HInv Hj) as (HInv1 & Hm1 & Hi1 & Hh1).
  set (w1 := dispatch (ClickLabel j) w) in *.
  destruct (dispatch_input_viewing MemoTitle w1 _ _ t (or_introl eq_refl) HInv1 Hh1)
    as ((HInv2 & Hm2 & Hi2) & Hh2).
  set (w2 := dispatch (Input MemoTitle t) w1) in *.
  destruct (dispatch_input_viewing MemoBody w2 _ _ b (or_intror eq_refl) HInv2 Hh2)
    as ((HInv3 & Hm3 & Hi3) & Hh3).
  set (w3 := dispatch (Input MemoBody b) w2) in *.
  rewrite <-Hm1, <-Hm2, <-Hm3 in Hj |- *.
  apply (dispatch_save now w3 j memo Viewing); [done | congruence | done..].
Qed.

End scenarios.

(** ** The theorems at work *)

Section witnesses.
#[local] Existing Instance json_codec.
#[local] Existing Instance sample_marked.
#[local] Existing Instance json_codec_laws.
Local Open Scope Z_scope.

Lemma edit_then_save_witness :
  Inv (run [ClickLabel 1; ClickEdit; Input MemoTitle "list"; Input MemoBody "milk";
            ClickSave sample_time3] sample_start) ∧
  memos (run [ClickLabel 1; ClickEdit; Input MemoTitle "list"; Input MemoBody "milk";
              ClickSave sample_time3] sample_start)
  = <[1%nat := updateMemo "list" "milk" sample_time3 sample_second]> (memos sample_start) ∧
  memoIndex (run [ClickLabel 1; ClickEdit; Input MemoTitle "list"; Input MemoBody "milk";
                  ClickSave sample_time3] sample_start) = Z.of_nat 1 ∧
  holds Viewing "list" "milk"
    (run [ClickLabel 1; ClickEdit; Input MemoTitle "list"; Input MemoBody "milk";
          ClickSave sample_time3] sample_start).
Proof.
  apply (edit_then_save sample_start 1 sample_second);
    [by apply (bool_decide_unpack _); vm_compute | by vm_compute].
Defined.

Lemma viewing_read_only_witness :
  Inv (run [ClickLabel 1; Input MemoTitle "list"; Input MemoBody "milk";
            ClickSave sample_time3] sample_start) ∧
  memos (run [ClickLabel 1; Input MemoTitle "list"; Input MemoBody "milk";
              ClickSave sample_time3] sample_start)
  = <[1%nat := updateMemo (title sample_second) (body sample_second) sample_time3
                 sample_second]> (memos sample_start) ∧
  memoIndex (run [ClickLabel 1; Input MemoTitle "list"; Input MemoBody "milk";
                  ClickSave sample_time3] sample_start) = Z.of_nat 1 ∧
  holds Viewing (title sample_second) (body sample_second)
    (run [ClickLabel 1; Input MemoTitle "list"; Input MemoBody "milk";
          ClickSave sample_time3] sample_start).
Proof.
  apply (viewing_read_only sample_start 1 sample_second);
    [by apply (bool_decide_unpack _); vm_compute | by vm_compute].
Defined.

End witnesses.
