(* ===== verification/User.v ===== *)
(** * User: what the page lets the user do

    The handlers of index.ts end by setting attributes: [setEditMode]
    (lines 147-161) sets or removes [disabled] on the two fields, and
    [setHiddenButton] (lines 138-144) sets or removes [hidden] on the edit
    button and the save button.  The browser gives these attributes their
    meaning: a hidden button takes no click, a disabled field takes no
    text, and a label that is not in the list cannot be clicked.

    [can ev w] says that the user can make the event [ev] on the page of
    [w].  The machine of [Spec] has no guard on edit and save (the spec's
    section 4.3); the page has: in a state of the machine the edit button
    can be clicked in viewing mode only, the save button and the fields
    can be used in editing mode only ([can_edit], [can_save],
    [can_input]).  So what a user does is a sequence of sessions
    ([can_run_offered]): every save follows an add or an edit with no
    select, delete or save between them. *)

From S2P Require Import Prelude Memo Dom Storage Json App Sample Invariant.
From S2P Require Import Machine Spec.

(** The user can make the event on the page as it is.  The add button,
    the delete button and the download link are never hidden by the
    program. *)
Definition can (ev : Event) (w : World) : Prop :=
  match ev with
  | ClickAdd _ | ClickDelete | ClickDownload => True
  | ClickLabel n => n < length (memoList (page w))
  | ClickEdit => hasAttribute "hidden" (editButton (page w)) = false
  | ClickSave _ => hasAttribute "hidden" (saveButton (page w)) = false
  | Input field _ =>
      (field = MemoTitle ∨ field = MemoBody) ∧
      hasAttribute "disabled" (get_elem field (page w)) = false
  end.

Fixpoint can_run `{Codec} `{Marked} (evs : list Event) (w : World) : Prop :=
  match evs with
  | [] => True
  | ev :: evs' => can ev w ∧ can_run evs' (dispatch ev w)
  end.

(** The actions the page offers in a state of the machine. *)
Definition offered (a : Action) (s : State) : Prop :=
  match a with
  | Edit => mode s = Viewing
  | Save _ _ _ => mode s = Editing
  | Select i => is_Some (index_of i (repository s))
  | Add _ | Delete => True
  end.

Fixpoint offered_steps (acts : list Action) (s : State) : Prop :=
  match acts with
  | [] => True
  | a :: acts' => offered a s ∧ offered_steps acts' (step a s)
  end.

#[export] Instance can_dec ev w : Decision (can ev w).
Proof. destruct ev; simpl; apply _. Defined.

#[export] Instance can_run_dec `{Codec} `{Marked} evs w : Decision (can_run evs w).
Proof. revert w. induction evs as [|ev evs IH]; intros w; simpl; apply _. Defined.

#[export] Instance offered_dec a s : Decision (offered a s).
Proof. destruct a; simpl; apply _. Defined.

#[export] Instance offered_steps_dec acts s : Decision (offered_steps acts s).
Proof. revert s. induction acts as [|a acts IH]; intros s; simpl; apply _. Defined.

(** Events to run the model on, from a state in editing mode: the two
    fields typed and saved, a click on a label, an add, which opens a
    session, and its save, a deletion and a click on the edit button. *)
Definition sample_session : list Event :=
  [Input MemoTitle "list"; Input MemoBody "milk"; ClickSave sample_time3;
   ClickLabel 1; ClickAdd sample_time3; Input MemoBody "eggs"; ClickSave sample_time3;
   ClickDelete; ClickEdit].

Section user.
Context `{Codec} `{Marked} `{!CodecLaws}.
Implicit Types (w : World) (s : State) (ev : Event) (evs : list Event) (a : Action).

(** ** The attributes are the guards *)

Lemma mode_cases (m : Mode) : negb (bool_decide (m = Editing)) = false ↔ m = Editing.
Proof. by destruct m. Qed.

Lemma can_edit w s : refines w s → can ClickEdit w ↔ mode s = Viewing.
Proof. intros (_ & _ & _ & _ & _ & _ & He). simpl. rewrite He. by destruct (mode s). Qed.

Lemma can_save now w s : refines w s → can (ClickSave now) w ↔ mode s = Editing.
Proof. intros (_ & _ & _ & _ & _ & Hs & _). simpl. by rewrite Hs, mode_cases. Qed.

Lemma can_input field text w s :
  refines w s →
  can (Input field text) w ↔ (field = MemoTitle ∨ field = MemoBody) ∧ mode s = Editing.
Proof.
  intros (_ & Ht & Hb & _). simpl. rewrite <-mode_cases.
  split; (intros [[-> | ->] Hd]; (split; [auto|])); simpl in *; congruence.
Qed.

Lemma can_label n w s : refines w s → can (ClickLabel n) w ↔ n < length (repository s).
Proof.
  intros ((HInv & -> & _) & _). destruct HInv as (_ & _ & Hlist & _).
  simpl. by rewrite Hlist, labels_length.
Qed.

(** ** What the user does is what the page offers *)

(** A label carries the identifier of a memo of the array. *)
Lemma label_offered n w s i :
  refines_data w s →
  memoList (page w) !! n ≫= getAttribute "data-id" = Some i →
  is_Some (index_of i (repository s)).
Proof.
  intros (HInv & Hrepo & _) Hi. destruct HInv as (_ & Hnd & Hlist & _).
  rewrite Hlist, labels_lookup in Hi.
  destruct (memos w !! n) as [memo|] eqn:Hn; [|done].
  simpl in Hi. rewrite label_data_id in Hi. injection Hi as <-.
  by rewrite Hrepo, (index_of_NoDup _ _ _ Hnd Hn).
Qed.

Lemma can_offered ev w s a :
  refines w s → can ev w → action_of ev w = Some a → offered a s.
Proof.
  intros Href Hcan Ha. destruct ev; simpl in Ha; try by simplify_eq.
  - apply bind_Some in Ha as (target & Ht & Ha).
    apply bind_Some in Ha as (i & Hi & [= <-]).
    apply (label_offered n w s); [apply Href | by rewrite Ht].
  - injection Ha as <-. by apply (can_edit w s).
  - injection Ha as <-. by apply (can_save now w s).
Qed.

Lemma dispatch_refines ev w s :
  refines w s → allowed ev w → refines (dispatch ev w) (next ev w s).
Proof.
  intros [Hdata Hshows] Hok.
  destruct (dispatch_simulates ev w s Hdata Hok) as (Hdata' & Hshows' & _).
  split; auto.
Qed.

(** Claim C15. The attributes the handlers set are the guards of the
    machine: along every sequence of events the user can make on the
    page, a save happens in editing mode only, an edit in viewing mode
    only, and a select names a memo of the array. *)
Theorem can_run_offered evs w s :
  refines w s → allowed_run evs w → can_run evs w →
  offered_steps (actions_of evs w) s.
Proof.
  revert w s. induction evs as [|ev evs IH]; intros w s Href Hok Hcan; [done|].
  destruct Hok as [Hev Hok], Hcan as [Hcan Hcans].
  pose proof (dispatch_refines ev w s Href Hev) as Href'. unfold next in Href'.
  simpl. destruct (action_of ev w) as [a|] eqn:Ha; simpl; [|by apply IH].
  split; [by eapply can_offered | by apply IH].
Qed.

End user.

(** ** The theorem at work *)

Section witnesses.
#[local] Existing Instance json_codec.
#[local] Existing Instance sample_marked.
#[local] Existing Instance json_codec_laws.

Lemma can_run_offered_witness :
  offered_steps (actions_of sample_session sample_editing) (abs Editing sample_editing).
Proof.
  apply can_run_offered; by apply (bool_decide_unpack _); vm_compute.
Defined.

End witnesses.
