(* ===== verification/Complete.v ===== *)
(** * Complete: the user can make every transition of the machine

    [Spec] shows that whatever the program does, the machine of the spec
    does too.  This file shows the converse: whatever the machine does,
    the user can make the program do, with events the page lets the user
    make ([User.can]).  For every action of the machine there are events
    ([events_of]) that lead the program from a state of the machine to
    the state the machine is in after the action:

    - add and delete are one click;
    - select is a click on the label of the memo that carries the
      identifier (none when no memo carries it, where the machine stays);
    - edit is a click on the edit button in viewing mode, where the
      button is shown, and nothing in editing mode, where the machine
      stays;
    - save with a title and a body is an edit, the two texts typed into
      the fields, and a click on save: the handler [clickSaveMemo] takes
      the texts from the fields (lines 223-224), and the fields take
      typing only in editing mode.

    The one condition is on add, as everywhere: the identifier [newMemo]
    builds is not in use ([enabled]). *)

From S2P Require Import Prelude Memo Dom Storage Json App Sample Invariant.
From S2P Require Import Machine Spec Clock Preview Async Scenarios User.

(** The click that leads into editing mode, where one is needed. *)
Definition open_session (s : State) : list Event :=
  match mode s with
  | Viewing => [ClickEdit]
  | Editing => []
  end.

(** The events that make the action [a] in the state [s]. *)
Definition events_of (a : Action) (s : State) : list Event :=
  match a with
  | Add now => [ClickAdd now]
  | Select i =>
      match index_of i (repository s) with
      | Some k => [ClickLabel k]
      | None => []
      end
  | Edit => open_session s
  | Save t b now =>
      open_session s ++ [Input MemoTitle t; Input MemoBody b; ClickSave now]
  | Delete => [ClickDelete]
  end.

Fixpoint events_of_steps (acts : list Action) (s : State) : list Event :=
  match acts with
  | [] => []
  | a :: acts' => events_of a s ++ events_of_steps acts' (step a s)
  end.

(** An add is made under an identifier that is not in use. *)
Definition enabled (a : Action) (s : State) : Prop :=
  match a with
  | Add now => id (newMemo now (repository s)) ∉ ids (repository s)
  | _ => True
  end.

Fixpoint enabled_steps (acts : list Action) (s : State) : Prop :=
  match acts with
  | [] => True
  | a :: acts' => enabled a s ∧ enabled_steps acts' (step a s)
  end.

(** What is shown of the events of an action: every add is allowed, the
    user can make every event, and the program ends in the state [s']. *)
Definition makes `{Codec} `{Marked} (evs : list Event) (w : World) (s' : State) : Prop :=
  allowed_run evs w ∧ can_run evs w ∧ refines (run evs w) s'.

#[export] Instance enabled_dec a s : Decision (enabled a s).
Proof. destruct a; apply _. Defined.

#[export] Instance enabled_steps_dec acts s : Decision (enabled_steps acts s).
Proof. revert s. induction acts as [|a acts IH]; intros s; simpl; apply _. Defined.

(** Actions to run the model on: a save with new texts, an add, a click on
    the label of the first memo, and two deletions. *)
Definition sample_actions : list Action :=
  [Save "list" "milk" sample_time3; Add sample_time3;
   Select (id (newMemo sample_time2 [newMemo sample_time1 []])); Delete; Delete].

Section complete.
Context `{Codec} `{Marked} `{!CodecLaws}.
Implicit Types (w : World) (s : State) (a : Action) (evs : list Event).

(** ** Sequences of events, end to end *)

Lemma run_app evs1 evs2 w : run (evs1 ++ evs2) w = run evs2 (run evs1 w).
Proof. apply foldl_app. Qed.

Lemma allowed_run_app evs1 evs2 w :
  allowed_run evs1 w → allowed_run evs2 (run evs1 w) → allowed_run (evs1 ++ evs2) w.
Proof.
  revert w. induction evs1 as [|ev evs1 IH]; intros w Hok1 Hok2; [done|].
  destruct Hok1 as [Hev Hok1]. split; [done|]. by apply IH.
Qed.

(** The program follows the machine along events whose actions are known. *)
Lemma run_to evs w s s' :
  refines w s → allowed_run evs w → steps (actions_of evs w) s = s' →
  refines (run evs w) s'.
Proof.
  intros [Hdata Hshows] Hok <-.
  destruct (run_simulates evs w s Hdata Hok) as (Hdata' & Hshows' & _).
  split; auto.
Qed.

Lemma can_run_app evs1 evs2 w :
  can_run evs1 w → can_run evs2 (run evs1 w) → can_run (evs1 ++ evs2) w.
Proof.
  revert w. induction evs1 as [|ev evs1 IH]; intros w Hcan1 Hcan2; [done|].
  destruct Hcan1 as [Hev Hcan1]. split; [done|]. by apply IH.
Qed.

(** ** One action *)

Lemma makes_app evs1 evs2 w s1 s2 :
  makes evs1 w s1 → makes evs2 (run evs1 w) s2 → makes (evs1 ++ evs2) w s2.
Proof.
  intros (Hok1 & Hcan1 & Href1) (Hok2 & Hcan2 & Href2). unfold makes. rewrite run_app.
  split_and!; [by apply allowed_run_app | by apply can_run_app | done].
Qed.

Lemma select_actions i k w s :
  refines_data w s → index_of i (repository s) = Some k →
  action_of (ClickLabel k) w = Some (Select i).
Proof.
  intros (HInv & Hrepo & _) Hk. unfold index_of in Hk.
  destruct (list_find _ (repository s)) as [[j memo]|] eqn:Hf; [|done].
  injection Hk as ->. apply list_find_Some in Hf as (Hj & <- & _). rewrite Hrepo in Hj.
  pose proof HInv as (_ & _ & Hlist & _).
  cbn [action_of]. rewrite Hlist, labels_lookup, Hj. simpl.
  by rewrite label_data_id.
Qed.

(** One click whose action is known. *)
Lemma makes_click ev a w s :
  refines w s → allowed ev w → can ev w → action_of ev w = Some a →
  makes [ev] w (step a s).
Proof.
  intros Href Hok Hcan Ha. split_and!; [done..|].
  apply (run_to _ w s); [done..|]. simpl. by rewrite Ha.
Qed.

Lemma open_session_makes w s : refines w s → makes (open_session s) w (step Edit s).
Proof.
  intros Href. unfold open_session. destruct (mode s) eqn:Hm.
  - apply makes_click; [done..|by apply (can_edit w s)|done].
  - split_and!; [done..|]. destruct s. simpl in *. by subst.
Qed.

(** In editing mode the two texts typed and a click on save. *)
Lemma typed_makes t b now w s :
  refines w s → mode s = Editing →
  makes [Input MemoTitle t; Input MemoBody b; ClickSave now] w (step (Save t b now) s).
Proof.
  intros Href Hm. pose proof Href as [Hdata Hshows]. pose proof Hdata as (HInv & _).
  rewrite Hm in Hshows.
  destruct (dispatch_input_title w _ _ t HInv (conj Hshows (conj eq_refl eq_refl)))
    as ((HInv1 & _) & Hh1).
  destruct (dispatch_input_body _ _ _ b HInv1 Hh1) as (_ & Hs2 & Ht2 & Hb2).
  split_and!; [done| |].
  - simpl. destruct Hshows as (? & ? & _), Hh1 as ((? & ? & _) & _), Hs2 as (_ & _ & _ & _ & ? & _).
    split_and!; auto.
  - apply (run_to _ w s); [done..|]. cbn [actions_of action_of app].
    by rewrite Ht2, Hb2.
Qed.

Lemma step_Save_Edit t b now s :
  valid s → step (Save t b now) (step Edit s) = step (Save t b now) s.
Proof. intros [memo Hk]%lookup_lt_is_Some. simpl. by rewrite Hk. Qed.

(** The events of an action lead the program where the action leads the
    machine. *)
Lemma step_complete a s w :
  refines w s → enabled a s → makes (events_of a s) w (step a s).
Proof.
  intros Href Hen. pose proof Href as [Hdata _].
  destruct a as [now|i| |t b now|]; cbn [events_of].
  - apply makes_click; [done| |done..].
    destruct Hdata as (_ & Hrepo & _). unfold allowed, fresh. by rewrite <-Hrepo.
  - destruct (index_of i (repository s)) as [k|] eqn:Hk.
    + apply makes_click; [done..| |by apply (select_actions i k w s)].
      apply (can_label k w s Href). by eapply index_of_lt.
    + split_and!; [done..|]. simpl. by rewrite Hk.
  - by apply open_session_makes.
  - rewrite <-step_Save_Edit by by eapply refines_data_valid.
    eapply makes_app; [by apply open_session_makes|].
    destruct (open_session_makes w s Href) as (_ & _ & Href1).
    by apply typed_makes.
  - by apply makes_click.
Qed.

(** ** Sequences of actions *)

(** Claim C9. The program can follow the machine: from a state of the
    program that is a state of the machine, for every sequence of actions
    in which every add uses an identifier that is not in use, the events
    [events_of_steps] are allowed, the user can make each of them on the
    page as it then is, and they lead the program to the state the
    machine reaches by the actions. *)
Theorem steps_complete acts s w :
  refines w s → enabled_steps acts s →
  allowed_run (events_of_steps acts s) w ∧
  can_run (events_of_steps acts s) w ∧
  refines (run (events_of_steps acts s) w) (steps acts s).
Proof.
  revert s w. induction acts as [|a acts IH]; intros s w Href Hen; [done|].
  destruct Hen as [Ha Hen]. cbn [events_of_steps].
  pose proof (step_complete a s w Href Ha) as Hstep.
  eapply makes_app; [exact Hstep|]. apply IH; [apply Hstep | done].
Qed.

End complete.

(** ** The theorem at work *)

Section witnesses.
#[local] Existing Instance json_codec.
#[local] Existing Instance sample_marked.
#[local] Existing Instance json_codec_laws.

Lemma steps_complete_witness :
  allowed_run (events_of_steps sample_actions (abs Viewing sample_single)) sample_single ∧
  can_run (events_of_steps sample_actions (abs Viewing sample_single)) sample_single ∧
  refines (run (events_of_steps sample_actions (abs Viewing sample_single)) sample_single)
    (steps sample_actions (abs Viewing sample_single)).
Proof.
  apply steps_complete; by apply (bool_decide_unpack _); vm_compute.
Defined.

End witnesses.
