(* ===== verification/Tabs.v ===== *)
(** * Tabs: the program in several tabs of one browser

    The spec's section 5 has one actor.  A browser runs one copy of
    index.ts in every tab that shows the page: each copy has its own
    [memos], [memoIndex] and page, and all of them read and write the one
    [localStorage] of the origin.  index.ts reads the store once, in
    [init] (line 58), and writes the whole array at lines 65, 179, 227 and
    254; it does not listen to the [storage] event.

    [Browser] is the store and the tabs; a step opens a tab (the module's
    top-level code runs on the store as it is) or is one turn of the event
    loop of a tab.  The theorems:

    - no listener reads the store ([listener_respects], by the rules of
      [respects] along the text of every handler), so a tab shows what it
      would show alone, whatever the other tabs do ([tab_alone]);
    - a turn leaves the store as it was, or leaves it holding the array
      of the tab ([dispatch_written]), so the store always holds the array
      of one of the tabs ([browse_agreed]);
    - but not of all of them: of two tabs that each add a memo, the one
      that adds last overwrites the memo of the other, which is gone in
      every tab opened later ([lost_update]). *)

From S2P Require Import Prelude Hoare Memo Dom Storage Json App Sample Invariant Machine.
From S2P Require Import Always.

(** ** The browser *)

Record Browser : Type := {
  storage : gmap string string;
  tabs : list World;
}.

Inductive Step : Type :=
| OpenTab (html : Page) (timestamp1 timestamp2 : Z)
| InTab (k : nat) (ev : Event).

(** The tab [w] on the store as it is now. *)
Definition attach (store : gmap string string) (w : World) : World :=
  set_localStorage (λ _, store) w.

(** What a tab holds and shows: its state without the store. *)
Definition view (w : World) : World := attach ∅ w.

Definition same_tab (w1 w2 : World) : Prop := view w1 = view w2.

(** The events of the tab [k] in a sequence of steps. *)
Fixpoint events_in (k : nat) (sts : list Step) : list Event :=
  match sts with
  | [] => []
  | OpenTab _ _ _ :: sts' => events_in k sts'
  | InTab j ev :: sts' =>
      if decide (j = k) then ev :: events_in k sts' else events_in k sts'
  end.

Section browser.
Context `{Codec} `{Marked}.

Definition browse (st : Step) (b : Browser) : Browser :=
  match st with
  | OpenTab html timestamp1 timestamp2 =>
      let w := start html (storage b) timestamp1 timestamp2 in
      {| storage := localStorage w; tabs := tabs b ++ [w] |}
  | InTab k ev =>
      match tabs b !! k with
      | Some w =>
          let w' := dispatch ev (attach (storage b) w) in
          {| storage := localStorage w'; tabs := <[k := w']> (tabs b) |}
      | None => b
      end
  end.

Definition browse_all (sts : list Step) (b : Browser) : Browser :=
  foldl (λ b st, browse st b) b sts.

(** [w] has the store and the array of [w0], or a fresh read of its
    store returns its array. *)
Definition written (w0 w : World) : Prop :=
  (localStorage w = localStorage w0 ∧ memos w = memos w0) ∨ stored w.

(** No tab is open, or the store holds the array of one of the tabs. *)
Definition agreed (b : Browser) : Prop :=
  tabs b = [] ∨ Exists (λ w, readLacalStorage STORAGE_KEY (storage b) = memos w) (tabs b).

#[export] Instance agreed_dec b : Decision (agreed b).
Proof. unfold agreed. apply _. Defined.

End browser.

#[export] Instance same_tab_dec w1 w2 : Decision (same_tab w1 w2).
Proof. unfold same_tab. apply _. Defined.

#[export] Instance same_tab_equivalence : Equivalence same_tab.
Proof.
  unfold same_tab. split; [by intros w | by intros w1 w2 | intros w1 w2 w3 H12 H23].
  by rewrite H12.
Qed.

(** ** States to run the model on *)

(** Two tabs opened on an empty store, one after the other: the second
    takes the two memos the first has made. *)
Definition sample_browser : Browser :=
  @browse_all json_codec sample_marked
    [OpenTab blank_page sample_time1 sample_time2;
     OpenTab blank_page sample_time2 sample_time3]
    {| storage := ∅; tabs := [] |}.

(** A text is typed and saved in the first tab while memos are added and
    deleted in the second. *)
Definition sample_steps : list Step :=
  [InTab 0 ClickEdit; InTab 1 (ClickAdd sample_time3); InTab 0 (Input MemoBody "milk");
   InTab 1 ClickDelete; InTab 0 (ClickSave sample_time3); InTab 1 (ClickLabel 0)].

(** A memo is added in the first tab, then in the second, and a third tab
    is opened. *)
Definition sample_race : list Step :=
  [InTab 0 (ClickAdd sample_time3); InTab 1 (ClickAdd sample_time1);
   OpenTab blank_page sample_time1 sample_time2].

(** ** No listener reads the store *)

Section respects_store.
Context `{Codec} `{Marked}.
Implicit Types (w : World) (ev : Event) (evs : list Event) (store : gmap string string).

Lemma attach_same_tab store w : same_tab (attach store w) w.
Proof. done. Qed.

(** A read ignores the store; a write keeps two states that differ in
    the store only that way. *)
Ltac tab_side :=
  intros; unfold same_tab, view, attach in *;
  repeat match goal with w : World |- _ => destruct w end;
  simplify_eq/=; unfold render_preview; repeat case_match; by simplify_eq/=.

Ltac tab_step :=
  lazymatch goal with
  | |- respects _ (dom _) => apply respects_zoom; solve [tab_side]
  | |- respects _ (bind (dom _) _) =>
      apply respects_bind; [apply respects_zoom; solve [tab_side]|intros ?]
  | |- _ => respects_step tab_side
  end.

Lemma listener_respects ev : respects same_tab (listener ev).
Proof. destruct ev; unfold_handlers; repeat tab_step. Qed.

Lemma run_task_same_tab t w1 w2 :
  same_tab w1 w2 → same_tab (run_task t w1) (run_task t w2).
Proof. destruct t; tab_side. Qed.

Lemma run_tasks_same_tab (ts : list Task) w1 w2 :
  same_tab w1 w2 →
  same_tab (foldl (λ w t, run_task t w) w1 ts) (foldl (λ w t, run_task t w) w2 ts).
Proof.
  revert w1 w2. induction ts as [|t ts IH]; intros w1 w2 Hw; [done|].
  simpl. by apply IH, run_task_same_tab.
Qed.

#[export] Instance run_microtasks_same_tab : Proper (same_tab ==> same_tab) run_microtasks.
Proof.
  intros w1 w2 Hw. unfold run_microtasks.
  assert (microtasks w1 = microtasks w2) as -> by tab_side.
  apply run_tasks_same_tab. tab_side.
Qed.

(** One turn of the event loop, and a sequence of turns, on two states
    that differ in the store only. *)
#[export] Instance dispatch_same_tab ev : Proper (same_tab ==> same_tab) (dispatch ev).
Proof.
  intros w1 w2 Hw. unfold dispatch.
  destruct (listener_respects ev w1 w2 Hw) as [Hw' Hout].
  destruct (listener ev w1) as [w1' r1], (listener ev w2) as [w2' r2].
  simpl in *. subst r2. apply run_microtasks_same_tab.
  destruct r1 as [[]|[msg]]; [done | tab_side].
Qed.

#[export] Instance run_same_tab evs : Proper (same_tab ==> same_tab) (run evs).
Proof.
  intros w1 w2 Hw. revert w1 w2 Hw.
  induction evs as [|ev evs IH]; intros w1 w2 Hw; [done|].
  simpl. by apply IH, dispatch_same_tab.
Qed.

End respects_store.

(** ** A tab among others *)

Section tabs.
Context `{Codec} `{Marked}.
Implicit Types (w : World) (ev : Event) (b : Browser) (st : Step) (sts : list Step)
  (k : nat).

(** A step in another tab, or the opening of a tab, leaves the tab [k] as
    it is; a step in the tab [k] is a turn of its event loop on the store
    as it is. *)
Lemma browse_lookup st b k w :
  tabs b !! k = Some w →
  tabs (browse st b) !! k
  = Some (match st with
          | InTab j ev => if decide (j = k) then dispatch ev (attach (storage b) w) else w
          | OpenTab _ _ _ => w
          end).
Proof.
  intros Hk. destruct st as [html t1 t2|j ev]; simpl.
  { by apply lookup_app_l_Some. }
  case_decide as Hj.
  - subst j. rewrite Hk. simpl. apply list_lookup_insert_eq. by eapply lookup_lt_Some.
  - destruct (tabs b !! j); [|done]. simpl. by rewrite list_lookup_insert_ne.
Qed.

(** Claim C31. A tab shows what it would show alone.  Whatever the other
    tabs do, and whatever they write to the store, after any sequence of
    steps the tab holds the array, the index, the page, the notices, the
    console, the queue and the blobs it has after its own events. *)
Theorem tab_alone sts b k w :
  tabs b !! k = Some w →
  ∃ w', tabs (browse_all sts b) !! k = Some w' ∧
    same_tab w' (run (events_in k sts) w).
Proof.
  revert b w. induction sts as [|st sts IH]; intros b w Hk; [by exists w|].
  simpl. destruct (IH _ _ (browse_lookup st b k w Hk)) as (w' & Hk' & Hw').
  exists w'. split; [done|]. rewrite Hw'.
  destruct st as [html t1 t2|j ev]; [done|]. case_decide; [|done].
  simpl. by rewrite attach_same_tab.
Qed.

(** ** The store holds the array of a tab *)

Context `{!CodecLaws}.

#[export] Instance written_stable w0 : Stable (written w0).
Proof. by split. Qed.

(** A write keeps [written] when it leaves the array and the store
    alone, or when it is the write to the store. *)
Ltac written_side :=
  intros; unfold written, stored, compose in *; rewrite ?render_preview_fields;
  repeat case_match; world_simpl;
  first [done | assumption | right; apply persisted_save].

Lemma listener_written w0 ev : upholds (written w0) (λ _, True) (listener ev).
Proof. destruct ev; unfold_handlers; handler_go written_side. Qed.

(** A turn leaves the store and the array as they were, or it ends with
    the array in the store. *)
Lemma dispatch_written ev w : written w (dispatch ev w).
Proof.
  apply (dispatch_upholds (written w) (λ _, True)); [apply listener_written|].
  by left.
Qed.

Lemma browse_agreed st b : agreed b → agreed (browse st b).
Proof.
  intros Hb. destruct st as [html t1 t2|k ev]; simpl.
  { right. apply Exists_app. right. apply Exists_cons_hd.
    apply (start_stored html (storage b) t1 t2). }
  destruct (tabs b !! k) as [w|] eqn:Hk; [right; simpl|done].
  destruct (dispatch_written ev (attach (storage b) w)) as [[-> Hm]|Hst].
  - destruct Hb as [Hnil|Hex]; [by rewrite Hnil in Hk|]. simpl.
    apply Exists_exists in Hex as (w0 & Hw0 & Hread).
    apply list_elem_of_lookup in Hw0 as [j Hj].
    destruct (decide (j = k)) as [->|Hne]; apply Exists_exists.
    + eexists. split; [eapply list_elem_of_lookup_2, list_lookup_insert_eq;
                        by eapply lookup_lt_Some|].
      rewrite Hm. by simplify_eq.
    + exists w0. split; [|done].
      eapply list_elem_of_lookup_2. by rewrite list_lookup_insert_ne.
  - apply Exists_exists. eexists. split; [|exact Hst].
    eapply list_elem_of_lookup_2, list_lookup_insert_eq. by eapply lookup_lt_Some.
Qed.

(** Claim C32. The store is never left with anything but the array of a
    tab.  From a browser in which no tab is open, or the store holds the
    array of a tab, every sequence of steps (tabs opening, events in any
    tab in any order) leads to a browser of which the same is true. *)
Theorem browse_all_agreed sts b : agreed b → agreed (browse_all sts b).
Proof.
  revert b. induction sts as [|st sts IH]; intros b Hb; [done|].
  simpl. by apply IH, browse_agreed.
Qed.

(** ** A tab overwrites what another tab added *)

Lemma dispatch_add now w :
  let ms := memos w ++ [newMemo now (memos w)] in
  memos (dispatch (ClickAdd now) w) = ms ∧
  localStorage (dispatch (ClickAdd now) w)
  = saveLocalStorage STORAGE_KEY ms (localStorage w).
Proof.
  unfold dispatch. cbn [listener]. rewrite clickAddMemo_run. cbn [uncaught].
  destruct (run_microtasks_fields (clickAddMemo_post now w)) as (-> & _ & _ & ->).
  unfold clickAddMemo_post.
  by destruct (refreshed_fields true (memos w ++ [newMemo now (memos w)])
    (length (memos w)) (newMemo now (memos w))
    (set_localStorage (saveLocalStorage STORAGE_KEY
       (memos w ++ [newMemo now (memos w)])) w)) as (-> & _ & _ & -> & _).
Qed.

(** A tab opened on a store that holds memos takes them and leaves the
    store alone. *)
Lemma start_loaded html store timestamp1 timestamp2 :
  readLacalStorage STORAGE_KEY store ≠ [] →
  memos (start html store timestamp1 timestamp2) = readLacalStorage STORAGE_KEY store ∧
  localStorage (start html store timestamp1 timestamp2) = store.
Proof.
  intros Hne. unfold start.
  destruct (initial_memos_nonempty timestamp1 timestamp2
    (readLacalStorage STORAGE_KEY store)) as [memo Hk].
  rewrite (init_run timestamp1 timestamp2 (boot html store) memo) by done.
  cbn [uncaught].
  destruct (run_microtasks_fields (init_post timestamp1 timestamp2 memo (boot html store)))
    as (-> & _ & _ & ->).
  destruct (init_post_fields timestamp1 timestamp2 memo (boot html store))
    as (-> & _ & -> & _).
  unfold initial_memos, js_length. cbn [localStorage boot].
  destruct (readLacalStorage STORAGE_KEY store); [done|].
  by rewrite !decide_False by done.
Qed.

(** Claim C30. The lost update.  Two tabs hold the same array.  A memo is
    added in the one, then a memo is added in the other: the first tab
    still holds and shows its memo, but the store holds the array of
    the second tab, without it, and so does every tab opened from then
    on. *)
Theorem lost_update i j now1 now2 html timestamp1 timestamp2 b w1 w2 :
  i ≠ j → tabs b !! i = Some w1 → tabs b !! j = Some w2 → memos w1 = memos w2 →
  let b' := browse_all [InTab i (ClickAdd now1); InTab j (ClickAdd now2);
                        OpenTab html timestamp1 timestamp2] b in
  memos <$> tabs b' !! i = Some (memos w1 ++ [newMemo now1 (memos w1)]) ∧
  readLacalStorage STORAGE_KEY (storage b') = memos w1 ++ [newMemo now2 (memos w1)] ∧
  memos <$> last (tabs b') = Some (memos w1 ++ [newMemo now2 (memos w1)]).
Proof.
  intros Hij Hi Hj Hms b'. subst b'. cbn [browse_all foldl].
  set (b1 := browse (InTab i (ClickAdd now1)) b).
  set (b2 := browse (InTab j (ClickAdd now2)) b1).
  pose proof (browse_lookup (InTab i (ClickAdd now1)) b i w1 Hi) as Hi1.
  pose proof (browse_lookup (InTab i (ClickAdd now1)) b j w2 Hj) as Hj1.
  cbv beta iota in Hi1, Hj1.
  rewrite decide_True in Hi1 by done. rewrite decide_False in Hj1 by done.
  fold b1 in Hi1, Hj1.
  pose proof (browse_lookup (InTab j (ClickAdd now2)) b1 i _ Hi1) as Hi2.
  cbv beta iota in Hi2. rewrite decide_False in Hi2 by done. fold b2 in Hi2.
  assert (readLacalStorage STORAGE_KEY (storage b2)
          = memos w1 ++ [newMemo now2 (memos w1)]) as Hread.
  { unfold b2. cbn [browse]. rewrite Hj1. cbn [storage].
    destruct (dispatch_add now2 (attach (storage b1) w2)) as [_ ->].
    cbn [attach memos set_localStorage]. rewrite <-Hms. apply read_save. }
  destruct (start_loaded html (storage b2) timestamp1 timestamp2) as [Hm3 Hs3].
  { rewrite Hread. by destruct (memos w1). }
  cbn [browse storage tabs]. rewrite Hs3, last_snoc. simpl. rewrite Hm3.
  split_and!; [|done|by rewrite Hread].
  rewrite lookup_app_l by by eapply lookup_lt_Some. rewrite Hi2. simpl.
  by destruct (dispatch_add now1 (attach (storage b) w1)) as [-> _].
Qed.

End tabs.

(** ** The theorems at work *)

Section witnesses.
#[local] Existing Instance json_codec.
#[local] Existing Instance sample_marked.
#[local] Existing Instance json_codec_laws.

Lemma tab_alone_witness :
  ∃ w', tabs (browse_all sample_steps sample_browser) !! 0%nat = Some w' ∧
    same_tab w' (run (events_in 0 sample_steps) sample_start).
Proof. apply (tab_alone sample_steps sample_browser 0 sample_start). by vm_compute. Defined.

Lemma browse_all_agreed_witness : agreed (browse_all sample_steps sample_browser).
Proof. apply browse_all_agreed. by apply (bool_decide_unpack _); vm_compute. Defined.

Lemma lost_update_witness :
  memos <$> tabs (browse_all sample_race sample_browser) !! 0%nat
  = Some (memos sample_start ++ [newMemo sample_time3 (memos sample_start)]) ∧
  readLacalStorage STORAGE_KEY (storage (browse_all sample_race sample_browser))
  = memos sample_start ++ [newMemo sample_time1 (memos sample_start)] ∧
  memos <$> last (tabs (browse_all sample_race sample_browser))
  = Some (memos sample_start ++ [newMemo sample_time1 (memos sample_start)]).
Proof.
  apply (lost_update 0 1 sample_time3 sample_time1 blank_page sample_time1 sample_time2
           sample_browser sample_start (start blank_page (localStorage sample_start)
             sample_time2 sample_time3)); [lia | by vm_compute..].
Defined.

End witnesses.
